(** * Detection viewer: live detection stream aggregator

    A shallow embedding of [DetectionViewer]
    (iot/src/components/AlertsPanel.tsx): the correlation of detection and
    frame events, the per-stream slot map, the image fetch, the bounding
    box overlay and the connection manager; and of [AlertsPanel] with the
    mock alerts and the counters of the alert service
    (iot/src/services/alertService.ts).

    JavaScript numbers are binary64 floats, modelled by Rocq's primitive
    floats.  A time value ([Date.prototype.getTime]) is an integral
    number of milliseconds or NaN, modelled by [option Z] with [None] for
    NaN.  Objects that the code mutates in place and shares by reference
    (the [FrameDetections] aggregates) live in an explicit store. *)

From Stdlib Require Import ZArith Ascii String PrimFloat FloatClass.
From Stdlib Require SpecFloat FloatOps FloatAxioms.
From stdpp Require Import gmap strings list fin_maps.

#[local] Set Warnings "-inexact-float".

(** ** JavaScript primitives used by the component *)

Module JS.

Definition is_nan (x : float) : bool := negb (PrimFloat.eqb x x).

(** [!x] on a number is true for [0], [-0] and [NaN]. *)
Definition falsy_num (x : float) : bool :=
  PrimFloat.eqb x 0%float || is_nan x.

(** [!s] on a string is true for the empty string only. *)
Definition falsy_str (s : string) : bool :=
  match s with EmptyString => true | String _ _ => false end.

(** [a > b] on numbers. *)
Definition gt (a b : float) : bool := PrimFloat.ltb b a.

(** [Math.min(a, b)]: NaN if either is NaN, and [-0] below [+0]. *)
Definition Math_min (a b : float) : float :=
  if is_nan a || is_nan b then PrimFloat.nan
  else if PrimFloat.ltb a b then a
  else if PrimFloat.ltb b a then b
  else match PrimFloat.classify a with
       | NZero => a
       | _ => b
       end.

(** A time value: [None] is NaN. *)
Abbreviation timeval := (option Z).

(** [a <= b] on time values; every comparison with NaN is false. *)
Definition time_le (a b : timeval) : bool :=
  match a, b with
  | Some x, Some y => (x <=? y)%Z
  | _, _ => false
  end.

End JS.

(** ** Data model (the interfaces of AlertsPanel.tsx) *)

Abbreviation bbox := (float * float * float * float)%type.

(** [DetectionEvent.data] *)
Record DetectionEventData := mkDetectionEventData {
  d_id : Z;
  d_frame_id : string;
  d_timestamp : string;
  d_label : string;
  d_class_id : Z;
  d_confidence : float;
  d_bbox : bbox
}.

(** [FrameEvent.data] *)
Record FrameEventData := mkFrameEventData {
  f_id : string;
  f_timestamp : string;
  f_ingest_timestamp : string;
  f_update_timestamp : string;
  f_stream_id : string;
  f_fps : float;
  f_scale : float
}.

(** An element of [FrameDetections.detections]. *)
Record Detection := mkDetection {
  id : Z;
  label : string;
  class_id : Z;
  confidence : float;
  bbox_of : bbox;
  timestamp : string
}.

(** [FrameDetections]: a mutable object, held in the store. *)
Record FrameDetections := mkFrameDetections {
  frameId : string;
  detections_of : list Detection;
  labels : gmap string float;
  detectionCount : nat
}.

(** A reference to a [FrameDetections] object. *)
Abbreviation ref := nat (only parsing).

(** [FrameData]: the frame event's fields, the image and the aggregate. *)
Record FrameData := mkFrameData {
  frame : FrameEventData;
  imageUrl : option string;
  detections_ref : ref
}.

(** [DetectionCard] *)
Record DetectionCard := mkDetectionCard {
  frameData : FrameData;
  messageTimestamp : JS.timeval
}.

(** A call of [handleFrameEvent] suspended at [await fetchImage(frameId)],
    with the locals it has captured. *)
Record Suspended := mkSuspended {
  s_frameData : FrameEventData;
  s_frameDetections : ref;
  s_messageTimestamp : JS.timeval
}.

(** The calls of [console.error] and [console.warn], one constructor per
    call site. *)
Inductive LogEntry :=
  | FailedToFetchImage (imageId statusText : string)
  | ErrorReadingImageBlob (imageId : string)
  | ErrorFetchingImage (imageId : string)
  | ErrorHandlingDetectionEvent
  | ErrorHandlingFrameEvent
  | ServerError (error : string)
  | UnknownEventType (type : string)
  | ErrorParsingMessage.

(** The state of the component that the event handlers read and write:
    the React state [status] and [detections], and the refs. *)
Record State := mkState {
  status : string;
  detections : gmap string DetectionCard;
  store : list FrameDetections;
  pendingDetections : gmap string ref;
  pendingFrames : gmap string FrameEventData;
  knownStreamIds : gset string;
  suspended : list Suspended;
  console : list LogEntry;
  toasts : list string
}.

Definition set_status (x : string) (st : State) : State :=
  mkState x (detections st) (store st) (pendingDetections st)
    (pendingFrames st) (knownStreamIds st) (suspended st) (console st)
    (toasts st).

Definition set_detections (x : gmap string DetectionCard) (st : State) : State :=
  mkState (status st) x (store st) (pendingDetections st)
    (pendingFrames st) (knownStreamIds st) (suspended st) (console st)
    (toasts st).

Definition set_store (x : list FrameDetections) (st : State) : State :=
  mkState (status st) (detections st) x (pendingDetections st)
    (pendingFrames st) (knownStreamIds st) (suspended st) (console st)
    (toasts st).

Definition set_pendingDetections (x : gmap string ref) (st : State) : State :=
  mkState (status st) (detections st) (store st) x
    (pendingFrames st) (knownStreamIds st) (suspended st) (console st)
    (toasts st).

Definition set_pendingFrames (x : gmap string FrameEventData) (st : State) : State :=
  mkState (status st) (detections st) (store st) (pendingDetections st)
    x (knownStreamIds st) (suspended st) (console st) (toasts st).

Definition set_knownStreamIds (x : gset string) (st : State) : State :=
  mkState (status st) (detections st) (store st) (pendingDetections st)
    (pendingFrames st) x (suspended st) (console st) (toasts st).

Definition set_suspended (x : list Suspended) (st : State) : State :=
  mkState (status st) (detections st) (store st) (pendingDetections st)
    (pendingFrames st) (knownStreamIds st) x (console st) (toasts st).

Definition log (e : LogEntry) (st : State) : State :=
  mkState (status st) (detections st) (store st) (pendingDetections st)
    (pendingFrames st) (knownStreamIds st) (suspended st)
    (console st ++ [e]) (toasts st).

Definition toast (msg : string) (st : State) : State :=
  mkState (status st) (detections st) (store st) (pendingDetections st)
    (pendingFrames st) (knownStreamIds st) (suspended st) (console st)
    (toasts st ++ [msg]).

(** The state on mount. *)
Definition init : State :=
  mkState "Connecting..." ∅ [] ∅ ∅ ∅ [] [] [].

(** ** normalizeScore *)

Definition normalizeScore (confidence : float) : float :=
  if JS.gt confidence 1%float then (confidence / 100)%float else confidence.

(** ** fetchImage

    What the network and the [FileReader] do is the input; the result is
    the resolved value ([None] for [null]) and what was logged. *)

Inductive FetchOutcome :=
  | FetchRejected                      (* fetch() rejects: network error *)
  | ResponseNotOk (statusText : string)
  | BlobRejected                       (* response.blob() rejects *)
  | ReaderError                        (* reader.onerror *)
  | ReaderLoaded (result : string).    (* reader.onloadend, reader.result *)

Definition fetchImage (imageId : string) (o : FetchOutcome)
  : option string * list LogEntry :=
  match o with
  | ResponseNotOk statusText => (None, [FailedToFetchImage imageId statusText])
  | ReaderLoaded result => (Some result, [])
  | ReaderError => (None, [ErrorReadingImageBlob imageId])
  | FetchRejected | BlobRejected => (None, [ErrorFetchingImage imageId])
  end.

(** ** The event correlator *)

Section Correlator.

(** [new Date(timestamp).getTime()]: the built-in date parser, applied to
    the frame's timestamp string. *)
Variable getTime : string → JS.timeval.

(** The component's prop. *)
Variable alertsEnabled : bool.

Definition toDetection (d : DetectionEventData) : Detection :=
  mkDetection (d_id d) (d_label d) (d_class_id d) (d_confidence d)
    (d_bbox d) (d_timestamp d).

(** The object created when no aggregate is buffered for a frame. *)
Definition emptyFrameDetections (frame_id : string) : FrameDetections :=
  mkFrameDetections frame_id [] ∅ 0.

(** The label map after [labels.get] / [labels.set] in
    [handleDetectionEvent]. *)
Definition updateLabels (lbl : string) (normalizedScore : float)
    (m : gmap string float) : gmap string float :=
  match m !! lbl with
  | Some currentScore =>
      if JS.falsy_num currentScore || JS.gt normalizedScore currentScore
      then <[lbl := normalizedScore]> m
      else m
  | None => <[lbl := normalizedScore]> m
  end.

(** The mutation of the aggregate by [handleDetectionEvent]: push, label
    update, count. *)
Definition addDetection (d : DetectionEventData) (o : FrameDetections)
  : FrameDetections :=
  let dets := detections_of o ++ [toDetection d] in
  mkFrameDetections (frameId o) dets
    (updateLabels (d_label d) (normalizeScore (d_confidence d)) (labels o))
    (length dets).

(** [handleFrameEvent] up to its [await]: returns early, parks the frame
    in [pendingFrames], or suspends at the image fetch.  A buffered
    reference always points into the store ([wellFormed] below); a dangling
    one would read as no aggregate. *)
Definition handleFrameEvent (event : FrameEventData) (st : State) : State :=
  let stream_id := f_stream_id event in
  let frame_id := f_id event in
  if JS.falsy_str stream_id || JS.falsy_str frame_id then st
  else
    match pendingDetections st !! frame_id
            ≫= (λ r, (λ o, (r, o)) <$> store st !! r) with
    | Some (r, o) =>
        if Nat.eqb (detectionCount o) 0
        then set_pendingFrames (<[frame_id := event]> (pendingFrames st)) st
        else
          set_suspended
            (suspended st
               ++ [mkSuspended event r (getTime (f_timestamp event))]) st
    | None =>
        set_pendingFrames (<[frame_id := event]> (pendingFrames st)) st
    end.

(** [imageUrl || undefined] *)
Definition orUndefined (imageUrl : option string) : option string :=
  match imageUrl with
  | Some s => if JS.falsy_str s then None else Some s
  | None => None
  end.

Definition cardOf (k : Suspended) (imageUrl : option string) : DetectionCard :=
  mkDetectionCard
    (mkFrameData (s_frameData k) (orUndefined imageUrl) (s_frameDetections k))
    (s_messageTimestamp k).

(** [existing && messageTimestamp <= existing.messageTimestamp] *)
Definition isStale (k : Suspended) (prev : gmap string DetectionCard) : bool :=
  match prev !! f_stream_id (s_frameData k) with
  | Some existing =>
      JS.time_le (s_messageTimestamp k) (messageTimestamp existing)
  | None => false
  end.

(** The rest of [handleFrameEvent], once [fetchImage] has resolved with
    [imageUrl]: the check against [knownStreamIds] and the updater passed
    to [setDetections].  The updater gets the latest slot map as [prev] and
    does all its writes (slot, buffer, seen streams, toast) in one go; it is
    run here as one step with the resumption. *)
Definition resumeFrameEvent (k : Suspended) (imageUrl : option string)
    (st : State) : State :=
  let stream_id := f_stream_id (s_frameData k) in
  let frame_id := f_id (s_frameData k) in
  let isNewStreamId := negb (bool_decide (stream_id ∈ knownStreamIds st)) in
  let prev := detections st in
  let wasStreamIdNew := negb (bool_decide (is_Some (prev !! stream_id))) in
  if isStale k prev then st
  else
    let st1 := set_detections (<[stream_id := cardOf k imageUrl]> prev) st in
    let st2 :=
      set_pendingDetections (delete frame_id (pendingDetections st1)) st1 in
    if wasStreamIdNew && isNewStreamId && alertsEnabled
    then toast ("New stream: " +:+ stream_id)
           (set_knownStreamIds ({[stream_id]} ∪ knownStreamIds st2) st2)
    else st2.

(** [handleDetectionEvent] *)
Definition handleDetectionEvent (d : DetectionEventData) (st : State) : State :=
  let frame_id := d_frame_id d in
  if JS.falsy_str frame_id then st
  else
    let '(r, st1) :=
      match pendingDetections st !! frame_id with
      | Some r => (r, st)
      | None =>
          let r := length (store st) in
          (r, set_pendingDetections (<[frame_id := r]> (pendingDetections st))
                (set_store (store st ++ [emptyFrameDetections frame_id]) st))
      end in
    let st2 := set_store (alter (addDetection d) r (store st1)) st1 in
    match pendingFrames st2 !! frame_id with
    | Some pendingFrame =>
        let st3 := handleFrameEvent pendingFrame st2 in
        set_pendingFrames (delete frame_id (pendingFrames st3)) st3
    | None => st2
    end.

(** ** eventSource.onmessage *)

(** [message.data] of a typed event. *)
Inductive EventData :=
  | DetectionPayload (d : DetectionEventData)
  | FramePayload (f : FrameEventData).

(** A parsed JSON object, as far as [onmessage] looks at it: the [type]
    and [error] properties when present (strings), and [data]. *)
Record Message := mkMessage {
  msg_type : option string;
  msg_error : option string;
  msg_data : option EventData
}.

(** [event.data] of the server-sent event. *)
Inductive Payload :=
  | NotJSON                  (* JSON.parse throws *)
  | Primitive                (* null, a number, a string, a boolean *)
  | Object (m : Message).

Definition isTruthy (s : option string) : bool :=
  match s with
  | Some x => negb (JS.falsy_str x)
  | None => false
  end.

Definition onmessage (p : Payload) (st : State) : State :=
  match p with
  | NotJSON => log ErrorParsingMessage st
  | Primitive => st
  | Object m =>
      match msg_type m with
      | None => st
      | Some type =>
          if JS.falsy_str type then st
          else if isTruthy (msg_error m) then
            let error := default "" (msg_error m) in
            set_status ("Error: " +:+ error) (log (ServerError error) st)
          else if String.eqb type "detection" then
            match msg_data m with
            | Some (DetectionPayload d) => handleDetectionEvent d st
            | Some (FramePayload _) => st
            | None => log ErrorHandlingDetectionEvent st
            end
          else if String.eqb type "frame" then
            match msg_data m with
            | Some (FramePayload f) => handleFrameEvent f st
            | Some (DetectionPayload _) => st
            | None => log ErrorHandlingFrameEvent st
            end
          else log (UnknownEventType type) st
      end
  end.

(** ** The event loop

    Messages are handled one at a time in arrival order; an image fetch
    may resolve between any two of them. *)
Inductive Event :=
  | Incoming (p : Payload)
  | ImageFetched (i : nat) (o : FetchOutcome).

Definition step (st : State) (e : Event) : State :=
  match e with
  | Incoming p => onmessage p st
  | ImageFetched i o =>
      match suspended st !! i with
      | Some k =>
          let '(imageUrl, logged) := fetchImage (f_id (s_frameData k)) o in
          let st1 := set_suspended (delete i (suspended st)) st in
          resumeFrameEvent k imageUrl (foldl (λ s e, log e s) st1 logged)
      | None => st
      end
  end.

Definition run (es : list Event) (st : State) : State := foldl step st es.

Definition detectionMessage (d : DetectionEventData) : Event :=
  Incoming (Object (mkMessage (Some "detection") None (Some (DetectionPayload d)))).

Definition frameMessage (f : FrameEventData) : Event :=
  Incoming (Object (mkMessage (Some "frame") None (Some (FramePayload f)))).

End Correlator.

(** ** A date parser for the examples

    [isoTime] reads the UTC date-time form [YYYY-MM-DDTHH:mm:ssZ] that the
    stream's timestamps use and gives NaN for any other string.  It stands
    in for [new Date(s).getTime()] in the examples only: [Date] parses more
    forms (fractional seconds, offsets, a date alone), and agrees with
    [isoTime] on the form above and on strings that are no date at all, the
    only ones the examples use.  The theorems hold for every parser. *)

Module ISO.

Definition digit (a : ascii) : option Z :=
  let n := Z.of_nat (nat_of_ascii a) in
  if ((48 <=? n) && (n <=? 57))%Z then Some (n - 48)%Z else None.

(** The number written with the [len] digits of [s] from position [pos]. *)
Fixpoint digits (s : string) (pos len : nat) (acc : Z) : option Z :=
  match len with
  | O => Some acc
  | S len' =>
      match String.get pos s ≫= digit with
      | Some d => digits s (S pos) len' (10 * acc + d)%Z
      | None => None
      end
  end.

Definition isChar (s : string) (pos : nat) (c : ascii) : bool :=
  match String.get pos s with
  | Some a => Ascii.eqb a c
  | None => false
  end.

Definition isLeap (y : Z) : bool :=
  ((y mod 4 =? 0) && (negb (y mod 100 =? 0) || (y mod 400 =? 0)))%Z.

Definition daysInMonth (y m : Z) : Z :=
  if (m =? 2)%Z then (if isLeap y then 29 else 28)%Z
  else if ((m =? 4) || (m =? 6) || (m =? 9) || (m =? 11))%Z then 30%Z
  else 31%Z.

(** Days from 1970-01-01 to the civil date [y]-[m]-[d]. *)
Definition daysFromCivil (y m d : Z) : Z :=
  let y' := (if m <=? 2 then y - 1 else y)%Z in
  let era := (y' / 400)%Z in
  let yoe := (y' - era * 400)%Z in
  let mp := (if 2 <? m then m - 3 else m + 9)%Z in
  let doy := ((153 * mp + 2) / 5 + d - 1)%Z in
  let doe := (yoe * 365 + yoe / 4 - yoe / 100 + doy)%Z in
  (era * 146097 + doe - 719468)%Z.

Definition isoTime (s : string) : JS.timeval :=
  if negb (Nat.eqb (String.length s) 20
           && isChar s 4 "-" && isChar s 7 "-" && isChar s 10 "T"
           && isChar s 13 ":" && isChar s 16 ":" && isChar s 19 "Z")
  then None
  else
    y ← digits s 0 4 0; m ← digits s 5 2 0; d ← digits s 8 2 0;
    h ← digits s 11 2 0; mi ← digits s 14 2 0; sec ← digits s 17 2 0;
    if ((1 <=? m) && (m <=? 12) && (1 <=? d) && (d <=? daysInMonth y m)
        && (h <? 24) && (mi <? 60) && (sec <? 60))%Z
    then Some ((daysFromCivil y m d * 86400 + h * 3600 + mi * 60 + sec)
               * 1000)%Z
    else None.

End ISO.

(** ** The bounding box overlay of the zoomed image *)

Module Overlay.

#[local] Open Scope float_scope.

(** The [imageScale] state. *)
Record ImageScale := mkImageScale {
  scaleX : float;
  scaleY : float;
  offsetX : float;
  offsetY : float;
  displayWidth : float;
  displayHeight : float
}.

(** The callback of [setTimeout] in the image's [onLoad]: from the natural
    size of the image and the size of its bounding client rectangle. *)
Definition computeImageScale
    (naturalWidth naturalHeight rectWidth rectHeight : float) : ImageScale :=
  let scaleX := rectWidth / naturalWidth in
  let scaleY := rectHeight / naturalHeight in
  let scale := JS.Math_min scaleX scaleY in
  let renderedWidth := naturalWidth * scale in
  let renderedHeight := naturalHeight * scale in
  let offsetX := (rectWidth - renderedWidth) / 2 in
  let offsetY := (rectHeight - renderedHeight) / 2 in
  mkImageScale scale scale offsetX offsetY renderedWidth renderedHeight.

(** The corners [scaledX1, scaledY1, scaledX2, scaledY2] of a detection's
    box in the overlay. *)
Definition scaleBoundingBox (imageScale : ImageScale) (b : bbox) : bbox :=
  let '(x1, y1, x2, y2) := b in
  (x1 * scaleX imageScale + offsetX imageScale,
   y1 * scaleY imageScale + offsetY imageScale,
   x2 * scaleX imageScale + offsetX imageScale,
   y2 * scaleY imageScale + offsetY imageScale).

(** The palette of the overlay. *)
Definition colors : list string :=
  ["#3b82f6"; "#10b981"; "#f59e0b"; "#ef4444"; "#8b5cf6"; "#ec4899"].

(** [colors[detection.class_id % colors.length]] for an integral class id:
    [%] has the sign of the dividend, and an index outside of the array
    reads [undefined]. *)
Definition boxColor (class_id : Z) : option string :=
  let colorIndex := Z.rem class_id (Z.of_nat (length colors)) in
  if (colorIndex <? 0)%Z then None else colors !! Z.to_nat colorIndex.
End Overlay.

(** ** The connection manager

    [connect], the handlers it installs on the [EventSource], the reconnect
    timer and the effect on [isLive].  A closure created during a render
    sees that render's [isLive]; the captured value is kept with each
    [EventSource] and each timer. *)

Module Connection.

Inductive ReadyState := CONNECTING | OPEN | CLOSED.

Definition isClosed (r : ReadyState) : bool :=
  match r with CLOSED => true | _ => false end.

Record EventSource := mkEventSource {
  readyState : ReadyState;
  es_isLive : bool          (* [isLive] as seen by its handlers *)
}.

(** A callback handed to [setTimeout]. *)
Record Timer := mkTimer {
  delay : Z;                (* milliseconds *)
  t_isLive : bool           (* [isLive] as seen by the callback *)
}.

Record State := mkState {
  isLive : bool;
  status : string;
  eventSourceRef : option nat;
  sources : list EventSource;
  timers : list Timer
}.

Definition set_status (x : string) (st : State) : State :=
  mkState (isLive st) x (eventSourceRef st) (sources st) (timers st).

Definition set_timers (x : list Timer) (st : State) : State :=
  mkState (isLive st) (status st) (eventSourceRef st) (sources st) x.

Definition set_isLive (x : bool) (st : State) : State :=
  mkState x (status st) (eventSourceRef st) (sources st) (timers st).

Definition close (es : EventSource) : EventSource :=
  mkEventSource CLOSED (es_isLive es).

(** [if (eventSourceRef.current) { close(); eventSourceRef.current = null }] *)
Definition closeCurrent (st : State) : State :=
  match eventSourceRef st with
  | Some i =>
      mkState (isLive st) (status st) None (alter close i (sources st))
        (timers st)
  | None => st
  end.

(** [connect], in the closure of a render whose [isLive] is [live]. *)
Definition connect (live : bool) (st : State) : State :=
  let st1 := closeCurrent (set_status "Connecting..." st) in
  if negb live then set_status "Paused" st1
  else
    mkState (isLive st1) (status st1) (Some (length (sources st1)))
      (sources st1 ++ [mkEventSource CONNECTING live]) (timers st1).

(** The callback of the reconnect timer. *)
Definition reconnect (t : Timer) (st : State) : State :=
  match eventSourceRef st ≫= (λ i, sources st !! i) with
  | Some es =>
      if isClosed (readyState es)
      then (if t_isLive t then connect (t_isLive t) st else st)
      else st
  | None => st
  end.

Inductive Event :=
  | Opened (i : nat)                (* source [i] is open: onopen *)
  | Failed (i : nat) (fatal : bool) (* source [i] fails: onerror; the browser
                                       retries unless [fatal] *)
  | TimerFired (j : nat)
  | SetLive (b : bool)              (* setIsLive(b), render, effect *)
  | Unmount.

Definition step (st : State) (e : Event) : State :=
  match e with
  | Opened i =>
      match sources st !! i with
      | Some es =>
          if isClosed (readyState es) then st
          else
            mkState (isLive st) "Connected" (eventSourceRef st)
              (<[i := mkEventSource OPEN (es_isLive es)]> (sources st))
              (timers st)
      | None => st
      end
  | Failed i fatal =>
      match sources st !! i with
      | Some es =>
          if isClosed (readyState es) then st
          else
            mkState (isLive st) "Connection error - reconnecting..."
              (eventSourceRef st)
              (<[i := mkEventSource (if fatal then CLOSED else CONNECTING)
                        (es_isLive es)]> (sources st))
              (timers st ++ [mkTimer 1000 (es_isLive es)])
      | None => st
      end
  | TimerFired j =>
      match timers st !! j with
      | Some t => reconnect t (set_timers (delete j (timers st)) st)
      | None => st
      end
  | SetLive b =>
      if Bool.eqb b (isLive st) then st
      else
        let st1 := set_isLive b (closeCurrent st) in
        if b then connect b st1
        else set_status "Paused" (closeCurrent st1)
  | Unmount => closeCurrent st
  end.

Definition run (es : list Event) (st : State) : State := foldl step st es.

(** The first render and its effect. *)
Definition mount : State :=
  connect true (mkState true "Connecting..." None [] []).

End Connection.

(** ** The alert service (iot/src/services/alertService.ts)

    The mock data section and the counters.  A string literal type is the
    string it is at run time. *)

Module AlertService.

(** [Device] (deviceService.ts) *)
Record Device := mkDevice {
  dev_id : string;
  dev_name : string;
  dev_location : string;
  dev_currentTemp : float;
  dev_status : string;
  dev_lastUpdate : string
}.

Record Alert := mkAlert {
  a_id : string;
  a_type : string;
  a_device : string;
  a_location : string;
  a_message : string;
  a_time : string;
  a_action : string
}.

Record AlertStats := mkAlertStats {
  criticalCount : nat;
  warningCount : nat;
  infoCount : nat;
  totalCount : nat
}.

Section Mock.

(** The conversion of a number to a string in a template literal. *)
Variable numberToString : float → string.

(** The callback of [devices.forEach]: what it pushes on [alerts]. *)
Definition pushAlert (alerts : list Alert) (device : Device) : list Alert :=
  if String.eqb (dev_status device) "critical" then
    alerts ++ [mkAlert (dev_id device +:+ "-critical") "critical"
                 (dev_name device) (dev_location device)
                 ("Temperature critically high at "
                    +:+ numberToString (dev_currentTemp device) +:+ "°F")
                 (dev_lastUpdate device) "Check HVAC system immediately"]
  else if String.eqb (dev_status device) "warning" then
    alerts ++ [mkAlert (dev_id device +:+ "-warning") "warning"
                 (dev_name device) (dev_location device)
                 ("Temperature elevated at "
                    +:+ numberToString (dev_currentTemp device) +:+ "°F")
                 (dev_lastUpdate device) "Monitor temperature trends"]
  else alerts.

Definition generateMockAlerts (devices : list Device) : list Alert :=
  foldl pushAlert [] devices
    ++ [mkAlert "sys-1" "info" "System" "Network"
          "All devices connected and reporting" "5 min ago"
          "No action required"].

End Mock.

Definition getMockAlertStats (alerts : list Alert) : AlertStats :=
  mkAlertStats
    (length (filter (λ a, a_type a = "critical") alerts))
    (length (filter (λ a, a_type a = "warning") alerts))
    (length (filter (λ a, a_type a = "info") alerts))
    (length alerts).

Definition getCriticalAlertsCount (alerts : list Alert) : nat :=
  length (filter (λ a, a_type a = "critical") alerts).

Definition getWarningAlertsCount (alerts : list Alert) : nat :=
  length (filter (λ a, a_type a = "warning") alerts).

End AlertService.

(** ** The alerts panel (AlertsPanel in AlertsPanel.tsx)

    The state of the component, the effect on [devices] and what is
    rendered.  [fetchAlerts] is suspended at [await generateAlerts(devices)];
    how each call settles is the input. *)

Module AlertsPanel.

Import AlertService.

(** How a call of [generateAlerts] settles. *)
Inductive Outcome :=
  | Fulfilled (alertsData : list Alert)
  | Rejected.

Record State := mkState {
  alerts : list Alert;
  loading : bool;
  inFlight : list (list Device);  (* the calls of [fetchAlerts] not yet
                                     settled, by their [devices] *)
  errors : nat                    (* calls of [console.error] *)
}.

(** [fetchAlerts] up to its [await]. *)
Definition fetchAlerts (devices : list Device) (st : State) : State :=
  mkState (alerts st) true (inFlight st ++ [devices]) (errors st).

(** The rest of [fetchAlerts]: [try], [catch], [finally]. *)
Definition resumeFetchAlerts (o : Outcome) (st : State) : State :=
  match o with
  | Fulfilled alertsData =>
      mkState alertsData false (inFlight st) (errors st)
  | Rejected => mkState (alerts st) false (inFlight st) (S (errors st))
  end.

Inductive Event :=
  | Render (devices : list Device)     (* a render with another [devices]:
                                           the effect runs *)
  | Settled (i : nat) (o : Outcome).   (* call [i] in flight settles *)

Definition step (st : State) (e : Event) : State :=
  match e with
  | Render devices => fetchAlerts devices st
  | Settled i o =>
      match inFlight st !! i with
      | Some _ =>
          resumeFetchAlerts o
            (mkState (alerts st) (loading st) (delete i (inFlight st))
               (errors st))
      | None => st
      end
  end.

Definition run (es : list Event) (st : State) : State := foldl step st es.

(** The first render and its effect. *)
Definition mount (devices : list Device) : State :=
  fetchAlerts devices (mkState [] true [] 0).

(** What the card shows. *)
Inductive View :=
  | LoadingAlerts
  | NoActiveAlerts
  | AlertList (alerts : list Alert).

Definition render (st : State) : View :=
  if loading st then LoadingAlerts
  else match alerts st with
       | [] => NoActiveAlerts
       | _ => AlertList (alerts st)
       end.

End AlertsPanel.

(** ** Sample events *)

Module Sample.

#[local] Open Scope float_scope.

Definition truck : DetectionEventData :=
  mkDetectionEventData 1 "f1" "2025-01-01T00:00:00Z" "truck" 7 0.92
    (0, 0, 10, 10).

Definition car : DetectionEventData :=
  mkDetectionEventData 2 "f1" "2025-01-01T00:00:00Z" "car" 2 87
    (100, 100, 300, 300).

Definition person (frame_id : string) : DetectionEventData :=
  mkDetectionEventData 3 frame_id "2025-01-01T00:00:00Z" "person" 0 0.5
    (5, 5, 20, 40).

Definition frameAt (frame_id timestamp : string) : FrameEventData :=
  mkFrameEventData frame_id timestamp timestamp timestamp "cam1" 30 1.

Definition f1 : FrameEventData := frameAt "f1" "2025-01-01T00:00:00Z".

Definition loaded : FetchOutcome := ReaderLoaded "data:image/jpeg;base64,AA".

(** Three timestamps: one second apart, and one that does not parse. *)
Definition second1 : string := "2025-01-01T00:00:01Z".
Definition second2 : string := "2025-01-01T00:00:02Z".
Definition garbage : string := "garbage".

(** The card of a completed sample frame: aggregate [r], parsed time [ms]. *)
Definition card (frame_id timestamp : string) (r : nat) (ms : Z) : DetectionCard :=
  mkDetectionCard
    (mkFrameData (frameAt frame_id timestamp)
       (Some "data:image/jpeg;base64,AA") r)
    (Some ms).

(** A frame completed with one detection: its events and the image. *)
Definition completed (frame_id timestamp : string) : list Event :=
  [detectionMessage (person frame_id);
   frameMessage (frameAt frame_id timestamp);
   ImageFetched 0 loaded].

(** Two devices that alert and one that does not. *)
Definition devices : list AlertService.Device :=
  [AlertService.mkDevice "RT-ATL-001" "Cooler 1" "Atlanta" 78 "critical"
     "2 min ago";
   AlertService.mkDevice "RT-ATL-002" "Cooler 2" "Atlanta" 72 "warning"
     "1 min ago";
   AlertService.mkDevice "RT-ATL-003" "Cooler 3" "Atlanta" 68 "normal"
     "1 min ago"].

End Sample.

(** ** Vocabulary of the statements *)

(** The same detection reported with another confidence. *)
Definition withConfidence (c : float) (d : DetectionEventData) : DetectionEventData :=
  mkDetectionEventData (d_id d) (d_frame_id d) (d_timestamp d) (d_label d)
    (d_class_id d) c (d_bbox d).

(** Every outcome of the image fetch but a loaded image is a failure. *)
Definition isFailure (o : FetchOutcome) : bool :=
  match o with ReaderLoaded _ => false | _ => true end.

(** A card without its image. *)
Definition dropImage (c : DetectionCard) : DetectionCard :=
  mkDetectionCard
    (mkFrameData (frame (frameData c)) None (detections_ref (frameData c)))
    (messageTimestamp c).

(** The timestamp of every frame event that the message carries parses. *)
Definition parseable (getTime : string → JS.timeval) (e : Event) : Prop :=
  match e with
  | Incoming (Object m) =>
      match msg_data m with
      | Some (FramePayload f) => is_Some (getTime (f_timestamp f))
      | _ => True
      end
  | _ => True
  end.

(** No timestamp held by the state is NaN: those of the cards, of the
    suspended completions and of the parked frames. *)
Definition timestampsParse (getTime : string → JS.timeval) (st : State) : Prop :=
  map_Forall (λ _ c, is_Some (messageTimestamp c)) (detections st)
  ∧ Forall (λ k, is_Some (s_messageTimestamp k)) (suspended st)
  ∧ map_Forall (λ _ f, is_Some (getTime (f_timestamp f))) (pendingFrames st).

(** Two states with the same slot map, buffers, store, suspended
    completions, seen streams and toasts: all but the status text and the
    console. *)
Definition sameBuffers (a b : State) : Prop :=
  detections a = detections b
  ∧ store a = store b
  ∧ pendingDetections a = pendingDetections b
  ∧ pendingFrames a = pendingFrames b
  ∧ knownStreamIds a = knownStreamIds b
  ∧ suspended a = suspended b
  ∧ toasts a = toasts b.

(** The message carries a detection of frame [frame_id]. *)
Definition carriesDetectionOf (frame_id : string) (e : Event) : Prop :=
  match e with
  | Incoming (Object m) =>
      match msg_data m with
      | Some (DetectionPayload d) => d_frame_id d = frame_id
      | _ => False
      end
  | _ => False
  end.

(** Frame [frame_id] has not been taken up: nothing is buffered for it, no
    completion of it is suspended and no slot holds it; and every parked
    frame is filed under its own id. *)
Definition untouched (frame_id : string) (st : State) : Prop :=
  pendingDetections st !! frame_id = None
  ∧ Forall (λ k, f_id (s_frameData k) ≠ frame_id) (suspended st)
  ∧ map_Forall (λ _ c, f_id (frame (frameData c)) ≠ frame_id) (detections st)
  ∧ map_Forall (λ key f, f_id f = key) (pendingFrames st).

(** The aggregate at [r] has left the pending-detections buffer. *)
Definition retired (r : nat) (st : State) : Prop :=
  r < length (store st) ∧ ∀ key, pendingDetections st !! key ≠ Some r.

(** How the references of a state hang together: a buffered aggregate is
    filed under its own frame id; a suspended completion holds the
    aggregate of its own frame; the aggregate of a slot has left the
    buffer. *)
Definition wellFormed (st : State) : Prop :=
  (∀ key r, pendingDetections st !! key = Some r →
            ∃ o, store st !! r = Some o ∧ frameId o = key)
  ∧ Forall (λ k, ∃ o, store st !! s_frameDetections k = Some o
                      ∧ frameId o = f_id (s_frameData k)) (suspended st)
  ∧ (∀ s c, detections st !! s = Some c →
            retired (detections_ref (frameData c)) st).

(** The aggregate built by the detections [ds] of a frame, in their order
    of arrival. *)
Definition aggregateOf (frame_id : string) (ds : list DetectionEventData)
  : FrameDetections :=
  foldl (λ o d, addDetection d o) (emptyFrameDetections frame_id) ds.

(** The state once the detections [ds] of a frame and its frame event [f]
    have all been delivered to [st], which had nothing buffered or parked
    for the frame: one new aggregate, buffered under the frame's id, and one
    completion suspended at the image fetch. *)
Definition correlated (getTime : string → JS.timeval) (f : FrameEventData)
    (ds : list DetectionEventData) (st : State) : State :=
  let r := length (store st) in
  mkState (status st) (detections st)
    (store st ++ [aggregateOf (f_id f) ds])
    (<[f_id f := r]> (pendingDetections st))
    (pendingFrames st) (knownStreamIds st)
    (suspended st ++ [mkSuspended f r (getTime (f_timestamp f))])
    (console st) (toasts st).

(** The aggregate buffered for a frame. *)
Definition pendingAggregate (st : State) (frame_id : string)
  : option FrameDetections :=
  pendingDetections st !! frame_id ≫= λ r, store st !! r.

(** The aggregate of the card in a stream's slot. *)
Definition slotAggregate (st : State) (stream_id : string)
  : option FrameDetections :=
  detections st !! stream_id ≫= λ c, store st !! detections_ref (frameData c).

(** Timestamps and keys are the frames' own: a suspended completion and a
    card hold the parsed timestamp of their frame, and a card sits in the
    slot of its frame's stream. *)
Definition framesOwn (getTime : string → JS.timeval) (st : State) : Prop :=
  Forall (λ k, s_messageTimestamp k = getTime (f_timestamp (s_frameData k)))
    (suspended st)
  ∧ map_Forall (λ s c, f_stream_id (frame (frameData c)) = s
                       ∧ messageTimestamp c
                         = getTime (f_timestamp (frame (frameData c))))
      (detections st).

(** A message that [onmessage] drops: malformed JSON, a keepalive, a server
    error, an unknown type, a [type] whose [data] is missing or of the other
    kind, or an event whose correlation ids are missing or empty. *)
Definition dropped (p : Payload) : bool :=
  match p with
  | NotJSON | Primitive => true
  | Object m =>
      negb (isTruthy (msg_type m))
      || isTruthy (msg_error m)
      || match msg_type m, msg_data m with
         | Some type, Some (DetectionPayload d) =>
             negb (String.eqb type "detection") || JS.falsy_str (d_frame_id d)
         | Some type, Some (FramePayload f) =>
             String.eqb type "detection" || negb (String.eqb type "frame")
             || JS.falsy_str (f_stream_id f) || JS.falsy_str (f_id f)
         | _, _ => true
         end
  end.

(** The text of the toast for a new stream. *)
Definition toastOf (stream_id : string) : string := "New stream: " +:+ stream_id.

(** What has been notified: the toasts are those of the seen streams, one
    each; with alerts enabled the seen streams are the streams that have a
    slot, and with alerts disabled there are none. *)
Definition notified (alertsEnabled : bool) (st : State) : Prop :=
  ∃ seen : list string,
    NoDup seen
    ∧ toasts st = toastOf <$> seen
    ∧ knownStreamIds st = list_to_set seen
    ∧ (if alertsEnabled then knownStreamIds st = dom (detections st)
       else seen = []).

(** The message carries the frame event of frame [frame_id]. *)
Definition carriesFrameOf (frame_id : string) (e : Event) : Prop :=
  match e with
  | Incoming (Object m) =>
      match msg_data m with
      | Some (FramePayload f) => f_id f = frame_id
      | _ => False
      end
  | _ => False
  end.

(** [r] refers to an aggregate of frame [frame_id] that holds at least one
    detection. *)
Definition aggregateFor (st : State) (frame_id : string) (r : nat) : Prop :=
  ∃ o, store st !! r = Some o ∧ frameId o = frame_id ∧ detectionCount o ≠ 0.

(** Every reference held by the state (in the buffer, by a suspended
    completion, by a card) is to a non-empty aggregate of the right frame. *)
Definition grounded (st : State) : Prop :=
  (∀ key r, pendingDetections st !! key = Some r →
            aggregateFor st key r ∧ JS.falsy_str key = false)
  ∧ Forall (λ k, aggregateFor st (f_id (s_frameData k)) (s_frameDetections k)
                 ∧ JS.falsy_str (f_id (s_frameData k)) = false
                 ∧ JS.falsy_str (f_stream_id (s_frameData k)) = false)
      (suspended st)
  ∧ (∀ s c, detections st !! s = Some c →
            aggregateFor st (f_id (frame (frameData c)))
              (detections_ref (frameData c))
            ∧ f_stream_id (frame (frameData c)) = s
            ∧ JS.falsy_str s = false
            ∧ JS.falsy_str (f_id (frame (frameData c))) = false
            ∧ imageUrl (frameData c) ≠ Some "").

(** A parked frame is filed under its own id, has both its ids, and has no
    detection buffered. *)
Definition parkedAwaiting (st : State) : Prop :=
  ∀ key f, pendingFrames st !! key = Some f →
           f_id f = key
           ∧ JS.falsy_str (f_id f) = false
           ∧ JS.falsy_str (f_stream_id f) = false
           ∧ pendingDetections st !! key = None.

(** The state of [handleDetectionEvent] once the detection is added to the
    aggregate of its frame, before the parked frame is looked up. *)
Definition afterAdd (d : DetectionEventData) (st : State) : State :=
  let frame_id := d_frame_id d in
  let '(r, st1) :=
    match pendingDetections st !! frame_id with
    | Some r => (r, st)
    | None =>
        let r := length (store st) in
        (r, set_pendingDetections (<[frame_id := r]> (pendingDetections st))
              (set_store (store st ++ [emptyFrameDetections frame_id]) st))
    end in
  set_store (alter (addDetection d) r (store st1)) st1.

(** No aggregate is removed from the store, none changes its frame, none
    that counts detections goes back to counting none. *)
Definition extends (st st' : State) : Prop :=
  ∀ r o, store st !! r = Some o →
         ∃ o', store st' !! r = Some o' ∧ frameId o' = frameId o
               ∧ (detectionCount o ≠ 0 → detectionCount o' ≠ 0).

(** The detection that a message adds to the store, if it is accepted. *)
Definition accepted (e : Event) : option Detection :=
  match e with
  | Incoming (Object m) =>
      match msg_type m, msg_data m with
      | Some type, Some (DetectionPayload d) =>
          if negb (JS.falsy_str type) && negb (isTruthy (msg_error m))
             && String.eqb type "detection" && negb (JS.falsy_str (d_frame_id d))
          then Some (toDetection d) else None
      | _, _ => None
      end
  | _ => None
  end.

(** All detections held by the store. *)
Definition storedDetections (st : State) : list Detection :=
  concat (detections_of <$> store st).

(** The aggregates that the state refers to: from the pending-detections
    buffer, from a completion suspended at the image fetch, from a card. *)
Definition liveRefs (st : State) : gset nat :=
  map_img (pendingDetections st)
  ∪ list_to_set (s_frameDetections <$> suspended st)
  ∪ map_img ((λ c, detections_ref (frameData c)) <$> detections st).

(** The detections of these aggregates, each aggregate once. *)
Definition liveDetections (st : State) : list Detection :=
  elements (liveRefs st)
    ≫= λ r, from_option detections_of [] (store st !! r).

(** The label map summarizes the detections: the count is their number, the
    labels are theirs, and each score is the normalized confidence of one of
    the label's detections. *)
Definition summarized (o : FrameDetections) : Prop :=
  detectionCount o = length (detections_of o)
  ∧ (∀ l, is_Some (labels o !! l) ↔ ∃ x, x ∈ detections_of o ∧ label x = l)
  ∧ (∀ l s, labels o !! l = Some s →
            ∃ x, x ∈ detections_of o ∧ label x = l
                 ∧ normalizeScore (confidence x) = s).

(** Each score is positive and no detection of its label has a greater
    normalized confidence. *)
Definition highest (o : FrameDetections) : Prop :=
  ∀ l s, labels o !! l = Some s →
         JS.gt s 0%float = true
         ∧ ∀ x, x ∈ detections_of o → label x = l →
                JS.gt (normalizeScore (confidence x)) s = false.

(** The normalized confidence of every detection that the message carries is
    a positive number. *)
Definition positive (e : Event) : Prop :=
  match e with
  | Incoming (Object m) =>
      match msg_data m with
      | Some (DetectionPayload d) =>
          JS.gt (normalizeScore (d_confidence d)) 0%float = true
      | _ => True
      end
  | _ => True
  end.

(** The manager holds a current connection whose readyState is CLOSED. *)
Definition currentClosed (st : Connection.State) : bool :=
  match Connection.eventSourceRef st ≫= (λ i, Connection.sources st !! i) with
  | Some es => Connection.isClosed (Connection.readyState es)
  | None => false
  end.

(** The current connection exists; every other connection is closed; every
    handler and timer callback was created by a live render; while the
    manager is not live it holds no connection. *)
Definition managed (st : Connection.State) : Prop :=
  (∀ i, Connection.eventSourceRef st = Some i →
        i < length (Connection.sources st))
  ∧ (∀ i es, Connection.sources st !! i = Some es →
             Connection.eventSourceRef st ≠ Some i →
             Connection.readyState es = Connection.CLOSED)
  ∧ Forall (λ es, Connection.es_isLive es = true) (Connection.sources st)
  ∧ Forall (λ t, Connection.t_isLive t = true ∧ Connection.delay t = 1000%Z)
      (Connection.timers st)
  ∧ (Connection.isLive st = false → Connection.eventSourceRef st = None).

(** A device that gets an alert. *)
Definition alerting (d : AlertService.Device) : Prop :=
  AlertService.dev_status d = "critical" ∨ AlertService.dev_status d = "warning".

(** The last character of a string. *)
Fixpoint lastChar (s : string) : option ascii :=
  match s with
  | EmptyString => None
  | String a EmptyString => Some a
  | String _ s' => lastChar s'
  end.

(** The number of devices with a status. *)
Definition withStatus (status : string) (devices : list AlertService.Device)
  : nat :=
  length (filter (λ d, AlertService.dev_status d = status) devices).

(** Mock mode: a call of [generateAlerts] that settles is fulfilled with the
    mock alerts of some devices. *)
Definition mockMode (numberToString : float → string)
    (e : AlertsPanel.Event) : Prop :=
  match e with
  | AlertsPanel.Settled _ (AlertsPanel.Fulfilled alertsData) =>
      ∃ devices,
        alertsData = AlertService.generateMockAlerts numberToString devices
  | AlertsPanel.Settled _ AlertsPanel.Rejected => False
  | AlertsPanel.Render _ => True
  end.

(** * Properties *)

(** ** Confidence normalization and the label map *)

Section Labels.

Variable getTime : string → JS.timeval.

#[local] Open Scope float_scope.

Lemma handleFrameEvent_store (f : FrameEventData) (st : State) :
  store (handleFrameEvent getTime f st) = store st.
Proof. unfold handleFrameEvent. repeat case_match; reflexivity. Qed.

Lemma handleFrameEvent_pendingFrames_only (f : FrameEventData) (st : State) :
  detections (handleFrameEvent getTime f st) = detections st
  ∧ pendingDetections (handleFrameEvent getTime f st) = pendingDetections st
  ∧ status (handleFrameEvent getTime f st) = status st
  ∧ knownStreamIds (handleFrameEvent getTime f st) = knownStreamIds st
  ∧ console (handleFrameEvent getTime f st) = console st
  ∧ toasts (handleFrameEvent getTime f st) = toasts st.
Proof. unfold handleFrameEvent. repeat case_match; repeat split. Qed.

(** The store after [handleDetectionEvent]: the aggregate buffered for the
    frame, or a new one at the end of the store, gets the detection. *)
Lemma handleDetectionEvent_store (d : DetectionEventData) (st : State) :
  store (handleDetectionEvent getTime d st) =
    if JS.falsy_str (d_frame_id d) then store st
    else match pendingDetections st !! d_frame_id d with
         | Some r => alter (addDetection d) r (store st)
         | None =>
             alter (addDetection d) (length (store st))
               (store st ++ [emptyFrameDetections (d_frame_id d)])
         end.
Proof.
  unfold handleDetectionEvent.
  destruct (JS.falsy_str (d_frame_id d)); [reflexivity|].
  destruct (pendingDetections st !! d_frame_id d) as [r|]; simpl;
    case_match; simpl; rewrite ?handleFrameEvent_store; reflexivity.
Qed.

Lemma addDetection_labels (d : DetectionEventData) (o : FrameDetections) :
  labels (addDetection d o) =
    updateLabels (d_label d) (normalizeScore (d_confidence d)) (labels o).
Proof. reflexivity. Qed.

(** In binary64, 87 / 100 is the double written 0.87. *)
Lemma normalizeScore_percent : normalizeScore 87 = 0.87.
Proof. reflexivity. Qed.

Lemma normalizeScore_fraction : normalizeScore 0.87 = 0.87.
Proof. reflexivity. Qed.

End Labels.

(** ** The overlay transform *)

Section OverlayFacts.

Import Overlay.
#[local] Open Scope float_scope.

(** C8: the overlay uses the uniform scale
    min(displayWidth / naturalWidth, displayHeight / naturalHeight) and the
    centering offsets (display - rendered) / 2, and each corner of a box
    becomes raw * scale + offset.  A 1920 x 1080 image shown in 960 x 600
    (bars above and below) has scale 0.5 and offsets (0, 30), and the box
    [100,100,300,300] becomes [50,50,150,150] moved by that offset; shown
    in 1200 x 540 (bars left and right) the offsets are (120, 0). *)
Theorem overlay_transform
    (naturalWidth naturalHeight displayWidth displayHeight : float)
    (x1 y1 x2 y2 : float) :
  let s := computeImageScale naturalWidth naturalHeight
             displayWidth displayHeight in
  let scale := JS.Math_min (displayWidth / naturalWidth)
                 (displayHeight / naturalHeight) in
  (scaleX s = scale ∧ scaleY s = scale
   ∧ offsetX s = (displayWidth - naturalWidth * scale) / 2
   ∧ offsetY s = (displayHeight - naturalHeight * scale) / 2
   ∧ scaleBoundingBox s (x1, y1, x2, y2)
     = (x1 * scale + offsetX s, y1 * scale + offsetY s,
        x2 * scale + offsetX s, y2 * scale + offsetY s))
  ∧ (let tall := computeImageScale 1920 1080 960 600 in
     JS.Math_min (960 / 1920) (600 / 1080) = 0.5
     ∧ scaleX tall = 0.5 ∧ scaleY tall = 0.5
     ∧ offsetX tall = 0 ∧ offsetY tall = 30
     ∧ scaleBoundingBox tall (100, 100, 300, 300)
       = (50 + 0, 50 + 30, 150 + 0, 150 + 30))
  ∧ (let wide := computeImageScale 1920 1080 1200 540 in
     scaleX wide = 0.5 ∧ offsetX wide = 120 ∧ offsetY wide = 0
     ∧ scaleBoundingBox wide (100, 100, 300, 300)
       = (50 + 120, 50 + 0, 150 + 120, 150 + 0)).
Proof. repeat split. Qed.

End OverlayFacts.

(** ** The slot map: completion, image failure, staleness *)

Section Slots.

Variable getTime : string → JS.timeval.
Variable alertsEnabled : bool.

#[local] Abbreviation handleFrameEvent := (handleFrameEvent getTime).
#[local] Abbreviation handleDetectionEvent := (handleDetectionEvent getTime).
#[local] Abbreviation resumeFrameEvent := (resumeFrameEvent alertsEnabled).
#[local] Abbreviation onmessage := (onmessage getTime).
#[local] Abbreviation step := (step getTime alertsEnabled).
#[local] Abbreviation run := (run getTime alertsEnabled).

(** What [resumeFrameEvent] writes: the slot and the buffered aggregate's
    entry, both only when the frame is not stale. *)
Lemma resumeFrameEvent_fields (k : Suspended) (img : option string) (st : State) :
  let st' := resumeFrameEvent k img st in
  let stale := isStale k (detections st) in
  detections st' =
    (if stale then detections st
     else <[f_stream_id (s_frameData k) := cardOf k img]> (detections st))
  ∧ pendingDetections st' =
    (if stale then pendingDetections st
     else delete (f_id (s_frameData k)) (pendingDetections st))
  ∧ store st' = store st
  ∧ pendingFrames st' = pendingFrames st
  ∧ suspended st' = suspended st
  ∧ status st' = status st
  ∧ console st' = console st.
Proof.
  unfold resumeFrameEvent. simpl.
  destruct (isStale k (detections st)); [repeat split|].
  case_match; repeat split.
Qed.

Lemma resumeFrameEvent_stale (k : Suspended) (img : option string) (st : State) :
  isStale k (detections st) = true → resumeFrameEvent k img st = st.
Proof. intros H. unfold resumeFrameEvent. rewrite H. reflexivity. Qed.

Lemma resumeFrameEvent_slot (k : Suspended) (img : option string) (st : State) :
  isStale k (detections st) = false →
  detections (resumeFrameEvent k img st) !! f_stream_id (s_frameData k)
  = Some (cardOf k img).
Proof.
  intros H. destruct (resumeFrameEvent_fields k img st) as [-> _].
  rewrite H. apply lookup_insert_eq.
Qed.

(** The updater does not look at the image or at the console. *)
Lemma resumeFrameEvent_irrelevant (k : Suspended) (img img' : option string)
    (e : LogEntry) (st : State) :
  let a := resumeFrameEvent k img (log e st) in
  let b := resumeFrameEvent k img' st in
  dropImage <$> detections a = dropImage <$> detections b
  ∧ pendingDetections a = pendingDetections b
  ∧ store a = store b
  ∧ pendingFrames a = pendingFrames b
  ∧ suspended a = suspended b
  ∧ knownStreamIds a = knownStreamIds b
  ∧ toasts a = toasts b
  ∧ status a = status b.
Proof.
  unfold resumeFrameEvent. simpl.
  destruct (isStale k (detections st)); [repeat split|].
  case_match; repeat split; simpl; rewrite !fmap_insert; reflexivity.
Qed.

(** A frame whose aggregate is buffered and not empty suspends at the
    image fetch. *)
Lemma handleFrameEvent_suspends (f : FrameEventData) (r : nat)
    (o : FrameDetections) (st : State) :
  JS.falsy_str (f_stream_id f) = false →
  JS.falsy_str (f_id f) = false →
  pendingDetections st !! f_id f = Some r →
  store st !! r = Some o →
  detectionCount o ≠ 0 →
  handleFrameEvent f st
  = set_suspended
      (suspended st ++ [mkSuspended f r (getTime (f_timestamp f))]) st.
Proof.
  intros Hs Hf Hr Ho Hc. unfold handleFrameEvent.
  rewrite Hs, Hf, Hr. simpl. rewrite Ho. simpl.
  destruct (detectionCount o); [congruence|reflexivity].
Qed.

Lemma step_frameMessage (f : FrameEventData) (st : State) :
  step st (frameMessage f) = handleFrameEvent f st.
Proof. reflexivity. Qed.

Lemma step_detectionMessage (d : DetectionEventData) (st : State) :
  step st (detectionMessage d) = handleDetectionEvent d st.
Proof. reflexivity. Qed.

Lemma step_ImageFetched (i : nat) (o : FetchOutcome) (k : Suspended) (st : State) :
  suspended st !! i = Some k →
  step st (ImageFetched i o)
  = resumeFrameEvent k (fetchImage (f_id (s_frameData k)) o).1
      (foldl (λ s e, log e s) (set_suspended (delete i (suspended st)) st)
         (fetchImage (f_id (s_frameData k)) o).2).
Proof.
  intros H. unfold step. rewrite H.
  destruct (fetchImage (f_id (s_frameData k)) o); reflexivity.
Qed.

(** C7: when the image fetch of a completing frame fails (the fetch or the
    blob read rejects, the response is not ok, or the reader reports an
    error), the failure is logged and the frame is completed all the same:
    unless it is stale, it is stored in its stream's slot with no image and
    with its own detections.  Compared with a successful fetch, nothing but
    the image and the console differs. *)
Theorem image_failure_degrades
    (st : State) (i : nat) (k : Suspended) (o : FetchOutcome) (url : string) :
  suspended st !! i = Some k →
  isFailure o = true →
  let failed := step st (ImageFetched i o) in
  let ok := step st (ImageFetched i (ReaderLoaded url)) in
  (fetchImage (f_id (s_frameData k)) o).1 = None
  ∧ (∃ e, console failed = console st ++ [e])
  ∧ (isStale k (detections st) = false →
     detections failed !! f_stream_id (s_frameData k)
     = Some (mkDetectionCard
               (mkFrameData (s_frameData k) None (s_frameDetections k))
               (s_messageTimestamp k)))
  ∧ dropImage <$> detections failed = dropImage <$> detections ok
  ∧ pendingDetections failed = pendingDetections ok
  ∧ store failed = store ok
  ∧ pendingFrames failed = pendingFrames ok
  ∧ suspended failed = suspended ok
  ∧ knownStreamIds failed = knownStreamIds ok
  ∧ toasts failed = toasts ok
  ∧ status failed = status ok.
Proof.
  intros Hk Hfail failed ok. subst failed ok.
  rewrite !(step_ImageFetched _ _ k) by exact Hk.
  set (st1 := set_suspended (delete i (suspended st)) st).
  assert (Hshape : ∃ e, fetchImage (f_id (s_frameData k)) o = (None, [e])).
  { destruct o; simpl in *; eauto; discriminate. }
  destruct Hshape as [e ->]. cbn [fst snd foldl fetchImage].
  split; [reflexivity|].
  split.
  { exists e.
    destruct (resumeFrameEvent_fields k None (log e st1))
      as (_ & _ & _ & _ & _ & _ & ->).
    reflexivity. }
  split.
  { intros Hfresh.
    apply (resumeFrameEvent_slot k None (log e st1)). exact Hfresh. }
  apply (resumeFrameEvent_irrelevant k None (Some url) e st1).
Qed.

(** *** Staleness *)

Lemma set_suspended_restore (x : list Suspended) (st : State) :
  set_suspended (suspended st) (set_suspended x st) = st.
Proof. destruct st; reflexivity. Qed.

Lemma time_le_refl_Some (t : JS.timeval) :
  is_Some t → JS.time_le t t = true.
Proof. intros [x ->]. simpl. apply Z.leb_refl. Qed.

Lemma time_le_total (a b : JS.timeval) :
  is_Some a → is_Some b → JS.time_le a b = false → JS.time_le b a = true.
Proof. intros [x ->] [y ->]. simpl. lia. Qed.

Lemma time_le_spec (a b : JS.timeval) :
  JS.time_le a b = true ↔ ∃ x y, a = Some x ∧ b = Some y ∧ (x ≤ y)%Z.
Proof.
  destruct a as [x|], b as [y|]; simpl; split;
    try (intros (? & ? & ? & ? & ?)); try discriminate.
  - intros H. exists x, y. repeat split. lia.
  - simplify_eq. lia.
Qed.

(** A NaN on either side of the comparison makes the frame fresh. *)
Lemma isStale_NaN (k : Suspended) (prev : gmap string DetectionCard) :
  s_messageTimestamp k = None
  ∨ (∃ c, prev !! f_stream_id (s_frameData k) = Some c
          ∧ messageTimestamp c = None) →
  isStale k prev = false.
Proof.
  unfold isStale. intros [H|(c & -> & H)].
  - rewrite H. case_match; reflexivity.
  - rewrite H. destruct (s_messageTimestamp k); reflexivity.
Qed.

(** C10: the staleness check is a [<=] on parsed timestamps, and every
    comparison with NaN is false.  So a frame with buffered detections
    whose timestamp does not parse, once its image fetch has resolved,
    replaces its stream's slot whatever the slot holds; and any completed
    frame replaces a slot whose stored timestamp is NaN.  Hence, after a
    frame with a timestamp that does not parse, a frame older than the
    one stored before takes the slot: the order of the timestamps is kept
    only between frames whose timestamps parse. *)
Theorem unparseable_timestamp_bypasses_staleness
    (st : State) (f : FrameEventData) (r : nat) (o : FrameDetections)
    (out : FetchOutcome) :
  JS.falsy_str (f_stream_id f) = false →
  JS.falsy_str (f_id f) = false →
  pendingDetections st !! f_id f = Some r →
  store st !! r = Some o →
  detectionCount o ≠ 0 →
  let st' := run [frameMessage f; ImageFetched (length (suspended st)) out] st in
  let card :=
    mkDetectionCard
      (mkFrameData f (orUndefined (fetchImage (f_id f) out).1) r)
      (getTime (f_timestamp f)) in
  (getTime (f_timestamp f) = None →
   detections st' !! f_stream_id f = Some card)
  ∧ (∀ c, detections st !! f_stream_id f = Some c →
          messageTimestamp c = None →
          detections st' !! f_stream_id f = Some card)
  ∧ (∀ older unparsed newer img1 img2 img3 t0 t1,
       f_stream_id (s_frameData unparsed) = f_stream_id (s_frameData older) →
       f_stream_id (s_frameData newer) = f_stream_id (s_frameData older) →
       detections st !! f_stream_id (s_frameData older) = None →
       s_messageTimestamp older = Some t0 →
       s_messageTimestamp unparsed = None →
       s_messageTimestamp newer = Some t1 →
       (t1 < t0)%Z →
       let st1 := resumeFrameEvent older img1 st in
       let st3 := resumeFrameEvent newer img3
                    (resumeFrameEvent unparsed img2 st1) in
       messageTimestamp <$> detections st1 !! f_stream_id (s_frameData older)
       = Some (Some t0)
       ∧ messageTimestamp <$> detections st3 !! f_stream_id (s_frameData older)
         = Some (Some t1)).
Proof.
  intros Hs Hf Hr Ho Hc st' card.
  set (k := mkSuspended f r (getTime (f_timestamp f))).
  assert (Hst' : st' = resumeFrameEvent k (fetchImage (f_id f) out).1
                   (foldl (λ s e, log e s) st (fetchImage (f_id f) out).2)).
  { subst st'. unfold run. cbn [foldl].
    rewrite step_frameMessage.
    rewrite (handleFrameEvent_suspends f r o st Hs Hf Hr Ho Hc).
    rewrite (step_ImageFetched _ _ k); cbn [suspended set_suspended].
    2: { apply list_lookup_middle. reflexivity. }
    f_equal. f_equal.
    rewrite delete_middle, app_nil_r. apply set_suspended_restore. }
  assert (Hdet : ∀ l s0, detections (foldl (λ s e, log e s) s0 l) = detections s0).
  { induction l as [|e l IH]; intros s0; [reflexivity|].
    simpl. rewrite IH. reflexivity. }
  split; [|split].
  - intros Hnan. rewrite Hst'.
    apply (resumeFrameEvent_slot k). apply isStale_NaN. left. exact Hnan.
  - intros c Hslot Hnan. rewrite Hst'.
    apply (resumeFrameEvent_slot k). apply isStale_NaN. right.
    exists c. rewrite Hdet. split; assumption.
  - intros older unparsed newer img1 img2 img3 t0 t1 Hu Hn Hnone Ht0 Hnan Ht1 Hlt
      st1 st3.
    assert (H1 : isStale older (detections st) = false).
    { unfold isStale. rewrite Hnone. reflexivity. }
    split.
    + subst st1. rewrite (resumeFrameEvent_slot _ _ _ H1). simpl.
      rewrite Ht0. reflexivity.
    + subst st3. rewrite <- Hn.
      rewrite resumeFrameEvent_slot; [simpl; rewrite Ht1; reflexivity|].
      apply isStale_NaN. right.
      exists (cardOf unparsed img2). split; [|exact Hnan].
      rewrite Hn, <- Hu. apply resumeFrameEvent_slot.
      apply isStale_NaN. left. exact Hnan.
Qed.

(** *** Monotonicity between frames whose timestamps parse *)

Lemma handleDetectionEvent_frame (d : DetectionEventData) (st : State) :
  detections (handleDetectionEvent d st) = detections st
  ∧ status (handleDetectionEvent d st) = status st
  ∧ console (handleDetectionEvent d st) = console st
  ∧ knownStreamIds (handleDetectionEvent d st) = knownStreamIds st
  ∧ toasts (handleDetectionEvent d st) = toasts st.
Proof.
  unfold handleDetectionEvent.
  destruct (JS.falsy_str (d_frame_id d)); [repeat split|].
  destruct (pendingDetections st !! d_frame_id d); simpl;
    (case_match; simpl; [|repeat split]);
    match goal with
    | |- context [handleFrameEvent ?f ?s] =>
        destruct (handleFrameEvent_pendingFrames_only getTime f s)
          as (-> & _ & -> & -> & -> & ->)
    end; repeat split.
Qed.

Lemma onmessage_detections (p : Payload) (st : State) :
  detections (onmessage p st) = detections st.
Proof.
  unfold onmessage.
  repeat case_match; try reflexivity.
  - apply handleDetectionEvent_frame.
  - apply (handleFrameEvent_pendingFrames_only getTime).
Qed.

Lemma handleFrameEvent_parse (f : FrameEventData) (st : State) :
  is_Some (getTime (f_timestamp f)) →
  timestampsParse getTime st →
  timestampsParse getTime (handleFrameEvent f st).
Proof.
  intros Hf (Hd & Hs & Hp). unfold handleFrameEvent.
  repeat case_match; unfold timestampsParse; simpl;
    repeat split; try assumption.
  - apply map_Forall_insert_2; assumption.
  - apply Forall_app_2; [assumption|]. constructor; [exact Hf|constructor].
  - apply map_Forall_insert_2; assumption.
Qed.

Lemma handleDetectionEvent_parse (d : DetectionEventData) (st : State) :
  timestampsParse getTime st →
  timestampsParse getTime (handleDetectionEvent d st).
Proof.
  intros Hst. unfold handleDetectionEvent.
  destruct (JS.falsy_str (d_frame_id d)); [exact Hst|].
  set (pair := match pendingDetections st !! d_frame_id d with
               | Some r => _ | None => _ end).
  assert (Hpair : timestampsParse getTime pair.2
                  ∧ pendingFrames pair.2 = pendingFrames st).
  { subst pair. destruct (pendingDetections st !! d_frame_id d);
      split; try reflexivity; exact Hst. }
  destruct pair as [r st1]. simpl in Hpair. destruct Hpair as [H1 Hpf].
  set (st2 := set_store _ st1).
  assert (H2 : timestampsParse getTime st2) by exact H1.
  destruct (pendingFrames st2 !! d_frame_id d) as [pf|] eqn:Hlook;
    [|exact H2].
  assert (Hpfok : is_Some (getTime (f_timestamp pf))).
  { destruct H2 as (_ & _ & Hp). exact (Hp _ _ Hlook). }
  destruct (handleFrameEvent_parse pf st2 Hpfok H2) as (Hd & Hs & Hp).
  repeat split; simpl; try assumption.
  apply map_Forall_delete. exact Hp.
Qed.

Lemma onmessage_parse (p : Payload) (st : State) :
  parseable getTime (Incoming p) →
  timestampsParse getTime st →
  timestampsParse getTime (onmessage p st).
Proof.
  intros Hp Hst. unfold onmessage.
  repeat case_match; try exact Hst.
  - apply handleDetectionEvent_parse. exact Hst.
  - apply handleFrameEvent_parse; [|exact Hst].
    simpl in Hp. simplify_eq. destruct (msg_data _) as [[]|]; simplify_eq.
    exact Hp.
Qed.

Lemma resumeFrameEvent_parse (k : Suspended) (img : option string) (st : State) :
  is_Some (s_messageTimestamp k) →
  timestampsParse getTime st →
  timestampsParse getTime (resumeFrameEvent k img st).
Proof.
  intros Hk (Hd & Hs & Hp).
  destruct (resumeFrameEvent_fields k img st)
    as (Ed & _ & _ & Ep & Es & _).
  unfold timestampsParse. rewrite Ed, Ep, Es.
  repeat split; try assumption.
  destruct (isStale k (detections st)); [assumption|].
  apply map_Forall_insert_2; assumption.
Qed.

Lemma logged_frame (l : list LogEntry) (st : State) :
  let st' := foldl (λ s e, log e s) st l in
  detections st' = detections st ∧ suspended st' = suspended st
  ∧ pendingFrames st' = pendingFrames st
  ∧ pendingDetections st' = pendingDetections st
  ∧ store st' = store st.
Proof.
  revert st. induction l as [|e l IH]; intros st; [repeat split|].
  simpl. destruct (IH (log e st)) as (-> & -> & -> & -> & ->).
  repeat split.
Qed.

Lemma step_parse (e : Event) (st : State) :
  parseable getTime e →
  timestampsParse getTime st →
  timestampsParse getTime (step st e).
Proof.
  intros He Hst. destruct e as [p|i o].
  - apply onmessage_parse; assumption.
  - destruct (suspended st !! i) as [k|] eqn:Hk.
    2: { unfold step. rewrite Hk. exact Hst. }
    rewrite (step_ImageFetched _ _ k _ Hk).
    destruct Hst as (Hd & Hs & Hp).
    apply resumeFrameEvent_parse.
    + exact (Forall_lookup_1 _ _ _ _ Hs Hk).
    + destruct (logged_frame (fetchImage (f_id (s_frameData k)) o).2
                  (set_suspended (delete i (suspended st)) st))
        as (Ed & Es & Ep & _).
      unfold timestampsParse. rewrite Ed, Es, Ep. simpl.
      repeat split; try assumption. apply Forall_delete. exact Hs.
Qed.

(** One step never lowers the timestamp of a slot. *)
Lemma step_slot_monotone (e : Event) (st : State) (s : string)
    (c1 : DetectionCard) :
  timestampsParse getTime st →
  detections st !! s = Some c1 →
  ∃ c2, detections (step st e) !! s = Some c2
        ∧ JS.time_le (messageTimestamp c1) (messageTimestamp c2) = true.
Proof.
  intros (Hd & Hs & Hp) Hc1.
  assert (Hsame : JS.time_le (messageTimestamp c1) (messageTimestamp c1) = true).
  { apply time_le_refl_Some. exact (Hd _ _ Hc1). }
  destruct e as [p|i o].
  - exists c1. simpl. rewrite onmessage_detections. split; assumption.
  - destruct (suspended st !! i) as [k|] eqn:Hk.
    2: { exists c1. unfold step. rewrite Hk. split; assumption. }
    rewrite (step_ImageFetched _ _ k _ Hk).
    set (st1 := foldl _ _ _).
    assert (Ed : detections st1 = detections st).
    { subst st1.
      destruct (logged_frame (fetchImage (f_id (s_frameData k)) o).2
                  (set_suspended (delete i (suspended st)) st)) as (E & _).
      exact E. }
    destruct (resumeFrameEvent_fields k
                (fetchImage (f_id (s_frameData k)) o).1 st1) as (-> & _).
    rewrite Ed.
    destruct (isStale k (detections st)) eqn:Hstale;
      [exists c1; split; assumption|].
    destruct (decide (f_stream_id (s_frameData k) = s)) as [<-|Hne].
    + eexists. rewrite lookup_insert_eq. split; [reflexivity|].
      simpl. unfold isStale in Hstale. rewrite Hc1 in Hstale.
      apply time_le_total; [|exact (Hd _ _ Hc1)|exact Hstale].
      exact (Forall_lookup_1 _ _ _ _ Hs Hk).
    + exists c1. rewrite lookup_insert_ne by exact Hne. split; assumption.
Qed.

Lemma run_parse (es : list Event) (st : State) :
  Forall (parseable getTime) es →
  timestampsParse getTime st →
  timestampsParse getTime (run es st).
Proof.
  intros Hes. revert st. induction Hes as [|e es He _ IH]; intros st Hst;
    [exact Hst|].
  apply IH. apply step_parse; assumption.
Qed.

Lemma run_slot_monotone (es : list Event) (st : State) (s : string)
    (c1 : DetectionCard) :
  Forall (parseable getTime) es →
  timestampsParse getTime st →
  detections st !! s = Some c1 →
  ∃ c2, detections (run es st) !! s = Some c2
        ∧ JS.time_le (messageTimestamp c1) (messageTimestamp c2) = true.
Proof.
  intros Hes. revert st c1.
  induction Hes as [|e es He _ IH]; intros st c1 Hst Hc1.
  - exists c1. split; [exact Hc1|].
    apply time_le_refl_Some. destruct Hst as (Hd & _). exact (Hd _ _ Hc1).
  - destruct (step_slot_monotone e st s c1 Hst Hc1) as (c & Hc & Hle).
    destruct (IH (step st e) c (step_parse e st He Hst) Hc) as (c2 & Hc2 & Hle2).
    exists c2. split; [exact Hc2|].
    apply time_le_spec in Hle as (x & y & Hx & Hy & Hxy).
    apply time_le_spec in Hle2 as (y' & z & Hy' & Hz & Hyz).
    apply time_le_spec. exists x, z. repeat split; try assumption.
    rewrite Hy in Hy'. simplify_eq. lia.
Qed.

Lemma run_app (es1 es2 : list Event) (st : State) :
  run (es1 ++ es2) st = run es2 (run es1 st).
Proof. apply foldl_app. Qed.

Lemma timestampsParse_init : timestampsParse getTime init.
Proof.
  repeat split; simpl;
    [apply map_Forall_empty|constructor|apply map_Forall_empty].
Qed.

(** C2, in the form that holds of the code: between frames whose timestamps
    parse, the slot of a stream never goes back in time. (1) Along any run
    from the initial state in which every frame event's timestamp parses,
    the timestamp stored for a stream is at least the one stored there
    before. (2) A completed frame whose timestamp is a number less than or
    equal to the number stored in its stream's slot is discarded without a
    trace: the slot map, the buffers and the status stay as they are, and
    nothing is logged for the discard. (3) Two completed frames of one
    stream with timestamps T1 < T2, applied in either order to a state where
    the second is not stale, leave the slot with the second frame's data. *)
Theorem slot_timestamp_monotone :
  (∀ (es1 es2 : list Event) (s : string) (c1 : DetectionCard),
     Forall (parseable getTime) (es1 ++ es2) →
     detections (run es1 init) !! s = Some c1 →
     ∃ c2 t1 t2,
       detections (run (es1 ++ es2) init) !! s = Some c2
       ∧ messageTimestamp c1 = Some t1
       ∧ messageTimestamp c2 = Some t2
       ∧ (t1 ≤ t2)%Z)
  ∧ (∀ (st : State) (i : nat) (k : Suspended) (o : FetchOutcome)
       (c : DetectionCard) (t t0 : Z),
       suspended st !! i = Some k →
       detections st !! f_stream_id (s_frameData k) = Some c →
       s_messageTimestamp k = Some t →
       messageTimestamp c = Some t0 →
       (t ≤ t0)%Z →
       let st' := step st (ImageFetched i o) in
       detections st' = detections st
       ∧ pendingDetections st' = pendingDetections st
       ∧ pendingFrames st' = pendingFrames st
       ∧ store st' = store st
       ∧ status st' = status st
       ∧ toasts st' = toasts st
       ∧ console st' = console st ++ (fetchImage (f_id (s_frameData k)) o).2)
  ∧ (∀ (st : State) (k1 k2 : Suspended) (img1 img2 : option string)
       (T1 T2 : Z),
       f_stream_id (s_frameData k1) = f_stream_id (s_frameData k2) →
       s_messageTimestamp k1 = Some T1 →
       s_messageTimestamp k2 = Some T2 →
       (T1 < T2)%Z →
       isStale k2 (detections st) = false →
       detections (resumeFrameEvent k2 img2 (resumeFrameEvent k1 img1 st))
         !! f_stream_id (s_frameData k2) = Some (cardOf k2 img2)
       ∧ detections (resumeFrameEvent k1 img1 (resumeFrameEvent k2 img2 st))
           !! f_stream_id (s_frameData k2) = Some (cardOf k2 img2)).
Proof.
  split; [|split].
  - intros es1 es2 s c1 Hes Hc1.
    apply Forall_app in Hes as [Hes1 Hes2].
    rewrite run_app.
    destruct (run_slot_monotone es2 (run es1 init) s c1 Hes2
                (run_parse es1 init Hes1 timestampsParse_init) Hc1)
      as (c2 & Hc2 & Hle).
    apply time_le_spec in Hle as (t1 & t2 & H1 & H2 & Hle).
    exists c2, t1, t2. repeat split; assumption.
  - intros st i k o c t t0 Hk Hc Ht Ht0 Hle st'. subst st'.
    rewrite (step_ImageFetched _ _ k _ Hk).
    set (logged := (fetchImage (f_id (s_frameData k)) o).2).
    set (st1 := foldl _ _ logged).
    assert (E : detections st1 = detections st
                ∧ pendingDetections st1 = pendingDetections st
                ∧ pendingFrames st1 = pendingFrames st
                ∧ store st1 = store st
                ∧ status st1 = status st
                ∧ toasts st1 = toasts st
                ∧ console st1 = console st ++ logged).
    { subst st1.
      assert (G : ∀ l s0,
                 let s' := foldl (λ s e, log e s) s0 l in
                 detections s' = detections s0
                 ∧ pendingDetections s' = pendingDetections s0
                 ∧ pendingFrames s' = pendingFrames s0
                 ∧ store s' = store s0
                 ∧ status s' = status s0
                 ∧ toasts s' = toasts s0
                 ∧ console s' = console s0 ++ l).
      { induction l as [|e l IH]; intros s0; simpl.
        - rewrite app_nil_r. repeat split.
        - destruct (IH (log e s0)) as (-> & -> & -> & -> & -> & -> & ->).
          simpl. rewrite <- app_assoc. repeat split. }
      exact (G logged (set_suspended (delete i (suspended st)) st)). }
    rewrite resumeFrameEvent_stale; [exact E|].
    destruct E as (-> & _). unfold isStale. rewrite Hc, Ht, Ht0. simpl. lia.
  - intros st k1 k2 img1 img2 T1 T2 Hs H1 H2 Hlt Hfresh. split.
    + apply resumeFrameEvent_slot.
      destruct (resumeFrameEvent_fields k1 img1 st) as (-> & _).
      destruct (isStale k1 (detections st)); [exact Hfresh|].
      unfold isStale. rewrite <- Hs, lookup_insert_eq. simpl.
      rewrite H1, H2. simpl. lia.
    + rewrite resumeFrameEvent_stale; [apply resumeFrameEvent_slot, Hfresh|].
      unfold isStale. rewrite Hs, resumeFrameEvent_slot by exact Hfresh.
      simpl. rewrite H1, H2. simpl. lia.
Qed.

End Slots.

(** ** Messages *)

Section Messages.

Variable getTime : string → JS.timeval.
Variable alertsEnabled : bool.

#[local] Abbreviation handleFrameEvent := (handleFrameEvent getTime).
#[local] Abbreviation handleDetectionEvent := (handleDetectionEvent getTime).
#[local] Abbreviation resumeFrameEvent := (resumeFrameEvent alertsEnabled).
#[local] Abbreviation onmessage := (onmessage getTime).
#[local] Abbreviation step := (step getTime alertsEnabled).
#[local] Abbreviation run := (run getTime alertsEnabled).

Lemma handleFrameEvent_sameBuffers (f : FrameEventData) (a b : State) :
  sameBuffers a b → sameBuffers (handleFrameEvent f a) (handleFrameEvent f b).
Proof.
  destruct a, b. unfold sameBuffers. simpl.
  intros (-> & -> & -> & -> & -> & -> & ->).
  unfold handleFrameEvent. simpl.
  repeat case_match; simpl; repeat split.
Qed.

Lemma handleDetectionEvent_sameBuffers (d : DetectionEventData) (a b : State) :
  sameBuffers a b →
  sameBuffers (handleDetectionEvent d a) (handleDetectionEvent d b).
Proof.
  intros H. unfold handleDetectionEvent.
  destruct (JS.falsy_str (d_frame_id d)); [exact H|].
  destruct H as (Hd & Hst & Hpd & Hpf & Hk & Hs & Ht).
  rewrite Hpd.
  set (pa := match pendingDetections b !! d_frame_id d with
             | Some r => (r, a) | None => _ end).
  set (pb := match pendingDetections b !! d_frame_id d with
             | Some r => (r, b) | None => _ end).
  assert (Hp : pa.1 = pb.1 ∧ sameBuffers pa.2 pb.2).
  { subst pa pb. destruct (pendingDetections b !! d_frame_id d); simpl;
      rewrite ?Hst; repeat split; simpl; congruence. }
  destruct pa as [ra a1], pb as [rb b1]. simpl in Hp.
  destruct Hp as [-> H1].
  assert (H2 : sameBuffers (set_store (alter (addDetection d) rb (store a1)) a1)
                 (set_store (alter (addDetection d) rb (store b1)) b1)).
  { destruct H1 as (? & E & ? & ? & ? & ? & ?). rewrite E.
    repeat split; assumption. }
  revert H2.
  generalize (set_store (alter (addDetection d) rb (store a1)) a1).
  generalize (set_store (alter (addDetection d) rb (store b1)) b1).
  intros b2 a2 H2.
  assert (Epf : pendingFrames a2 = pendingFrames b2) by apply H2.
  rewrite Epf. destruct (pendingFrames b2 !! d_frame_id d) as [pf|];
    [|exact H2].
  pose proof (handleFrameEvent_sameBuffers pf a2 b2 H2)
    as (? & ? & ? & E & ? & ? & ?).
  repeat split; simpl; try assumption. rewrite E. reflexivity.
Qed.

(** What a message does to the slot map, the buffers and the store does
    not depend on the status text or on the console. *)
Lemma onmessage_sameBuffers (p : Payload) (a b : State) :
  sameBuffers a b → sameBuffers (onmessage p a) (onmessage p b).
Proof.
  intros H. unfold onmessage.
  repeat case_match; try exact H.
  - apply handleDetectionEvent_sameBuffers. exact H.
  - apply handleFrameEvent_sameBuffers. exact H.
Qed.

(** A message without a [type], or with an empty one, is a keepalive,
    whatever else it carries. *)
Lemma keepalive_ignored (m : Message) (st : State) :
  isTruthy (msg_type m) = false → onmessage (Object m) st = st.
Proof.
  unfold onmessage, isTruthy. destruct (msg_type m) as [type|]; [|reflexivity].
  destruct (JS.falsy_str type); [reflexivity|discriminate].
Qed.

(** An [error] that is empty is no error: the message is handled as if it
    had none. *)
Lemma falsy_error_not_reported (m : Message) (st : State) :
  isTruthy (msg_error m) = false →
  onmessage (Object m) st
  = onmessage (Object (mkMessage (msg_type m) None (msg_data m))) st.
Proof. intros H. unfold onmessage. simpl. rewrite H. reflexivity. Qed.

(** C6, in the form that holds of the code: a message that has a non-empty
    [type] and carries a non-empty [error] sets the status to "Error: "
    followed by the error, is logged, and is otherwise dropped: it is
    dispatched to neither handler, and the slot map, the buffers, the store
    and the suspended completions stay as they are. The next message then
    does to them what it would have done without the error message. *)
Theorem server_error_message
    (m : Message) (type error : string) (st : State) (next : Payload) :
  msg_type m = Some type →
  JS.falsy_str type = false →
  msg_error m = Some error →
  JS.falsy_str error = false →
  let st' := onmessage (Object m) st in
  st' = set_status ("Error: " +:+ error) (log (ServerError error) st)
  ∧ status st' = "Error: " +:+ error
  ∧ console st' = console st ++ [ServerError error]
  ∧ sameBuffers st' st
  ∧ sameBuffers (onmessage next st') (onmessage next st).
Proof.
  intros Ht Htt He Hee st'.
  assert (E : st' = set_status ("Error: " +:+ error) (log (ServerError error) st)).
  { subst st'. unfold onmessage, isTruthy. rewrite Ht, Htt, He, Hee.
    reflexivity. }
  assert (S : sameBuffers st' st) by (rewrite E; repeat split).
  repeat split; try (rewrite E; reflexivity); try apply S.
  all: apply onmessage_sameBuffers, S.
Qed.

End Messages.

(** ** Correlation of detections and frames *)

Section Correlation.

Variable getTime : string → JS.timeval.
Variable alertsEnabled : bool.

#[local] Abbreviation handleFrameEvent := (handleFrameEvent getTime).
#[local] Abbreviation handleDetectionEvent := (handleDetectionEvent getTime).
#[local] Abbreviation resumeFrameEvent := (resumeFrameEvent alertsEnabled).
#[local] Abbreviation onmessage := (onmessage getTime).
#[local] Abbreviation step := (step getTime alertsEnabled).
#[local] Abbreviation run := (run getTime alertsEnabled).

(** *** Frames without detections *)

(** A frame with nothing buffered for it is parked. *)
Lemma handleFrameEvent_parks (f : FrameEventData) (st : State) :
  JS.falsy_str (f_stream_id f) = false →
  JS.falsy_str (f_id f) = false →
  pendingDetections st !! f_id f = None →
  handleFrameEvent f st
  = set_pendingFrames (<[f_id f := f]> (pendingFrames st)) st.
Proof.
  intros Hs Hf Hnone. unfold handleFrameEvent.
  rewrite Hs, Hf, Hnone. reflexivity.
Qed.

Lemma handleFrameEvent_untouched (frame_id : string) (f : FrameEventData)
    (st : State) :
  untouched frame_id st → untouched frame_id (handleFrameEvent f st).
Proof.
  intros (Hpd & Hs & Hd & Hpf). unfold handleFrameEvent.
  destruct (JS.falsy_str (f_stream_id f) || JS.falsy_str (f_id f));
    [repeat split; assumption|].
  destruct (pendingDetections st !! f_id f) as [r|] eqn:Hr; simpl.
  - assert (Hne : f_id f ≠ frame_id) by congruence.
    destruct (store st !! r) as [o|]; simpl;
      [destruct (detectionCount o =? 0)|];
      repeat split; simpl; try assumption;
      try (apply map_Forall_insert_2; [reflexivity|assumption]).
    apply Forall_app_2; [assumption|]. constructor; [exact Hne|constructor].
  - repeat split; simpl; try assumption.
    apply map_Forall_insert_2; [reflexivity|assumption].
Qed.

Lemma handleDetectionEvent_untouched (frame_id : string)
    (d : DetectionEventData) (st : State) :
  d_frame_id d ≠ frame_id →
  untouched frame_id st → untouched frame_id (handleDetectionEvent d st).
Proof.
  intros Hne Hst. unfold handleDetectionEvent.
  destruct (JS.falsy_str (d_frame_id d)); [exact Hst|].
  set (pair := match pendingDetections st !! d_frame_id d with
               | Some r => _ | None => _ end).
  assert (Hpair : untouched frame_id pair.2).
  { subst pair. destruct Hst as (Hpd & Hs & Hd & Hpf).
    destruct (pendingDetections st !! d_frame_id d);
      repeat split; simpl; try assumption.
    rewrite lookup_insert_ne by exact Hne. exact Hpd. }
  destruct pair as [r st1]. simpl in Hpair.
  set (st2 := set_store _ st1).
  assert (H2 : untouched frame_id st2) by exact Hpair.
  destruct (pendingFrames st2 !! d_frame_id d) as [pf|]; [|exact H2].
  destruct (handleFrameEvent_untouched frame_id pf st2 H2)
    as (Hpd & Hs & Hd & Hpf).
  repeat split; simpl; try assumption.
  apply map_Forall_delete. exact Hpf.
Qed.

Lemma step_untouched (frame_id : string) (e : Event) (st : State) :
  ¬ carriesDetectionOf frame_id e →
  untouched frame_id st → untouched frame_id (step st e).
Proof.
  intros He Hst. destruct e as [p|i o].
  - simpl. unfold onmessage. repeat case_match; try exact Hst.
    + apply handleDetectionEvent_untouched; [|exact Hst].
      intros Heq. apply He. simpl. simplify_eq.
      destruct (msg_data _) as [[]|]; simplify_eq. reflexivity.
    + apply handleFrameEvent_untouched. exact Hst.
  - destruct (suspended st !! i) as [k|] eqn:Hk.
    2: { unfold step. rewrite Hk. exact Hst. }
    rewrite (step_ImageFetched _ _ _ _ k _ Hk).
    destruct Hst as (Hpd & Hs & Hd & Hpf).
    set (st1 := foldl _ _ _).
    destruct (logged_frame (fetchImage (f_id (s_frameData k)) o).2
                (set_suspended (delete i (suspended st)) st))
      as (Ed & Es & Ep & Epd & _).
    fold st1 in Ed, Es, Ep, Epd. simpl in Ed, Es, Ep, Epd.
    destruct (resumeFrameEvent_fields alertsEnabled k
                (fetchImage (f_id (s_frameData k)) o).1 st1)
      as (Fd & Fpd & _ & Fpf & Fs & _).
    unfold untouched. rewrite Fd, Fpd, Fpf, Fs, Ed, Es, Ep, Epd.
    pose proof (Forall_lookup_1 _ _ _ _ Hs Hk) as Hkne.
    destruct (isStale k (detections st)); repeat split; try assumption;
      try (apply Forall_delete; assumption).
    + rewrite lookup_delete_None. right. exact Hpd.
    + apply map_Forall_insert_2; [exact Hkne|assumption].
Qed.

Lemma untouched_init (frame_id : string) : untouched frame_id init.
Proof.
  repeat split; simpl;
    [constructor|apply map_Forall_empty|apply map_Forall_empty].
Qed.

(** C3: a frame event whose frame has no detection is never surfaced.  In
    any run from the initial state in which no message carries a detection
    of the frame, no slot holds the frame and no completion of it is
    suspended at the image fetch, so none can reach a slot.  The frame
    event itself, when nothing is buffered for its frame, leaves the slot
    map as it is and stores the frame in the pending-frames buffer under
    its id, where it waits for its first detection. *)
Theorem zero_detection_frames_never_surfaced
    (es : list Event) (f : FrameEventData) (st : State) :
  (Forall (λ e, ¬ carriesDetectionOf (f_id f) e) es →
   let final := run es init in
   (∀ s c, detections final !! s = Some c → f_id (frame (frameData c)) ≠ f_id f)
   ∧ (∀ i k, suspended final !! i = Some k → f_id (s_frameData k) ≠ f_id f)
   ∧ pendingDetections final !! f_id f = None)
  ∧ (JS.falsy_str (f_stream_id f) = false →
     JS.falsy_str (f_id f) = false →
     pendingDetections st !! f_id f = None →
     let st' := step st (frameMessage f) in
     detections st' = detections st
     ∧ suspended st' = suspended st
     ∧ pendingFrames st' = <[f_id f := f]> (pendingFrames st)
     ∧ pendingFrames st' !! f_id f = Some f).
Proof.
  split.
  - intros Hes final.
    assert (H : untouched (f_id f) final).
    { subst final. generalize (untouched_init (f_id f)).
      generalize init. induction Hes as [|e es He _ IH]; intros s0 H0;
        [exact H0|].
      apply IH. apply step_untouched; assumption. }
    destruct H as (Hpd & Hs & Hd & _).
    repeat split; [| |exact Hpd].
    + intros s c Hc. exact (Hd _ _ Hc).
    + intros i k Hk. exact (Forall_lookup_1 _ _ _ _ Hs Hk).
  - intros Hs Hf Hnone st'. subst st'.
    rewrite step_frameMessage, (handleFrameEvent_parks f st Hs Hf Hnone).
    simpl. repeat split. apply lookup_insert_eq.
Qed.

(** *** Aggregates after completion *)

Lemma addDetection_frameId (d : DetectionEventData) (o : FrameDetections) :
  frameId (addDetection d o) = frameId o.
Proof. reflexivity. Qed.

Lemma handleFrameEvent_cases (f : FrameEventData) (st : State) :
  handleFrameEvent f st = st
  ∨ handleFrameEvent f st
    = set_pendingFrames (<[f_id f := f]> (pendingFrames st)) st
  ∨ ∃ r o, pendingDetections st !! f_id f = Some r
           ∧ store st !! r = Some o
           ∧ handleFrameEvent f st
             = set_suspended
                 (suspended st
                    ++ [mkSuspended f r (getTime (f_timestamp f))]) st.
Proof.
  unfold handleFrameEvent.
  destruct (JS.falsy_str (f_stream_id f) || JS.falsy_str (f_id f));
    [left; reflexivity|].
  destruct (pendingDetections st !! f_id f) as [r|] eqn:Hr; simpl;
    [|right; left; reflexivity].
  destruct (store st !! r) as [o|] eqn:Ho; simpl;
    [|right; left; reflexivity].
  destruct (detectionCount o =? 0); [right; left; reflexivity|].
  right; right. exists r, o. repeat split; assumption.
Qed.

Lemma handleFrameEvent_wellFormed (f : FrameEventData) (st : State) :
  wellFormed st → wellFormed (handleFrameEvent f st).
Proof.
  intros Hst.
  destruct (handleFrameEvent_cases f st) as [->|[->|(r & o & Hr & Ho & ->)]];
    [exact Hst|exact Hst|].
  destruct Hst as (H1 & H2 & H3). repeat split; simpl; try assumption.
  - apply Forall_app_2; [exact H2|]. constructor; [|constructor]. simpl.
    destruct (H1 _ _ Hr) as (o' & Ho' & Hid). eauto.
  - apply (H3 s c H).
  - apply (H3 s c H).
Qed.

(** The store and the buffer after [handleDetectionEvent]. *)
Lemma handleDetectionEvent_cases (d : DetectionEventData) (st : State) :
  (store (handleDetectionEvent d st) = store st
   ∧ pendingDetections (handleDetectionEvent d st) = pendingDetections st)
  ∨ (∃ r, pendingDetections st !! d_frame_id d = Some r
          ∧ store (handleDetectionEvent d st)
            = alter (addDetection d) r (store st)
          ∧ pendingDetections (handleDetectionEvent d st)
            = pendingDetections st)
  ∨ (pendingDetections st !! d_frame_id d = None
     ∧ store (handleDetectionEvent d st)
       = store st ++ [addDetection d (emptyFrameDetections (d_frame_id d))]
     ∧ pendingDetections (handleDetectionEvent d st)
       = <[d_frame_id d := length (store st)]> (pendingDetections st)).
Proof.
  assert (Hpd : ∀ f s, pendingDetections (handleFrameEvent f s)
                       = pendingDetections s).
  { intros f s. apply (handleFrameEvent_pendingFrames_only getTime). }
  rewrite handleDetectionEvent_store.
  unfold handleDetectionEvent.
  destruct (JS.falsy_str (d_frame_id d)); [left; split; reflexivity|].
  destruct (pendingDetections st !! d_frame_id d) as [r|] eqn:Hr;
    [right; left; exists r|right; right];
    (repeat split;
     [..|simpl; case_match; simpl; rewrite ?Hpd; reflexivity]).
  rewrite alter_app_r_alt by lia. rewrite Nat.sub_diag. reflexivity.
Qed.

(** A retired aggregate stays retired, and nothing writes to it. *)
Lemma step_retired (e : Event) (st : State) (r : nat) :
  retired r st →
  retired r (step st e) ∧ store (step st e) !! r = store st !! r.
Proof.
  intros [Hlt Hnot].
  assert (Hdet : ∀ d, retired r (handleDetectionEvent d st)
                      ∧ store (handleDetectionEvent d st) !! r = store st !! r).
  { intros d.
    destruct (handleDetectionEvent_cases d st)
      as [[Es Ep]|[(r0 & Hr0 & Es & Ep)|(Hnone & Es & Ep)]];
      unfold retired; rewrite Es, Ep.
    - repeat split; assumption.
    - assert (r0 ≠ r) by (intros ->; exact (Hnot _ Hr0)).
      rewrite length_alter, list_lookup_alter_ne by assumption.
      repeat split; assumption.
    - rewrite length_app, lookup_app_l by exact Hlt.
      repeat split; [lia|]. intros key Hkey.
      apply lookup_insert_Some in Hkey as [[_ Heq]|[_ Hkey]];
        [lia|exact (Hnot _ Hkey)]. }
  assert (Hfr : ∀ f, retired r (handleFrameEvent f st)
                     ∧ store (handleFrameEvent f st) !! r = store st !! r).
  { intros f. unfold retired.
    destruct (handleFrameEvent_pendingFrames_only getTime f st)
      as (_ & -> & _).
    rewrite (handleFrameEvent_store getTime). repeat split; assumption. }
  destruct e as [p|i o].
  - simpl. unfold onmessage.
    repeat case_match; try (split; [split; assumption|reflexivity]);
      [apply Hdet|apply Hfr].
  - destruct (suspended st !! i) as [k|] eqn:Hk.
    2: { unfold step. rewrite Hk. repeat split; assumption. }
    rewrite (step_ImageFetched _ _ _ _ k _ Hk).
    set (st1 := foldl _ _ _).
    destruct (logged_frame (fetchImage (f_id (s_frameData k)) o).2
                (set_suspended (delete i (suspended st)) st))
      as (_ & _ & _ & Epd & Est).
    fold st1 in Epd, Est. simpl in Epd, Est.
    destruct (resumeFrameEvent_fields alertsEnabled k
                (fetchImage (f_id (s_frameData k)) o).1 st1)
      as (_ & Fpd & Fst & _).
    unfold retired. rewrite Fpd, Fst, Epd, Est.
    repeat split; [exact Hlt|].
    intros key. destruct (isStale k (detections st1)); [apply Hnot|].
    intros [_ Hkey]%lookup_delete_Some. exact (Hnot _ Hkey).
Qed.

(** A step writes to an aggregate only while it is buffered. *)
Lemma step_writes_only_buffered (e : Event) (st : State) (r : nat)
    (o : FrameDetections) :
  store st !! r = Some o →
  store (step st e) !! r ≠ Some o →
  ∃ key, pendingDetections st !! key = Some r.
Proof.
  intros Ho Hne.
  assert (Hlt : r < length (store st)) by (eapply lookup_lt_Some, Ho).
  assert (Hdet : ∀ d, store (handleDetectionEvent d st) !! r ≠ Some o →
                      ∃ key, pendingDetections st !! key = Some r).
  { intros d Hd.
    destruct (handleDetectionEvent_cases d st)
      as [[Es _]|[(r0 & Hr0 & Es & _)|(_ & Es & _)]]; rewrite Es in Hd.
    - congruence.
    - destruct (decide (r0 = r)) as [->|Hr]; [eauto|].
      rewrite list_lookup_alter_ne in Hd by exact Hr. congruence.
    - rewrite lookup_app_l in Hd by exact Hlt. congruence. }
  destruct e as [p|i out].
  - simpl in Hne. unfold onmessage in Hne.
    repeat case_match; try (simpl in Hne; congruence);
      [apply (Hdet _ Hne)|].
    rewrite (handleFrameEvent_store getTime) in Hne. congruence.
  - destruct (suspended st !! i) as [k|] eqn:Hk.
    2: { unfold step in Hne. rewrite Hk in Hne. congruence. }
    rewrite (step_ImageFetched _ _ _ _ k _ Hk) in Hne.
    destruct (logged_frame (fetchImage (f_id (s_frameData k)) out).2
                (set_suspended (delete i (suspended st)) st))
      as (_ & _ & _ & _ & Est).
    simpl in Est.
    destruct (resumeFrameEvent_fields alertsEnabled k
                (fetchImage (f_id (s_frameData k)) out).1
                (foldl (λ s e, log e s)
                   (set_suspended (delete i (suspended st)) st)
                   (fetchImage (f_id (s_frameData k)) out).2))
      as (_ & _ & Fst & _).
    rewrite Fst, Est in Hne. congruence.
Qed.

Lemma run_retired (es : list Event) (st : State) (r : nat) :
  retired r st →
  retired r (run es st) ∧ store (run es st) !! r = store st !! r.
Proof.
  revert st. induction es as [|e es IH]; intros st Hr;
    [split; [exact Hr|reflexivity]|].
  destruct (step_retired e st r Hr) as [Hr' Hs'].
  destruct (IH (step st e) Hr') as [Hr'' Hs''].
  split; [exact Hr''|]. simpl. fold (run es (step st e)).
  rewrite Hs''. exact Hs'.
Qed.

Lemma alter_keeps_frameId (d : DetectionEventData) (l : list FrameDetections)
    (r0 r : nat) (key : string) :
  (∃ o, l !! r = Some o ∧ frameId o = key) →
  ∃ o, alter (addDetection d) r0 l !! r = Some o ∧ frameId o = key.
Proof.
  intros (o & Ho & Hid). rewrite list_lookup_alter.
  case_decide; [subst r0; rewrite Ho; simpl|]; eauto.
Qed.

Lemma snoc_keeps_frameId (l : list FrameDetections) (x : FrameDetections)
    (r : nat) (key : string) :
  (∃ o, l !! r = Some o ∧ frameId o = key) →
  ∃ o, (l ++ [x]) !! r = Some o ∧ frameId o = key.
Proof.
  intros (o & Ho & Hid). exists o. split; [|exact Hid].
  rewrite lookup_app_l; [exact Ho|]. eapply lookup_lt_Some, Ho.
Qed.

Lemma handleDetectionEvent_wellFormed (d : DetectionEventData) (st : State) :
  wellFormed st → wellFormed (handleDetectionEvent d st).
Proof.
  intros Hst. unfold handleDetectionEvent.
  destruct (JS.falsy_str (d_frame_id d)); [exact Hst|].
  set (pair := match pendingDetections st !! d_frame_id d with
               | Some r => _ | None => _ end).
  assert (H2 : wellFormed
                 (set_store (alter (addDetection d) pair.1 (store pair.2))
                    pair.2)).
  { subst pair. destruct Hst as (H1 & H2 & H3).
    destruct (pendingDetections st !! d_frame_id d) as [r0|] eqn:Hr0; simpl.
    - repeat split; simpl.
      + intros key r Hr. apply alter_keeps_frameId, (H1 _ _ Hr).
      + eapply Forall_impl; [exact H2|]. intros k Hk.
        apply alter_keeps_frameId, Hk.
      + rewrite length_alter. apply (H3 _ _ H).
      + apply (H3 _ _ H).
    - rewrite alter_app_r_alt by lia. rewrite Nat.sub_diag. simpl.
      repeat split; simpl.
      + intros key r [[<- <-]|[Hne Hr]]%lookup_insert_Some.
        * eexists. split; [apply list_lookup_middle; reflexivity|].
          reflexivity.
        * apply snoc_keeps_frameId, (H1 _ _ Hr).
      + eapply Forall_impl; [exact H2|]. intros k Hk.
        apply snoc_keeps_frameId, Hk.
      + rewrite length_app. destruct (H3 _ _ H) as [Hlt _]. lia.
      + intros key [[_ Heq]|[_ Hkey]]%lookup_insert_Some.
        * destruct (H3 _ _ H) as [Hlt _]. lia.
        * destruct (H3 _ _ H) as [_ Hnot]. exact (Hnot _ Hkey). }
  destruct pair as [r st1]. simpl in H2.
  set (st2 := set_store _ st1) in *.
  destruct (pendingFrames st2 !! d_frame_id d) as [pf|]; [|exact H2].
  exact (handleFrameEvent_wellFormed pf st2 H2).
Qed.

Lemma step_wellFormed (e : Event) (st : State) :
  wellFormed st → wellFormed (step st e).
Proof.
  intros Hst. destruct e as [p|i o].
  - simpl. unfold onmessage. repeat case_match; try exact Hst.
    + apply handleDetectionEvent_wellFormed, Hst.
    + apply handleFrameEvent_wellFormed, Hst.
  - destruct (suspended st !! i) as [k|] eqn:Hk.
    2: { unfold step. rewrite Hk. exact Hst. }
    rewrite (step_ImageFetched _ _ _ _ k _ Hk).
    set (st1 := foldl _ _ _).
    destruct (logged_frame (fetchImage (f_id (s_frameData k)) o).2
                (set_suspended (delete i (suspended st)) st))
      as (Ed & Es & _ & Epd & Est).
    fold st1 in Ed, Es, Epd, Est. simpl in Ed, Es, Epd, Est.
    destruct (resumeFrameEvent_fields alertsEnabled k
                (fetchImage (f_id (s_frameData k)) o).1 st1)
      as (Fd & Fpd & Fst & _ & Fs & _).
    destruct Hst as (H1 & H2 & H3).
    pose proof (Forall_lookup_1 _ _ _ _ H2 Hk) as (ok & Hok & Hokid).
    unfold wellFormed, retired. rewrite Fd, Fpd, Fst, Fs, Ed, Es, Epd, Est.
    destruct (isStale k (detections st)).
    + repeat split; try assumption; try (apply (H3 _ _ H)).
      apply Forall_delete, H2.
    + repeat split.
      * intros key r [_ Hr]%lookup_delete_Some. exact (H1 _ _ Hr).
      * apply Forall_delete, H2.
      * apply lookup_insert_Some in H as [[_ <-]|[_ Hc]]; simpl.
        -- eapply lookup_lt_Some, Hok.
        -- apply (H3 _ _ Hc).
      * intros key [Hne Hkey]%lookup_delete_Some.
        apply lookup_insert_Some in H as [[_ <-]|[_ Hc]]; simpl in Hkey.
        -- destruct (H1 _ _ Hkey) as (o' & Ho' & Hid').
           rewrite Hok in Ho'. simplify_eq.
        -- destruct (H3 _ _ Hc) as [_ Hnot]. exact (Hnot _ Hkey).
Qed.

Lemma wellFormed_init : wellFormed init.
Proof.
  split; [|split].
  - intros key r H. simpl in H. rewrite lookup_empty in H. discriminate.
  - apply Forall_nil_2.
  - intros s c H. simpl in H. rewrite lookup_empty in H. discriminate.
Qed.

Lemma run_wellFormed (es : list Event) (st : State) :
  wellFormed st → wellFormed (run es st).
Proof.
  revert st. induction es as [|e es IH]; intros st Hst; [exact Hst|].
  apply IH, step_wellFormed, Hst.
Qed.

(** *** A frame event delivered again *)

Lemma handleFrameEvent_framesOwn (f : FrameEventData) (st : State) :
  framesOwn getTime st → framesOwn getTime (handleFrameEvent f st).
Proof.
  intros Hst.
  destruct (handleFrameEvent_cases f st) as [->|[->|(r & o & _ & _ & ->)]];
    [exact Hst|exact Hst|].
  destruct Hst as [Hs Hd]. split; [|exact Hd]. simpl.
  apply Forall_app_2; [exact Hs|]. constructor; [reflexivity|constructor].
Qed.

Lemma handleDetectionEvent_framesOwn (d : DetectionEventData) (st : State) :
  framesOwn getTime st → framesOwn getTime (handleDetectionEvent d st).
Proof.
  intros Hst. unfold handleDetectionEvent.
  destruct (JS.falsy_str (d_frame_id d)); [exact Hst|].
  set (pair := match pendingDetections st !! d_frame_id d with
               | Some r => _ | None => _ end).
  assert (Hpair : framesOwn getTime pair.2).
  { subst pair. destruct (pendingDetections st !! d_frame_id d); exact Hst. }
  destruct pair as [r st1]. simpl in Hpair.
  set (st2 := set_store _ st1).
  assert (H2 : framesOwn getTime st2) by exact Hpair.
  destruct (pendingFrames st2 !! d_frame_id d) as [pf|]; [|exact H2].
  exact (handleFrameEvent_framesOwn pf st2 H2).
Qed.

Lemma step_framesOwn (e : Event) (st : State) :
  framesOwn getTime st → framesOwn getTime (step st e).
Proof.
  intros Hst. destruct e as [p|i o].
  - simpl. unfold onmessage. repeat case_match; try exact Hst.
    + apply handleDetectionEvent_framesOwn, Hst.
    + apply handleFrameEvent_framesOwn, Hst.
  - destruct (suspended st !! i) as [k|] eqn:Hk.
    2: { unfold step. rewrite Hk. exact Hst. }
    rewrite (step_ImageFetched _ _ _ _ k _ Hk).
    set (st1 := foldl _ _ _).
    destruct (logged_frame (fetchImage (f_id (s_frameData k)) o).2
                (set_suspended (delete i (suspended st)) st))
      as (Ed & Es & _).
    fold st1 in Ed, Es. simpl in Ed, Es.
    destruct (resumeFrameEvent_fields alertsEnabled k
                (fetchImage (f_id (s_frameData k)) o).1 st1)
      as (Fd & _ & _ & _ & Fs & _).
    destruct Hst as [Hs Hd].
    pose proof (Forall_lookup_1 _ _ _ _ Hs Hk) as Hkts.
    unfold framesOwn. rewrite Fd, Fs, Ed, Es.
    split; [apply Forall_delete, Hs|].
    destruct (isStale k (detections st)); [exact Hd|].
    apply map_Forall_insert_2; [|exact Hd]. split; [reflexivity|exact Hkts].
Qed.

Lemma run_framesOwn (es : list Event) :
  framesOwn getTime (run es init).
Proof.
  assert (H0 : framesOwn getTime init).
  { split; simpl; [constructor|apply map_Forall_empty]. }
  revert H0. generalize init.
  induction es as [|e es IH]; intros st Hst; [exact Hst|].
  apply IH, step_framesOwn, Hst.
Qed.

(** X8: a completion of the very frame event that a slot holds, that is the
    frame event delivered once more, is stale when the frame's timestamp
    parses: equal timestamps do not replace, and the slot keeps its card
    whatever the image fetch gives. *)
Lemma redelivered_frame_is_stale (es : list Event) (s : string)
    (c : DetectionCard) (i : nat) (k : Suspended) (o : FetchOutcome) :
  detections (run es init) !! s = Some c →
  suspended (run es init) !! i = Some k →
  s_frameData k = frame (frameData c) →
  is_Some (messageTimestamp c) →
  isStale k (detections (run es init)) = true
  ∧ detections (step (run es init) (ImageFetched i o)) !! s = Some c.
Proof.
  intros Hc Hk Hsame Hts.
  destruct (run_framesOwn es) as [Hs Hd].
  pose proof (Forall_lookup_1 _ _ _ _ Hs Hk) as Hkts.
  destruct (Hd _ _ Hc) as [Hstream Hcts].
  assert (Hstale : isStale k (detections (run es init)) = true).
  { unfold isStale. rewrite Hsame, Hstream, Hc, Hkts, Hsame, <- Hcts.
    apply time_le_refl_Some, Hts. }
  split; [exact Hstale|].
  rewrite (step_ImageFetched _ _ _ _ k _ Hk).
  set (st1 := foldl _ _ _).
  destruct (logged_frame (fetchImage (f_id (s_frameData k)) o).2
              (set_suspended (delete i (suspended (run es init))) (run es init)))
    as (Ed & _).
  fold st1 in Ed. simpl in Ed.
  destruct (resumeFrameEvent_fields alertsEnabled k
              (fetchImage (f_id (s_frameData k)) o).1 st1) as (-> & _).
  rewrite Ed, Hstale. exact Hc.
Qed.

(** *** The score that the handler stores *)

Lemma handleDetectionEvent_pendingDetections (d : DetectionEventData)
    (st : State) :
  JS.falsy_str (d_frame_id d) = false →
  pendingDetections (handleDetectionEvent d st)
  = match pendingDetections st !! d_frame_id d with
    | Some _ => pendingDetections st
    | None => <[d_frame_id d := length (store st)]> (pendingDetections st)
    end.
Proof.
  intros Hf.
  assert (Hpd : ∀ f s, pendingDetections (handleFrameEvent f s)
                       = pendingDetections s).
  { intros f s. apply (handleFrameEvent_pendingFrames_only getTime). }
  unfold handleDetectionEvent. rewrite Hf.
  destruct (pendingDetections st !! d_frame_id d) as [r|]; simpl;
    case_match; simpl; rewrite ?Hpd; reflexivity.
Qed.

(** After [handleDetectionEvent] the frame's aggregate is buffered: the one
    that was, or a new one, with the detection added. *)
Lemma handleDetectionEvent_pendingAggregate (d : DetectionEventData)
    (st : State) :
  wellFormed st →
  JS.falsy_str (d_frame_id d) = false →
  pendingAggregate (handleDetectionEvent d st) (d_frame_id d)
  = Some (addDetection d
            (default (emptyFrameDetections (d_frame_id d))
               (pendingAggregate st (d_frame_id d)))).
Proof.
  intros (H1 & _) Hf. unfold pendingAggregate.
  rewrite (handleDetectionEvent_pendingDetections d st Hf).
  rewrite (handleDetectionEvent_store getTime), Hf.
  destruct (pendingDetections st !! d_frame_id d) as [r|] eqn:Hr.
  - destruct (H1 _ _ Hr) as (o & Ho & _). rewrite Hr. simpl.
    rewrite list_lookup_alter, decide_True by reflexivity.
    rewrite Ho. reflexivity.
  - rewrite lookup_insert_eq. simpl.
    rewrite list_lookup_alter, decide_True by reflexivity.
    rewrite list_lookup_middle by reflexivity. reflexivity.
Qed.

(** C5: the confidence that [handleDetectionEvent] compares with the
    label's current score and stores in the label map is the raw
    confidence divided by 100 when it is greater than 1, and the raw
    confidence otherwise; 87 and 0.87 both give 0.87, so the two
    representations of one detection leave identical label maps: in the
    aggregate, in a fresh aggregate (the single entry 0.87), and in the
    store after [handleDetectionEvent].  In any state reached from the
    initial one, after [handleDetectionEvent] of a detection with a frame id
    the aggregate buffered for its frame holds the detection, with its raw
    confidence, at the end of the list, and its label map is the one before
    (empty when nothing was buffered) with the normalized confidence stored
    for the label when the label had no score, a score that is 0 or NaN, or
    a smaller score, and left as it was otherwise.  So a first detection of
    a label reported with 87 or with 0.87 stores 0.87 for it. *)
Theorem confidence_normalization
    (d : DetectionEventData) (o : FrameDetections) (st : State)
    (es : list Event) :
  let c := d_confidence d in
  let v := if JS.gt c 1%float then (c / 100)%float else c in
  normalizeScore c = v
  ∧ labels (addDetection d o) =
      match labels o !! d_label d with
      | Some currentScore =>
          if JS.falsy_num currentScore || JS.gt v currentScore
          then <[d_label d := v]> (labels o)
          else labels o
      | None => <[d_label d := v]> (labels o)
      end
  ∧ normalizeScore 87%float = 0.87%float
  ∧ normalizeScore 0.87%float = 0.87%float
  ∧ labels (addDetection (withConfidence 87%float d) o)
    = labels (addDetection (withConfidence 0.87%float d) o)
  ∧ labels (addDetection (withConfidence 87%float d)
              (emptyFrameDetections (d_frame_id d)))
    = {[ d_label d := 0.87%float ]}
  ∧ labels <$> store (handleDetectionEvent (withConfidence 87%float d) st)
    = labels <$> store (handleDetectionEvent (withConfidence 0.87%float d) st)
  ∧ (JS.falsy_str (d_frame_id d) = false →
     let reached := run es init in
     let before := default (emptyFrameDetections (d_frame_id d))
                     (pendingAggregate reached (d_frame_id d)) in
     (∃ o', pendingAggregate (handleDetectionEvent d reached) (d_frame_id d)
            = Some o'
            ∧ detections_of o' = detections_of before ++ [toDetection d]
            ∧ confidence (toDetection d) = c
            ∧ labels o' =
                match labels before !! d_label d with
                | Some currentScore =>
                    if JS.falsy_num currentScore || JS.gt v currentScore
                    then <[d_label d := v]> (labels before)
                    else labels before
                | None => <[d_label d := v]> (labels before)
                end)
     ∧ (labels <$> pendingAggregate
                     (handleDetectionEvent (withConfidence 87%float d) reached)
                     (d_frame_id d))
       = (labels <$> pendingAggregate
                       (handleDetectionEvent (withConfidence 0.87%float d)
                          reached)
                       (d_frame_id d))
     ∧ (labels before !! d_label d = None →
        (pendingAggregate
           (handleDetectionEvent (withConfidence 87%float d) reached)
           (d_frame_id d) ≫= λ o', labels o' !! d_label d)
        = Some 0.87%float
        ∧ (pendingAggregate
             (handleDetectionEvent (withConfidence 0.87%float d) reached)
             (d_frame_id d) ≫= λ o', labels o' !! d_label d)
          = Some 0.87%float)).
Proof.
  intros c v.
  split; [reflexivity|]. split; [reflexivity|]. split; [reflexivity|].
  split; [reflexivity|]. split; [reflexivity|]. split; [reflexivity|].
  split.
  { rewrite !(handleDetectionEvent_store getTime). simpl.
    destruct (JS.falsy_str (d_frame_id d)); [reflexivity|].
    assert (Hsame : ∀ r (l : list FrameDetections),
               labels <$> alter (addDetection (withConfidence 87%float d)) r l
               = labels <$> alter (addDetection (withConfidence 0.87%float d)) r l).
    { intros r l. apply list_eq. intros i.
      rewrite !list_lookup_fmap, !list_lookup_alter.
      case_decide; [|reflexivity].
      destruct (l !! r); reflexivity. }
    destruct (pendingDetections st !! d_frame_id d); apply Hsame. }
  intros Hf reached before.
  assert (Hwf : wellFormed reached) by apply run_wellFormed, wellFormed_init.
  pose proof (handleDetectionEvent_pendingAggregate d reached Hwf Hf) as Hd.
  pose proof (handleDetectionEvent_pendingAggregate
                (withConfidence 87%float d) reached Hwf Hf) as H87.
  pose proof (handleDetectionEvent_pendingAggregate
                (withConfidence 0.87%float d) reached Hwf Hf) as H087.
  simpl in H87, H087. fold before in Hd, H87, H087.
  split; [|split].
  - eexists. split; [exact Hd|]. repeat split.
  - rewrite H87, H087. reflexivity.
  - intros Hnone. rewrite H87, H087. simpl.
    unfold updateLabels. simpl. rewrite Hnone.
    rewrite !lookup_insert_eq. split; reflexivity.
Qed.

(** *** Order of arrival *)

Lemma set_store_same (st : State) : set_store (store st) st = st.
Proof. destruct st; reflexivity. Qed.

Lemma alter_snoc {A} (g : A → A) (l : list A) (x : A) :
  alter g (length l) (l ++ [x]) = l ++ [g x].
Proof. rewrite alter_app_r_alt by lia. rewrite Nat.sub_diag. reflexivity. Qed.

Lemma detectionCount_fold (ds : list DetectionEventData) (o : FrameDetections) :
  detectionCount o ≠ 0 →
  detectionCount (foldl (λ o d, addDetection d o) o ds) ≠ 0.
Proof.
  revert o. induction ds as [|d ds IH]; intros o Ho; [exact Ho|].
  simpl. apply IH. simpl. rewrite length_app. simpl. lia.
Qed.

(** A detection of a frame whose aggregate is buffered, with no frame
    parked, only writes to the aggregate. *)
Lemma handleDetectionEvent_buffered (d : DetectionEventData) (r : nat)
    (st : State) :
  JS.falsy_str (d_frame_id d) = false →
  pendingDetections st !! d_frame_id d = Some r →
  pendingFrames st !! d_frame_id d = None →
  handleDetectionEvent d st
  = set_store (alter (addDetection d) r (store st)) st.
Proof.
  intros Hf Hr Hpf. unfold handleDetectionEvent.
  rewrite Hf, Hr. simpl. rewrite Hpf. reflexivity.
Qed.

Lemma run_detections_buffered (frame_id : string)
    (ds : list DetectionEventData) (r : nat) (st : State) :
  JS.falsy_str frame_id = false →
  Forall (λ d, d_frame_id d = frame_id) ds →
  pendingDetections st !! frame_id = Some r →
  pendingFrames st !! frame_id = None →
  run (map detectionMessage ds) st
  = set_store
      (alter (λ o, foldl (λ o d, addDetection d o) o ds) r (store st)) st.
Proof.
  intros Hf Hds. revert st.
  induction Hds as [|d ds Hd _ IH]; intros st Hr Hpf.
  - simpl. rewrite list_alter_id by reflexivity. symmetry.
    apply set_store_same.
  - change (run (map detectionMessage (d :: ds)) st)
      with (run (map detectionMessage ds) (handleDetectionEvent d st)).
    rewrite (handleDetectionEvent_buffered d r st) by (rewrite ?Hd; assumption).
    rewrite IH by assumption. simpl.
    rewrite list_alter_alter_eq. destruct st; reflexivity.
Qed.

Lemma detections_then_frame (f : FrameEventData) (d : DetectionEventData)
    (ds : list DetectionEventData) (st : State) :
  JS.falsy_str (f_stream_id f) = false →
  JS.falsy_str (f_id f) = false →
  Forall (λ d, d_frame_id d = f_id f) (d :: ds) →
  pendingDetections st !! f_id f = None →
  pendingFrames st !! f_id f = None →
  run (map detectionMessage (d :: ds) ++ [frameMessage f]) st
  = correlated getTime f (d :: ds) st.
Proof.
  intros Hs Hf Hall Hpd Hpf.
  apply Forall_cons in Hall as [Hd Hds].
  rewrite run_app. simpl map.
  change (run (detectionMessage d :: map detectionMessage ds) st)
    with (run (map detectionMessage ds) (handleDetectionEvent d st)).
  assert (E1 : handleDetectionEvent d st
               = set_store
                   (store st ++ [addDetection d (emptyFrameDetections (f_id f))])
                   (set_pendingDetections
                      (<[f_id f := length (store st)]> (pendingDetections st))
                      st)).
  { unfold handleDetectionEvent. rewrite Hd, Hf, Hpd. simpl.
    rewrite Hpf, alter_snoc. destruct st; reflexivity. }
  rewrite E1.
  rewrite (run_detections_buffered (f_id f) ds (length (store st)));
    [|exact Hf|exact Hds|simpl; apply lookup_insert_eq|exact Hpf].
  simpl store. rewrite alter_snoc.
  change (run [frameMessage f] ?s) with (handleFrameEvent f s).
  erewrite handleFrameEvent_suspends;
    [|exact Hs|exact Hf|simpl; apply lookup_insert_eq
     |simpl; apply list_lookup_middle; reflexivity
     |apply detectionCount_fold; simpl; lia].
  destruct st; reflexivity.
Qed.

Lemma frame_then_detections (f : FrameEventData) (d : DetectionEventData)
    (ds : list DetectionEventData) (st : State) :
  JS.falsy_str (f_stream_id f) = false →
  JS.falsy_str (f_id f) = false →
  Forall (λ d, d_frame_id d = f_id f) (d :: ds) →
  pendingDetections st !! f_id f = None →
  pendingFrames st !! f_id f = None →
  run (frameMessage f :: map detectionMessage (d :: ds)) st
  = correlated getTime f (d :: ds) st.
Proof.
  intros Hs Hf Hall Hpd Hpf.
  apply Forall_cons in Hall as [Hd Hds].
  change (run (frameMessage f :: map detectionMessage (d :: ds)) st)
    with (run (map detectionMessage ds)
            (handleDetectionEvent d (handleFrameEvent f st))).
  rewrite (handleFrameEvent_parks f st Hs Hf Hpd).
  set (r := length (store st)).
  set (o := addDetection d (emptyFrameDetections (f_id f))).
  assert (E1 : handleDetectionEvent d
                 (set_pendingFrames (<[f_id f := f]> (pendingFrames st)) st)
               = mkState (status st) (detections st) (store st ++ [o])
                   (<[f_id f := r]> (pendingDetections st))
                   (pendingFrames st) (knownStreamIds st)
                   (suspended st ++ [mkSuspended f r (getTime (f_timestamp f))])
                   (console st) (toasts st)).
  { unfold handleDetectionEvent. rewrite Hd, Hf. simpl. rewrite Hpd. simpl.
    rewrite lookup_insert_eq, alter_snoc. fold r o.
    erewrite handleFrameEvent_suspends;
      [|exact Hs|exact Hf|simpl; apply lookup_insert_eq
       |simpl; apply list_lookup_middle; reflexivity
       |simpl; lia].
    simpl. rewrite delete_insert_id by exact Hpf. reflexivity. }
  rewrite E1.
  rewrite (run_detections_buffered (f_id f) ds r);
    [|exact Hf|exact Hds|simpl; apply lookup_insert_eq|exact Hpf].
  simpl. subst r. rewrite alter_snoc. reflexivity.
Qed.

Lemma aggregate_detections (ds : list DetectionEventData) (o : FrameDetections) :
  let o' := foldl (λ o d, addDetection d o) o ds in
  detections_of o' = detections_of o ++ map toDetection ds
  ∧ frameId o' = frameId o.
Proof.
  revert o. induction ds as [|d ds IH]; intros o; simpl.
  - rewrite app_nil_r. split; reflexivity.
  - destruct (IH (addDetection d o)) as [-> ->]. simpl.
    rewrite <- app_assoc. split; reflexivity.
Qed.

(** C1, in the form that holds of the code: for a frame with at least one
    detection, delivering all its detections and then its frame event, or
    its frame event and then all its detections, to a state that has nothing
    buffered or parked for the frame, gives the same state: one aggregate
    holding the detections in their order of arrival with their label map,
    and exactly one completion of the frame suspended at its image fetch.
    When the image fetch resolves after all these events, both orders end in
    the same state, the completion is consumed, and unless the frame is
    stale its stream's slot holds the frame with that aggregate. *)
Theorem order_independence
    (f : FrameEventData) (d : DetectionEventData)
    (ds : list DetectionEventData) (out : FetchOutcome) (st : State) :
  JS.falsy_str (f_stream_id f) = false →
  JS.falsy_str (f_id f) = false →
  Forall (λ d, d_frame_id d = f_id f) (d :: ds) →
  pendingDetections st !! f_id f = None →
  pendingFrames st !! f_id f = None →
  let detectionsFirst := map detectionMessage (d :: ds) ++ [frameMessage f] in
  let frameFirst := frameMessage f :: map detectionMessage (d :: ds) in
  let fetched := ImageFetched (length (suspended st)) out in
  let r := length (store st) in
  let k := mkSuspended f r (getTime (f_timestamp f)) in
  let final := run (detectionsFirst ++ [fetched]) st in
  run frameFirst st = run detectionsFirst st
  ∧ suspended (run detectionsFirst st) = suspended st ++ [k]
  ∧ pendingFrames (run detectionsFirst st) = pendingFrames st
  ∧ run (frameFirst ++ [fetched]) st = final
  ∧ suspended final = suspended st
  ∧ store final !! r = Some (aggregateOf (f_id f) (d :: ds))
  ∧ detections_of (aggregateOf (f_id f) (d :: ds)) = map toDetection (d :: ds)
  ∧ (isStale k (detections st) = false →
     detections final !! f_stream_id f
     = Some (mkDetectionCard
               (mkFrameData f (orUndefined (fetchImage (f_id f) out).1) r)
               (getTime (f_timestamp f)))
     ∧ slotAggregate final (f_stream_id f)
       = Some (aggregateOf (f_id f) (d :: ds))).
Proof.
  intros Hs Hf Hall Hpd Hpf detectionsFirst frameFirst fetched r k final.
  assert (EA : run detectionsFirst st = correlated getTime f (d :: ds) st)
    by (apply detections_then_frame; assumption).
  assert (EB : run frameFirst st = correlated getTime f (d :: ds) st)
    by (apply frame_then_detections; assumption).
  set (mid := correlated getTime f (d :: ds) st) in *.
  assert (Hk : suspended mid !! length (suspended st) = Some k)
    by (apply list_lookup_middle; reflexivity).
  assert (Efinal : final = step mid fetched).
  { subst final. rewrite run_app, EA. reflexivity. }
  assert (Hstore : store final !! r = Some (aggregateOf (f_id f) (d :: ds))
                   ∧ suspended final = suspended st
                   ∧ detections final
                     = (if isStale k (detections st) then detections st
                        else <[f_stream_id f :=
                                 cardOf k (fetchImage (f_id f) out).1]>
                               (detections st))).
  { rewrite Efinal. subst fetched. rewrite (step_ImageFetched _ _ _ _ k _ Hk).
    set (st1 := foldl _ _ _).
    destruct (logged_frame
                (fetchImage (f_id (s_frameData k)) out).2
                (set_suspended (delete (length (suspended st)) (suspended mid))
                   mid))
      as (Ed & Es & _ & _ & Est).
    fold st1 in Ed, Es, Est. simpl in Ed, Es, Est.
    destruct (resumeFrameEvent_fields alertsEnabled k
                (fetchImage (f_id (s_frameData k)) out).1 st1)
      as (-> & _ & -> & _ & -> & _).
    rewrite Ed, Es, Est, delete_middle, app_nil_r.
    repeat split. apply list_lookup_middle. reflexivity. }
  destruct Hstore as (Hstore & Hsusp & Hdet).
  repeat split.
  - rewrite EA, EB. reflexivity.
  - rewrite EA. reflexivity.
  - rewrite EA. reflexivity.
  - rewrite run_app, EB. symmetry. exact Efinal.
  - exact Hsusp.
  - exact Hstore.
  - destruct (aggregate_detections (d :: ds) (emptyFrameDetections (f_id f)))
      as [E _]. exact E.
  - rewrite Hdet, H. apply lookup_insert_eq.
  - unfold slotAggregate. rewrite Hdet, H, lookup_insert_eq. simpl.
    exact Hstore.
Qed.

(** The detections of a frame, its frame event and its image, delivered to
    a state with nothing buffered or parked for the frame. *)
Lemma delivered_and_fetched (f : FrameEventData) (d : DetectionEventData)
    (ds : list DetectionEventData) (out : FetchOutcome) (st : State) :
  JS.falsy_str (f_stream_id f) = false →
  JS.falsy_str (f_id f) = false →
  Forall (λ d, d_frame_id d = f_id f) (d :: ds) →
  pendingDetections st !! f_id f = None →
  pendingFrames st !! f_id f = None →
  let r := length (store st) in
  let k := mkSuspended f r (getTime (f_timestamp f)) in
  let final := run (map detectionMessage (d :: ds)
                      ++ [frameMessage f;
                          ImageFetched (length (suspended st)) out]) st in
  store final !! r = Some (aggregateOf (f_id f) (d :: ds))
  ∧ suspended final = suspended st
  ∧ detections final
    = (if isStale k (detections st) then detections st
       else <[f_stream_id f := cardOf k (fetchImage (f_id f) out).1]>
              (detections st))
  ∧ (∀ r0, r0 < length (store st) → store final !! r0 = store st !! r0).
Proof.
  intros Hs Hf Hall Hpd Hpf r k final.
  assert (EA : run (map detectionMessage (d :: ds) ++ [frameMessage f]) st
               = correlated getTime f (d :: ds) st)
    by (apply detections_then_frame; assumption).
  set (mid := correlated getTime f (d :: ds) st) in *.
  assert (Hk : suspended mid !! length (suspended st) = Some k)
    by (apply list_lookup_middle; reflexivity).
  assert (Efinal : final
                   = step mid (ImageFetched (length (suspended st)) out)).
  { subst final.
    change [frameMessage f; ImageFetched (length (suspended st)) out]
      with ([frameMessage f] ++ [ImageFetched (length (suspended st)) out]).
    rewrite (assoc_L (++)), run_app, EA. reflexivity. }
  rewrite Efinal. rewrite (step_ImageFetched _ _ _ _ k _ Hk).
  set (st1 := foldl _ _ _).
  destruct (logged_frame
              (fetchImage (f_id (s_frameData k)) out).2
              (set_suspended (delete (length (suspended st)) (suspended mid))
                 mid))
    as (Ed & Es & _ & _ & Est).
  fold st1 in Ed, Es, Est. simpl in Ed, Es, Est.
  destruct (resumeFrameEvent_fields alertsEnabled k
              (fetchImage (f_id (s_frameData k)) out).1 st1)
    as (-> & _ & -> & _ & -> & _).
  rewrite Ed, Es, Est, delete_middle, app_nil_r.
  split; [apply list_lookup_middle; reflexivity|].
  split; [reflexivity|]. split; [reflexivity|].
  intros r0 Hr0. apply lookup_app_l. exact Hr0.
Qed.

(** *** A completed frame and its aggregate *)

(** With timestamps that parse, a slot keeps the card it holds or gets a
    card with a strictly newer timestamp. *)
Lemma step_slot_same_or_newer (e : Event) (st : State) (s : string)
    (c c0 : DetectionCard) (t : Z) :
  timestampsParse getTime st →
  messageTimestamp c = Some t →
  detections st !! s = Some c0 →
  c0 = c ∨ (∃ t0, messageTimestamp c0 = Some t0 ∧ (t < t0)%Z) →
  ∃ c1, detections (step st e) !! s = Some c1
        ∧ (c1 = c ∨ ∃ t1, messageTimestamp c1 = Some t1 ∧ (t < t1)%Z).
Proof.
  intros (Hd & Hs & _) Ht Hc0 Hrel.
  destruct e as [p|i o].
  - exists c0. simpl. rewrite (onmessage_detections getTime).
    split; assumption.
  - destruct (suspended st !! i) as [k|] eqn:Hk.
    2: { exists c0. unfold step. rewrite Hk. split; assumption. }
    rewrite (step_ImageFetched _ _ _ _ k _ Hk).
    set (st1 := foldl _ _ _).
    destruct (logged_frame (fetchImage (f_id (s_frameData k)) o).2
                (set_suspended (delete i (suspended st)) st)) as (Ed & _).
    fold st1 in Ed. simpl in Ed.
    destruct (resumeFrameEvent_fields alertsEnabled k
                (fetchImage (f_id (s_frameData k)) o).1 st1) as (-> & _).
    rewrite Ed. destruct (isStale k (detections st)) eqn:Hstale.
    { exists c0. split; assumption. }
    destruct (decide (f_stream_id (s_frameData k) = s)) as [<-|Hne].
    2: { exists c0. rewrite lookup_insert_ne by exact Hne.
         split; assumption. }
    rewrite lookup_insert_eq. eexists. split; [reflexivity|]. right.
    unfold isStale in Hstale. rewrite Hc0 in Hstale.
    destruct (Forall_lookup_1 _ _ _ _ Hs Hk) as [tk Htk].
    destruct (Hd _ _ Hc0) as [t0 Ht0].
    exists tk. split; [exact Htk|].
    rewrite Htk, Ht0 in Hstale. simpl in Hstale.
    destruct Hrel as [->|(t0' & Ht0' & Hlt)].
    + rewrite Ht in Ht0. injection Ht0 as <-. lia.
    + rewrite Ht0 in Ht0'. injection Ht0' as <-. lia.
Qed.

Lemma run_slot_same_or_newer (es : list Event) (st : State) (s : string)
    (c c0 : DetectionCard) (t : Z) :
  Forall (parseable getTime) es →
  timestampsParse getTime st →
  messageTimestamp c = Some t →
  detections st !! s = Some c0 →
  c0 = c ∨ (∃ t0, messageTimestamp c0 = Some t0 ∧ (t < t0)%Z) →
  ∃ c1, detections (run es st) !! s = Some c1
        ∧ (c1 = c ∨ ∃ t1, messageTimestamp c1 = Some t1 ∧ (t < t1)%Z).
Proof.
  intros Hes. revert st c0.
  induction Hes as [|e es He _ IH]; intros st c0 Hst Ht Hc0 Hrel.
  - exists c0. split; assumption.
  - destruct (step_slot_same_or_newer e st s c c0 t Hst Ht Hc0 Hrel)
      as (c1 & Hc1 & Hrel1).
    exact (IH (step st e) c1 (step_parse getTime alertsEnabled e st He Hst)
             Ht Hc1 Hrel1).
Qed.

(** C4, in the form that holds of the code: once a frame has been
    completed into a slot, its aggregate is frozen.  For a card that a slot
    holds after any run from the initial state, the aggregate it refers to
    exists, has left the pending-detections buffer, and however the run goes
    on it keeps its detection list, its label map and its count, and never
    enters the buffer again, the only place where [handleDetectionEvent]
    finds the aggregates it writes to; in any state, a step writes to an
    aggregate only while it is in the buffer.  A step leaves a slot's card
    as it is, same frame with the same aggregate, or replaces it whole by
    the card of a suspended completion that passes the staleness check.
    When the timestamps of all frame events parse, the slot later holds the
    very card or a card with a strictly newer timestamp, so the same frame
    event is never in a slot with another aggregate.  But a frame event of
    the same frame that is not stale against the card (its timestamp is
    newer, or one of the two does not parse) does replace the card: when
    nothing is buffered or parked for the frame, detections of the frame
    that come after the completion, then such a frame event and its image,
    leave the slot with that frame event and a new aggregate of these
    detections alone, the first aggregate being as it was. *)
Theorem completed_aggregate_frozen
    (es1 es2 : list Event) (s : string) (c : DetectionCard) :
  detections (run es1 init) !! s = Some c →
  let r := detections_ref (frameData c) in
  let st := run es1 init in
  let st' := run (es1 ++ es2) init in
  is_Some (store st !! r)
  ∧ store st' !! r = store st !! r
  ∧ (∀ key, pendingDetections st !! key ≠ Some r)
  ∧ (∀ key, pendingDetections st' !! key ≠ Some r)
  ∧ (∀ (st0 : State) e r0 o, store st0 !! r0 = Some o →
                             store (step st0 e) !! r0 ≠ Some o →
                             ∃ key, pendingDetections st0 !! key = Some r0)
  ∧ (∀ e c', detections (step st e) !! s = Some c' →
             c' = c
             ∨ ∃ i k img, suspended st !! i = Some k
                          ∧ c' = cardOf k img
                          ∧ isStale k (detections st) = false)
  ∧ (Forall (parseable getTime) (es1 ++ es2) →
     (∃ c', detections st' !! s = Some c'
            ∧ (c' = c
               ∨ ∃ t t', messageTimestamp c = Some t
                         ∧ messageTimestamp c' = Some t' ∧ (t < t')%Z))
     ∧ (∀ s' c', detections st' !! s' = Some c' →
                 frame (frameData c') = frame (frameData c) →
                 s' = s ∧ c' = c))
  ∧ (∀ (f' : FrameEventData) (d : DetectionEventData)
       (ds : list DetectionEventData) (out : FetchOutcome),
       f_id f' = f_id (frame (frameData c)) →
       f_stream_id f' = s →
       JS.falsy_str (f_stream_id f') = false →
       JS.falsy_str (f_id f') = false →
       Forall (λ d, d_frame_id d = f_id f') (d :: ds) →
       pendingDetections st !! f_id f' = None →
       pendingFrames st !! f_id f' = None →
       JS.time_le (getTime (f_timestamp f')) (messageTimestamp c) = false →
       let again := run (map detectionMessage (d :: ds)
                           ++ [frameMessage f';
                               ImageFetched (length (suspended st)) out]) st in
       detections again !! s
       = Some (mkDetectionCard
                 (mkFrameData f' (orUndefined (fetchImage (f_id f') out).1)
                    (length (store st)))
                 (getTime (f_timestamp f')))
       ∧ length (store st) ≠ r
       ∧ slotAggregate again s = Some (aggregateOf (f_id f') (d :: ds))
       ∧ detections_of (aggregateOf (f_id f') (d :: ds))
         = map toDetection (d :: ds)
       ∧ store again !! r = store st !! r).
Proof.
  intros Hc r st st'.
  assert (Hwf : wellFormed st) by apply run_wellFormed, wellFormed_init.
  assert (Hret : retired r st) by (destruct Hwf as (_ & _ & H3); exact (H3 _ _ Hc)).
  assert (Hst' : st' = run es2 st) by apply run_app.
  destruct (run_retired es2 st r Hret) as [[_ Hnot'] Hsame].
  assert (Hnewer : Forall (parseable getTime) (es1 ++ es2) →
            ∃ t c', messageTimestamp c = Some t
                    ∧ detections st' !! s = Some c'
                    ∧ (c' = c ∨ ∃ t', messageTimestamp c' = Some t'
                                      ∧ (t < t')%Z)).
  { intros [Hes1 Hes2]%Forall_app.
    pose proof (run_parse getTime alertsEnabled es1 init Hes1
                  (timestampsParse_init getTime)) as Hparse.
    fold st in Hparse.
    destruct (proj1 Hparse _ _ Hc) as [t Ht]. exists t.
    destruct (run_slot_same_or_newer es2 st s c c t Hes2 Hparse Ht Hc
                (or_introl eq_refl)) as (c' & Hc' & Hrel).
    exists c'. rewrite Hst'. repeat split; assumption. }
  split; [apply lookup_lt_is_Some; apply Hret|].
  split; [rewrite Hst'; exact Hsame|].
  split; [apply Hret|].
  split; [rewrite Hst'; exact Hnot'|].
  split; [intros st0 e; apply step_writes_only_buffered|].
  assert (Hown : ∀ es s0 c0, detections (run es init) !! s0 = Some c0 →
            f_stream_id (frame (frameData c0)) = s0
            ∧ messageTimestamp c0 = getTime (f_timestamp (frame (frameData c0)))).
  { intros es s0 c0 H0. destruct (run_framesOwn es) as [_ Hd].
    exact (Hd _ _ H0). }
  split; [|split].
  - change (detections st !! s = Some c) in Hc. clearbody st.
    intros e c'. destruct e as [p|i o].
    + simpl. rewrite onmessage_detections, Hc.
      intros [= <-]. left. reflexivity.
    + destruct (suspended st !! i) as [k|] eqn:Hk.
      2: { unfold step. rewrite Hk, Hc. intros [= <-]. left.
           reflexivity. }
      rewrite (step_ImageFetched _ _ _ _ k _ Hk).
      set (st1 := foldl _ _ _).
      destruct (logged_frame (fetchImage (f_id (s_frameData k)) o).2
                  (set_suspended (delete i (suspended st)) st)) as (Ed & _).
      fold st1 in Ed. simpl in Ed.
      destruct (resumeFrameEvent_fields alertsEnabled k
                  (fetchImage (f_id (s_frameData k)) o).1 st1) as (-> & _).
      rewrite Ed. destruct (isStale k (detections st)) eqn:Hstale.
      * rewrite Hc. intros [= <-]. left. reflexivity.
      * intros [[_ <-]|[_ Hc']]%lookup_insert_Some.
        -- right. eexists i, k, _. repeat split; [exact Hk|exact Hstale].
        -- left. congruence.
  - intros Hes. destruct (Hnewer Hes) as (t & c1 & Ht & Hc1 & Hrel).
    split.
    + exists c1. split; [exact Hc1|].
      destruct Hrel as [->|(t' & Ht' & Hlt)]; [left; reflexivity|].
      right. exists t, t'. repeat split; assumption.
    + intros s' c' Hc' Hframe.
      destruct (Hown (es1 ++ es2) s' c' Hc') as [Hs' Hts'].
      destruct (Hown es1 s c Hc) as [Hs Hts].
      assert (s' = s) as -> by congruence.
      split; [reflexivity|].
      fold st' in Hc1. rewrite Hc' in Hc1. injection Hc1 as <-.
      destruct Hrel as [->|(t' & Ht' & Hlt)]; [reflexivity|].
      rewrite Hts', Hframe, <- Hts, Ht in Ht'. injection Ht' as <-. lia.
  - intros f' d ds out Hid Hstream Hs Hf Hall Hpd Hpf Hfresh again.
    assert (Hstale : isStale (mkSuspended f' (length (store st))
                                (getTime (f_timestamp f')))
                       (detections st) = false).
    { unfold isStale. simpl. rewrite Hstream. fold st in Hc. rewrite Hc.
      exact Hfresh. }
    destruct (delivered_and_fetched f' d ds out st Hs Hf Hall Hpd Hpf)
      as (Hstore & _ & Hdet & Hold).
    fold again in Hstore, Hdet, Hold. rewrite Hstale in Hdet.
    assert (Hlt : r < length (store st)) by apply Hret.
    split; [rewrite Hdet, Hstream; apply lookup_insert_eq|].
    split; [lia|].
    split.
    { unfold slotAggregate. rewrite Hdet, Hstream, lookup_insert_eq. simpl.
      exact Hstore. }
    split.
    { destruct (aggregate_detections (d :: ds)
                  (emptyFrameDetections (f_id f'))) as [E _]. exact E. }
    apply Hold. exact Hlt.
Qed.

End Correlation.

(** ** Reconnection *)

Section Reconnect.

Import Connection.

Lemma closeCurrent_fields (st : State) :
  eventSourceRef (closeCurrent st) = None
  ∧ length (sources (closeCurrent st)) = length (sources st)
  ∧ isLive (closeCurrent st) = isLive st
  ∧ timers (closeCurrent st) = timers st.
Proof.
  unfold closeCurrent. destruct (eventSourceRef st) eqn:E; simpl;
    rewrite ?length_alter; repeat split; assumption.
Qed.

Lemma closeCurrent_None (st : State) :
  eventSourceRef st = None → closeCurrent st = st.
Proof. intros H. unfold closeCurrent. rewrite H. reflexivity. Qed.

(** [connect] in a live closure opens a new [EventSource] and makes it the
    current one. *)
Lemma connect_live (st : State) :
  let st' := connect true st in
  eventSourceRef st' = Some (length (sources st))
  ∧ sources st' !! length (sources st) = Some (mkEventSource CONNECTING true)
  ∧ length (sources st') = S (length (sources st))
  ∧ status st' = "Connecting...".
Proof.
  unfold connect. simpl.
  destruct (closeCurrent_fields (set_status "Connecting..." st))
    as (_ & Hlen & _).
  simpl in Hlen. rewrite Hlen, length_app. simpl.
  repeat split; [|lia|].
  - apply list_lookup_middle. symmetry. exact Hlen.
  - unfold closeCurrent. simpl. destruct (eventSourceRef st); reflexivity.
Qed.

(** While paused, with no current connection, nothing but [SetLive true]
    opens a connection. *)
Lemma step_paused (e : Event) (st : State) :
  e ≠ SetLive true →
  isLive st = false →
  eventSourceRef st = None →
  isLive (step st e) = false
  ∧ eventSourceRef (step st e) = None
  ∧ length (sources (step st e)) = length (sources st).
Proof.
  intros He Hl Hr. destruct e as [i|i fatal|j|b|]; simpl.
  - destruct (sources st !! i) as [es|]; [|repeat split; assumption].
    destruct (isClosed (readyState es)); simpl;
      rewrite ?length_insert; repeat split; assumption.
  - destruct (sources st !! i) as [es|]; [|repeat split; assumption].
    destruct (isClosed (readyState es)); simpl;
      rewrite ?length_insert; repeat split; assumption.
  - destruct (timers st !! j) as [t|]; [|repeat split; assumption].
    unfold reconnect. simpl. rewrite Hr. simpl. repeat split; assumption.
  - destruct b; [congruence|]. rewrite Hl. simpl. repeat split; assumption.
  - rewrite closeCurrent_None by exact Hr. repeat split; assumption.
Qed.

Lemma run_paused (es : list Event) (st : State) :
  Forall (λ e, e ≠ SetLive true) es →
  isLive st = false →
  eventSourceRef st = None →
  isLive (run es st) = false
  ∧ eventSourceRef (run es st) = None
  ∧ length (sources (run es st)) = length (sources st).
Proof.
  intros Hes. revert st. induction Hes as [|e es He _ IH]; intros st Hl Hr;
    [repeat split; assumption|].
  destruct (step_paused e st He Hl Hr) as (Hl' & Hr' & Hlen').
  destruct (IH (step st e) Hl' Hr') as (Hl'' & Hr'' & Hlen'').
  simpl. fold (run es (step st e)). rewrite <- Hlen'.
  repeat split; assumption.
Qed.

Lemma pause_closes (st : State) :
  isLive st = true →
  isLive (step st (SetLive false)) = false
  ∧ eventSourceRef (step st (SetLive false)) = None
  ∧ status (step st (SetLive false)) = "Paused"
  ∧ length (sources (step st (SetLive false))) = length (sources st).
Proof.
  intros Hl. simpl. rewrite Hl. simpl.
  destruct (closeCurrent_fields st) as (Hr & Hlen & _).
  rewrite (closeCurrent_None (set_isLive false (closeCurrent st)))
    by exact Hr.
  simpl. repeat split; assumption.
Qed.

(** C9, in the form that holds of the code: a transport error on a
    connection that is not closed sets the status to "Connection error -
    reconnecting..." and schedules one timer of 1000 ms, without connecting.
    When the timer fires, [connect] is called, and opens a new connection,
    if the manager still holds a current connection, that connection's
    readyState is CLOSED (the browser has given up on it), and the closure
    is a live one; if the current connection is open or being reopened by
    the browser, or there is none, the callback does nothing. After
    [setLive(false)] on a live manager there is no current connection until
    [setLive(true)], so a timer that fires in between calls no [connect] and
    opens no connection. *)
Theorem reconnect_after_error
    (st : State) (i j : nat) (fatal : bool) (es : EventSource) (t : Timer)
    (between : list Event) :
  (sources st !! i = Some es → isClosed (readyState es) = false →
   let st' := step st (Failed i fatal) in
   status st' = "Connection error - reconnecting..."
   ∧ timers st' = timers st ++ [mkTimer 1000 (es_isLive es)]
   ∧ eventSourceRef st' = eventSourceRef st
   ∧ length (sources st') = length (sources st))
  ∧ (timers st !! j = Some t →
     let st0 := set_timers (delete j (timers st)) st in
     (eventSourceRef st = Some i → sources st !! i = Some es →
      readyState es = CLOSED → t_isLive t = true →
      step st (TimerFired j) = connect true st0
      ∧ length (sources (step st (TimerFired j))) = S (length (sources st)))
     ∧ (eventSourceRef st = Some i → sources st !! i = Some es →
        readyState es ≠ CLOSED → step st (TimerFired j) = st0)
     ∧ (eventSourceRef st = None → step st (TimerFired j) = st0)
   ∧ (t_isLive t = false → step st (TimerFired j) = st0))
  ∧ (isLive st = true → Forall (λ e, e ≠ SetLive true) between →
     let paused := run (SetLive false :: between) st in
     eventSourceRef paused = None
     ∧ length (sources paused) = length (sources st)
     ∧ step paused (TimerFired j)
       = match timers paused !! j with
         | Some _ => set_timers (delete j (timers paused)) paused
         | None => paused
         end).
Proof.
  split; [|split].
  - intros Hi Hopen. simpl. rewrite Hi, Hopen. simpl.
    rewrite length_insert. repeat split.
  - intros Hj st0. simpl. rewrite Hj. fold st0. unfold reconnect.
    assert (Hr : eventSourceRef st0 = eventSourceRef st) by reflexivity.
    assert (Hs : sources st0 = sources st) by reflexivity.
    rewrite Hr, Hs. split; [|split; [|split]].
    + intros -> Hes Hclosed Hlive. simpl. rewrite Hes, Hclosed, Hlive. simpl.
      split; [reflexivity|].
      destruct (connect_live st0) as (_ & _ & Hlen & _). exact Hlen.
    + intros -> Hes Hopen. simpl. rewrite Hes.
      destruct (readyState es); [reflexivity|reflexivity|congruence].
    + intros ->. reflexivity.
    + intros ->. destruct (eventSourceRef st) as [i'|]; [|reflexivity]. simpl.
      destruct (sources st !! i') as [es'|]; [|reflexivity].
      destruct (isClosed (readyState es')); reflexivity.
  - intros Hl Hes paused.
    destruct (pause_closes st Hl) as (Hl1 & Hr1 & _ & Hlen1).
    destruct (run_paused between (step st (SetLive false)) Hes Hl1 Hr1)
      as (Hl2 & Hr2 & Hlen2).
    change (run between (step st (SetLive false))) with paused in *.
    repeat split; [exact Hr2|congruence|].
    simpl. destruct (timers paused !! j); [|reflexivity].
    unfold reconnect. simpl. rewrite Hr2. reflexivity.
Qed.

End Reconnect.

(** * The statements at sample events *)

Section Instances.

Import Sample.
#[local] Abbreviation run := (run ISO.isoTime false).
#[local] Abbreviation step := (step ISO.isoTime false).

Lemma isoTime_samples :
  ISO.isoTime "2025-01-01T00:00:00Z" = Some 1735689600000%Z
  ∧ ISO.isoTime second1 = Some 1735689601000%Z
  ∧ ISO.isoTime second2 = Some 1735689602000%Z
  ∧ ISO.isoTime garbage = None.
Proof. vm_compute. repeat split. Qed.

(** The end-to-end scenario: one detection, then its frame, then the
    image. *)
Lemma end_to_end :
  let st := run [detectionMessage truck; frameMessage f1;
                 ImageFetched 0 loaded] init in
  messageTimestamp <$> detections st !! "cam1" = Some (Some 1735689600000%Z)
  ∧ (λ o, (detectionCount o, labels o)) <$> slotAggregate st "cam1"
    = Some (1, ({[ "truck" := 0.92%float ]} : gmap string float)).
Proof. vm_compute. repeat split. Qed.

(** C1, witness: the truck and the car of frame f1, then the frame, or the
    frame and then both; the image arrives last. *)
Lemma order_independence_witness :
  let detectionsFirst :=
    [detectionMessage truck; detectionMessage car; frameMessage f1;
     ImageFetched 0 loaded] in
  let frameFirst :=
    [frameMessage f1; detectionMessage truck; detectionMessage car;
     ImageFetched 0 loaded] in
  run frameFirst init = run detectionsFirst init
  ∧ suspended (run detectionsFirst init) = []
  ∧ slotAggregate (run detectionsFirst init) "cam1"
    = Some (aggregateOf "f1" [truck; car]).
Proof.
  pose proof (order_independence ISO.isoTime false f1 truck [car] loaded init
                eq_refl eq_refl ltac:(repeat constructor) eq_refl eq_refl)
    as (_ & _ & _ & Hsame & Hdone & _ & _ & Hslot).
  specialize (Hslot eq_refl) as [_ Hagg].
  intros detectionsFirst frameFirst.
  split; [exact Hsame|split; [exact Hdone|exact Hagg]].
Defined.

(** C1, counterexample: with the frame first and the image fetched before
    the second detection arrives, the completed frame holds the truck
    only; with the detections first it holds the truck and the car. *)
Lemma order_dependence_when_image_arrives_early :
  let detectionsFirst :=
    [detectionMessage truck; detectionMessage car; frameMessage f1;
     ImageFetched 0 loaded] in
  let frameFirst :=
    [frameMessage f1; detectionMessage truck; ImageFetched 0 loaded;
     detectionMessage car] in
  detections_of <$> slotAggregate (run detectionsFirst init) "cam1"
  = Some [toDetection truck; toDetection car]
  ∧ detections_of <$> slotAggregate (run frameFirst init) "cam1"
    = Some [toDetection truck]
  ∧ labels <$> slotAggregate (run detectionsFirst init) "cam1"
    = Some ({[ "truck" := 0.92%float; "car" := 0.87%float ]}
              : gmap string float)
  ∧ labels <$> slotAggregate (run frameFirst init) "cam1"
    = Some ({[ "truck" := 0.92%float ]} : gmap string float).
Proof. vm_compute. repeat split. Qed.

(** C2, witness: a frame of second 1 and then a frame of second 2; a frame
    of second 1 completing when the slot holds second 2; and the two frames
    applied to the initial state in either order. *)
Lemma slot_timestamp_monotone_witness :
  let earlier := completed "fA" second1 in
  let later := completed "fB" second2 in
  let late :=
    run (later ++ [detectionMessage (person "fA");
                   frameMessage (frameAt "fA" second1)]) init in
  let k1 := mkSuspended (frameAt "fA" second1) 0 (Some 1735689601000%Z) in
  let k2 := mkSuspended (frameAt "fB" second2) 1 (Some 1735689602000%Z) in
  (∃ c2 t1 t2,
     detections (run (earlier ++ later) init) !! "cam1" = Some c2
     ∧ messageTimestamp (card "fA" second1 0 1735689601000) = Some t1
     ∧ messageTimestamp c2 = Some t2
     ∧ (t1 ≤ t2)%Z)
  ∧ detections (step late (ImageFetched 0 FetchRejected)) = detections late
  ∧ detections (resumeFrameEvent false k2 None (resumeFrameEvent false k1 None init))
      !! "cam1" = Some (cardOf k2 None)
  ∧ detections (resumeFrameEvent false k1 None (resumeFrameEvent false k2 None init))
      !! "cam1" = Some (cardOf k2 None).
Proof.
  intros earlier later late k1 k2.
  pose proof (slot_timestamp_monotone ISO.isoTime false) as (Ha & Hb & Hc).
  split; [|split].
  - apply (Ha earlier later "cam1" (card "fA" second1 0 1735689601000)).
    + repeat (apply Forall_cons; split; [simpl; eauto|]). apply Forall_nil_2.
    + vm_compute. reflexivity.
  - apply (Hb late 0 (mkSuspended (frameAt "fA" second1) 1 (Some 1735689601000%Z))
             FetchRejected (card "fB" second2 0 1735689602000)
             1735689601000%Z 1735689602000%Z);
      [vm_compute; reflexivity..|lia].
  - apply (Hc init k1 k2 None None 1735689601000%Z 1735689602000%Z);
      [reflexivity..|lia|reflexivity].
Defined.

(** C2, counterexample: the slot holds the frame of second 2; a frame whose
    timestamp does not parse replaces it; then the frame of second 1, older
    than the one stored before, takes the slot. *)
Lemma slot_goes_back_after_unparseable_timestamp :
  let first := completed "fA" second2 in
  let rest := completed "fB" garbage ++ completed "fC" second1 in
  messageTimestamp <$> detections (run first init) !! "cam1"
  = Some (Some 1735689602000%Z)
  ∧ messageTimestamp <$> detections (run (first ++ completed "fB" garbage) init)
                           !! "cam1"
    = Some None
  ∧ messageTimestamp <$> detections (run (first ++ rest) init) !! "cam1"
    = Some (Some 1735689601000%Z)
  ∧ frame ∘ frameData <$> detections (run (first ++ rest) init) !! "cam1"
    = Some (frameAt "fC" second1).
Proof. vm_compute. repeat split. Qed.

(** C3, witness: frame f1 arrives and never gets a detection, while frame f2
    is completed. *)
Lemma zero_detection_frames_never_surfaced_witness :
  let es := [frameMessage f1; detectionMessage (person "f2");
             frameMessage (frameAt "f2" second1); ImageFetched 0 loaded] in
  (∀ s c, detections (run es init) !! s = Some c →
          f_id (frame (frameData c)) ≠ "f1")
  ∧ detections (step init (frameMessage f1)) = detections init
  ∧ pendingFrames (step init (frameMessage f1)) !! "f1" = Some f1.
Proof.
  intros es.
  pose proof (zero_detection_frames_never_surfaced ISO.isoTime false es f1 init)
    as [Hrun Hstep].
  split.
  - apply Hrun.
    repeat (apply Forall_cons; split; [simpl; try tauto; discriminate|]).
    apply Forall_nil_2.
  - specialize (Hstep eq_refl eq_refl eq_refl) as (Hd & _ & _ & Hp).
    split; [exact Hd|exact Hp].
Defined.

(** C5, witness: the truck of frame f1 is buffered; then the car of f1 is
    reported with 87, or with 0.87. *)
Lemma confidence_normalization_witness :
  let reached := run [detectionMessage truck] init in
  let before := default (emptyFrameDetections "f1")
                  (pendingAggregate reached "f1") in
  JS.falsy_str (d_frame_id car) = false
  ∧ labels before !! "car" = None
  ∧ (∃ o', pendingAggregate (handleDetectionEvent ISO.isoTime car reached) "f1"
           = Some o'
           ∧ detections_of o' = detections_of before ++ [toDetection car]
           ∧ labels o' = <["car" := 0.87%float]> (labels before))
  ∧ (pendingAggregate
       (handleDetectionEvent ISO.isoTime (withConfidence 87%float car) reached)
       "f1" ≫= λ o', labels o' !! "car") = Some 0.87%float
  ∧ (pendingAggregate
       (handleDetectionEvent ISO.isoTime (withConfidence 0.87%float car) reached)
       "f1" ≫= λ o', labels o' !! "car") = Some 0.87%float.
Proof.
  intros reached before.
  pose proof (confidence_normalization ISO.isoTime false car
                (emptyFrameDetections "f1") init [detectionMessage truck])
    as H.
  cbv zeta in H. destruct H as (_ & _ & _ & _ & _ & _ & _ & H).
  destruct (H eq_refl) as ((o' & Ho' & Hdets & _ & Hlabels) & _ & Hfirst).
  assert (Hnone : labels before !! "car" = None) by (vm_compute; reflexivity).
  destruct (Hfirst Hnone) as [H87 H087].
  split; [reflexivity|]. split; [exact Hnone|].
  split; [|split; [exact H87|exact H087]].
  exists o'. split; [exact Ho'|]. split; [exact Hdets|].
  rewrite Hlabels. vm_compute. reflexivity.
Defined.

(** C4, witness: frame f1 is completed with the truck; then the car of f1
    arrives late and the frame event is delivered again.  All timestamps
    parse, and the slot keeps the card with the truck.  When instead the
    frame is sent again one second later, the slot gets that frame event
    with the car alone. *)
Lemma completed_aggregate_frozen_witness :
  let es1 := [detectionMessage truck; frameMessage f1; ImageFetched 0 loaded] in
  let es2 := [detectionMessage car; frameMessage f1; ImageFetched 0 loaded] in
  let c := card "f1" "2025-01-01T00:00:00Z" 0 1735689600000 in
  let later := frameAt "f1" second1 in
  let again := run [detectionMessage car; frameMessage later;
                    ImageFetched 0 loaded] (run es1 init) in
  detections (run es1 init) !! "cam1" = Some c
  ∧ Forall (parseable ISO.isoTime) (es1 ++ es2)
  ∧ store (run (es1 ++ es2) init) !! 0 = store (run es1 init) !! 0
  ∧ (∀ key, pendingDetections (run (es1 ++ es2) init) !! key ≠ Some 0)
  ∧ (∀ s' c', detections (run (es1 ++ es2) init) !! s' = Some c' →
              frame (frameData c') = frame (frameData c) →
              s' = "cam1" ∧ c' = c)
  ∧ JS.time_le (ISO.isoTime (f_timestamp later)) (messageTimestamp c) = false
  ∧ slotAggregate again "cam1" = Some (aggregateOf "f1" [car])
  ∧ store again !! 0 = store (run es1 init) !! 0.
Proof.
  intros es1 es2 c later again.
  assert (Hc : detections (run es1 init) !! "cam1" = Some c)
    by (vm_compute; reflexivity).
  assert (Hes : Forall (parseable ISO.isoTime) (es1 ++ es2)).
  { repeat (apply Forall_cons_2; [first [exact I|eexists; vm_compute; reflexivity]|]).
    apply Forall_nil_2. }
  assert (Hfresh : JS.time_le (ISO.isoTime (f_timestamp later))
                     (messageTimestamp c) = false)
    by (vm_compute; reflexivity).
  pose proof (completed_aggregate_frozen ISO.isoTime false es1 es2 "cam1" c Hc)
    as (_ & Hsame & _ & Hnot & _ & _ & Hparse & Hagain).
  destruct (Hparse Hes) as [_ Honly].
  assert (Hall : Forall (λ d, d_frame_id d = f_id later) [car]).
  { apply Forall_cons_2; [reflexivity|apply Forall_nil_2]. }
  destruct (Hagain later car [] loaded eq_refl eq_refl eq_refl eq_refl
              Hall eq_refl eq_refl Hfresh)
    as (_ & _ & Hslot & _ & Hold).
  split; [exact Hc|]. split; [exact Hes|]. split; [exact Hsame|].
  split; [exact Hnot|]. split; [exact Honly|]. split; [exact Hfresh|].
  split; [exact Hslot|exact Hold].
Defined.

(** C4, counterexample: a completed frame is given other detections.  Frame
    f1 is completed with the truck; the car of f1 arrives late and the frame
    event is delivered again.  When its timestamp does not parse, the very
    same frame event returns to the slot with the car alone; when the frame
    is sent again under the same id with a newer timestamp, frame f1 is in
    the slot with the car alone. The aggregate of the first card is as it
    was. *)
Lemma completed_frame_given_other_detections :
  let unparsed := frameAt "f1" garbage in
  let first := [detectionMessage truck; frameMessage unparsed;
                ImageFetched 0 loaded] in
  let again := first ++ [detectionMessage car; frameMessage unparsed;
                         ImageFetched 0 loaded] in
  let later := [detectionMessage truck; frameMessage f1; ImageFetched 0 loaded;
                detectionMessage car; frameMessage (frameAt "f1" second1);
                ImageFetched 0 loaded] in
  (frame ∘ frameData <$> detections (run first init) !! "cam1") = Some unparsed
  ∧ (detections_of <$> slotAggregate (run first init) "cam1")
    = Some [toDetection truck]
  ∧ (frame ∘ frameData <$> detections (run again init) !! "cam1")
    = Some unparsed
  ∧ (detections_of <$> slotAggregate (run again init) "cam1")
    = Some [toDetection car]
  ∧ (detections_of <$> store (run again init) !! 0) = Some [toDetection truck]
  ∧ (f_id ∘ frame ∘ frameData <$> detections (run later init) !! "cam1")
    = Some "f1"
  ∧ (detections_of <$> slotAggregate (run later init) "cam1")
    = Some [toDetection car].
Proof. vm_compute. repeat split. Qed.

(** C6, witness: a frame message that carries the error "boom", followed by
    a detection. *)
Lemma server_error_message_witness :
  let m := mkMessage (Some "frame") (Some "boom") (Some (FramePayload f1)) in
  let next := Object (mkMessage (Some "detection") None (Some (DetectionPayload truck))) in
  let st' := onmessage ISO.isoTime (Object m) init in
  status st' = "Error: boom"
  ∧ console st' = [ServerError "boom"]
  ∧ sameBuffers st' init
  ∧ sameBuffers (onmessage ISO.isoTime next st') (onmessage ISO.isoTime next init).
Proof.
  intros m next st'.
  pose proof (server_error_message ISO.isoTime m "frame" "boom" init next
                eq_refl eq_refl eq_refl eq_refl)
    as (_ & Hstatus & Hconsole & Hsame & Hnext).
  split; [exact Hstatus|split; [exact Hconsole|split; [exact Hsame|exact Hnext]]].
Defined.

(** C6, counterexample: a message with an [error] and no [type] is taken for
    a keepalive, and the status stays as it was; a frame message whose
    [error] is the empty string is handled as a frame. *)
Lemma error_field_not_always_reported :
  let untyped := Object (mkMessage None (Some "boom") None) in
  let emptyError :=
    Object (mkMessage (Some "frame") (Some "") (Some (FramePayload f1))) in
  onmessage ISO.isoTime untyped init = init
  ∧ status (onmessage ISO.isoTime untyped init) = "Connecting..."
  ∧ console (onmessage ISO.isoTime untyped init) = []
  ∧ status (onmessage ISO.isoTime emptyError init) = "Connecting..."
  ∧ pendingFrames (onmessage ISO.isoTime emptyError init) !! "f1" = Some f1.
Proof. vm_compute. repeat split. Qed.

(** C7, witness: the image of frame f1 is answered with 404. *)
Lemma image_failure_degrades_witness :
  let st := run [detectionMessage truck; frameMessage f1] init in
  let failed := step st (ImageFetched 0 (ResponseNotOk "Not Found")) in
  suspended st !! 0 = Some (mkSuspended f1 0 (Some 1735689600000%Z))
  ∧ console failed = [FailedToFetchImage "f1" "Not Found"]
  ∧ detections failed !! "cam1"
    = Some (mkDetectionCard (mkFrameData f1 None 0) (Some 1735689600000%Z))
  ∧ detections_of <$> slotAggregate failed "cam1" = Some [toDetection truck].
Proof.
  intros st failed.
  assert (Hk : suspended st !! 0 = Some (mkSuspended f1 0 (Some 1735689600000%Z)))
    by (vm_compute; reflexivity).
  pose proof (image_failure_degrades ISO.isoTime false st 0 _
                (ResponseNotOk "Not Found") "" Hk eq_refl)
    as (_ & _ & Hslot & _).
  split; [exact Hk|].
  split; [vm_compute; reflexivity|].
  split; [apply Hslot; vm_compute; reflexivity|].
  vm_compute. reflexivity.
Defined.

(** C10, witness: the slot holds the frame of second 2 when a frame whose
    timestamp does not parse completes; the slot holds that frame when the
    frame of second 1 completes; and the three in a row. *)
Lemma unparseable_timestamp_bypasses_staleness_witness :
  let st := run (completed "fA" second2 ++ [detectionMessage (person "fB")]) init in
  let st' := run [frameMessage (frameAt "fB" garbage); ImageFetched 0 loaded] st in
  let st2 := run [detectionMessage (person "fC")] st' in
  let st2' := run [frameMessage (frameAt "fC" second1); ImageFetched 0 loaded] st2 in
  let older := mkSuspended (frameAt "fA" second2) 0 (Some 1735689602000%Z) in
  let unparsed := mkSuspended (frameAt "fB" garbage) 1 None in
  let newer := mkSuspended (frameAt "fC" second1) 2 (Some 1735689601000%Z) in
  messageTimestamp <$> detections st !! "cam1" = Some (Some 1735689602000%Z)
  ∧ detections st' !! "cam1"
    = Some (mkDetectionCard
              (mkFrameData (frameAt "fB" garbage)
                 (Some "data:image/jpeg;base64,AA") 1)
              None)
  ∧ detections st2' !! "cam1" = Some (card "fC" second1 2 1735689601000)
  ∧ messageTimestamp
      <$> detections
            (resumeFrameEvent false newer None
               (resumeFrameEvent false unparsed None
                  (resumeFrameEvent false older None
                     (run [detectionMessage (person "fB")] init)))) !! "cam1"
    = Some (Some 1735689601000%Z).
Proof.
  intros st st' st2 st2' older unparsed newer.
  pose proof (unparseable_timestamp_bypasses_staleness ISO.isoTime false
                (run [detectionMessage (person "fB")] init)
                (frameAt "fB" garbage) 0 (aggregateOf "fB" [person "fB"]) loaded
                eq_refl eq_refl eq_refl eq_refl ltac:(discriminate))
    as (_ & _ & Hthree).
  assert (Hr : pendingDetections st !! "fB" = Some 1) by (vm_compute; reflexivity).
  assert (Ho : store st !! 1 = Some (aggregateOf "fB" [person "fB"]))
    by (vm_compute; reflexivity).
  pose proof (unparseable_timestamp_bypasses_staleness ISO.isoTime false st
                (frameAt "fB" garbage) 1 _ loaded eq_refl eq_refl Hr Ho
                ltac:(discriminate))
    as (Hnan & _ & _).
  assert (Hr2 : pendingDetections st2 !! "fC" = Some 2) by (vm_compute; reflexivity).
  assert (Ho2 : store st2 !! 2 = Some (aggregateOf "fC" [person "fC"]))
    by (vm_compute; reflexivity).
  pose proof (unparseable_timestamp_bypasses_staleness ISO.isoTime false st2
                (frameAt "fC" second1) 2 _ loaded eq_refl eq_refl Hr2 Ho2
                ltac:(discriminate))
    as (_ & Hslot & _).
  split; [vm_compute; reflexivity|].
  split; [exact (Hnan eq_refl)|].
  split.
  - apply (Hslot (mkDetectionCard
                    (mkFrameData (frameAt "fB" garbage)
                       (Some "data:image/jpeg;base64,AA") 1)
                    None));
      [vm_compute; reflexivity|reflexivity].
  - apply (Hthree older unparsed newer None None None
             1735689602000%Z 1735689601000%Z);
      [reflexivity..|lia].
Defined.

End Instances.

Section ReconnectInstances.

Import Connection.

(** C9, witness: the first connection fails for good; after the delay the
    manager connects again, unless it was paused in between. *)
Lemma reconnect_after_error_witness :
  let failed := step mount (Failed 0 true) in
  let paused := run [SetLive false] failed in
  status failed = "Connection error - reconnecting..."
  ∧ timers failed = [mkTimer 1000 true]
  ∧ step failed (TimerFired 0) = connect true (set_timers [] failed)
  ∧ length (sources (step failed (TimerFired 0))) = 2
  ∧ eventSourceRef paused = None
  ∧ step paused (TimerFired 0) = set_timers [] paused.
Proof.
  intros failed paused.
  pose proof (reconnect_after_error mount 0 0 true (mkEventSource CONNECTING true)
                (mkTimer 1000 true) []) as (Herr & _ & _).
  specialize (Herr eq_refl eq_refl) as (Hstatus & Htimers & _).
  pose proof (reconnect_after_error failed 0 0 true (mkEventSource CLOSED true)
                (mkTimer 1000 true) []) as (_ & Hfire & Hpause).
  specialize (Hfire eq_refl) as (Hconnect & _).
  specialize (Hconnect eq_refl eq_refl eq_refl eq_refl) as (Hcall & Hlen).
  specialize (Hpause eq_refl (Forall_nil_2 _)) as (Href & _ & Hnone).
  split; [exact Hstatus|].
  split; [exact Htimers|].
  split; [exact Hcall|].
  split; [exact Hlen|].
  split; [exact Href|exact Hnone].
Defined.

(** C9, counterexample: the connection fails and the browser reopens it
    within the delay; when the timer fires the manager is live and its
    connection is open, neither closed nor reopening, and no [connect] is
    called.  It is when the connection is closed that the timer connects.
    And a [setLive(false)] in the interim does not stop the reconnect when
    live mode is resumed before the timer fires: the first connection fails
    for good, the manager is paused and resumed, the second connection fails
    for good too, and the timer of the first failure then calls [connect],
    which opens a third connection. *)
Lemma no_reconnect_when_connection_reopened :
  let failed := step mount (Failed 0 false) in
  let st := step failed (Opened 0) in
  let closed := step mount (Failed 0 true) in
  let resumed := run [Failed 0 true; SetLive false; SetLive true;
                      Failed 1 true] mount in
  status failed = "Connection error - reconnecting..."
  ∧ isLive st = true
  ∧ (eventSourceRef st ≫= λ i, readyState <$> sources st !! i) = Some OPEN
  ∧ timers st = [mkTimer 1000 true]
  ∧ step st (TimerFired 0) = set_timers [] st
  ∧ length (sources (step st (TimerFired 0))) = 1
  ∧ (eventSourceRef closed ≫= λ i, readyState <$> sources closed !! i)
    = Some CLOSED
  ∧ length (sources (step closed (TimerFired 0))) = 2
  ∧ isLive resumed = true
  ∧ length (sources resumed) = 2
  ∧ timers resumed = [mkTimer 1000 true; mkTimer 1000 true]
  ∧ step resumed (TimerFired 0)
    = connect true (set_timers [mkTimer 1000 true] resumed)
  ∧ length (sources (step resumed (TimerFired 0))) = 3
  ∧ eventSourceRef (step resumed (TimerFired 0)) = Some 2.
Proof. vm_compute. repeat split. Qed.

End ReconnectInstances.

(** * Further properties of the correlator *)

Section Robustness.

Variable getTime : string → JS.timeval.
Variable alertsEnabled : bool.

#[local] Abbreviation handleFrameEvent := (handleFrameEvent getTime).
#[local] Abbreviation handleDetectionEvent := (handleDetectionEvent getTime).
#[local] Abbreviation resumeFrameEvent := (resumeFrameEvent alertsEnabled).
#[local] Abbreviation onmessage := (onmessage getTime).
#[local] Abbreviation step := (step getTime alertsEnabled).
#[local] Abbreviation run := (run getTime alertsEnabled).

Lemma sameBuffers_refl (a : State) : sameBuffers a a.
Proof. repeat split. Qed.

Lemma sameBuffers_trans (a b c : State) :
  sameBuffers a b → sameBuffers b c → sameBuffers a c.
Proof.
  intros (? & ? & ? & ? & ? & ? & ?) (? & ? & ? & ? & ? & ? & ?).
  repeat split; congruence.
Qed.

Lemma log_sameBuffers (e : LogEntry) (a b : State) :
  sameBuffers a b → sameBuffers (log e a) b.
Proof. intros H. exact H. Qed.

Lemma resumeFrameEvent_sameBuffers (k : Suspended) (img : option string)
    (a b : State) :
  sameBuffers a b →
  sameBuffers (resumeFrameEvent k img a) (resumeFrameEvent k img b).
Proof.
  destruct a, b. unfold sameBuffers. simpl.
  intros (-> & -> & -> & -> & -> & -> & ->).
  unfold resumeFrameEvent. simpl.
  repeat case_match; simpl; repeat split.
Qed.

Lemma step_sameBuffers (e : Event) (a b : State) :
  sameBuffers a b → sameBuffers (step a e) (step b e).
Proof.
  intros H. destruct e as [p|i o].
  - apply onmessage_sameBuffers, H.
  - unfold step.
    assert (Hs : suspended a = suspended b) by apply H.
    rewrite Hs. destruct (suspended b !! i) as [k|]; [|exact H].
    destruct (fetchImage (f_id (s_frameData k)) o) as [img logged].
    apply resumeFrameEvent_sameBuffers.
    assert (H1 : sameBuffers (set_suspended (delete i (suspended b)) a)
                   (set_suspended (delete i (suspended b)) b)).
    { destruct H as (? & ? & ? & ? & ? & ? & ?). repeat split; assumption. }
    revert H1. generalize (set_suspended (delete i (suspended b)) a).
    generalize (set_suspended (delete i (suspended b)) b).
    induction logged as [|e l IH]; intros b0 a0 H0; [exact H0|].
    simpl. apply IH. exact H0.
Qed.

Lemma run_sameBuffers (es : list Event) (a b : State) :
  sameBuffers a b → sameBuffers (run es a) (run es b).
Proof.
  revert a b. induction es as [|e es IH]; intros a b H; [exact H|].
  apply IH, step_sameBuffers, H.
Qed.

Lemma dropped_sameBuffers (p : Payload) (st : State) :
  dropped p = true → sameBuffers (onmessage p st) st.
Proof.
  unfold dropped, onmessage, isTruthy.
  destruct p as [| |m]; try (intros _; solve [repeat split]).
  destruct (msg_type m) as [type|]; [|intros _; solve [repeat split]].
  destruct (JS.falsy_str type); [intros _; solve [repeat split]|]. simpl.
  destruct (msg_error m) as [error|]; simpl.
  - destruct (JS.falsy_str error); simpl; [|intros _; solve [repeat split]].
    destruct (msg_data m) as [[d|f]|]; destruct (String.eqb type "detection");
      simpl; try (intros _; solve [repeat split]).
    + intros Hf. unfold handleDetectionEvent. rewrite Hf. solve [repeat split].
    + destruct (String.eqb type "frame"); intros _; solve [repeat split].
    + destruct (String.eqb type "frame"); simpl;
        [|intros _; solve [repeat split]].
      intros Hf. unfold handleFrameEvent. rewrite Hf. solve [repeat split].
    + destruct (String.eqb type "frame"); intros _; solve [repeat split].
  - destruct (msg_data m) as [[d|f]|]; destruct (String.eqb type "detection");
      simpl; try (intros _; solve [repeat split]).
    + intros Hf. unfold handleDetectionEvent. rewrite Hf. solve [repeat split].
    + destruct (String.eqb type "frame"); intros _; solve [repeat split].
    + destruct (String.eqb type "frame"); simpl;
        [|intros _; solve [repeat split]].
      intros Hf. unfold handleFrameEvent. rewrite Hf. solve [repeat split].
    + destruct (String.eqb type "frame"); intros _; solve [repeat split].
Qed.

(** X1: a dropped message, wherever it occurs in a run, changes nothing but
    the console and the status text: the slot map, the buffers, the store,
    the suspended completions, the seen streams and the toasts at the end of
    the run are what they are without it. *)
Theorem dropped_message_leaves_no_trace
    (p : Payload) (before after : list Event) (st : State) :
  dropped p = true →
  sameBuffers (run (before ++ Incoming p :: after) st) (run (before ++ after) st).
Proof.
  intros Hp. rewrite !run_app.
  change (run (Incoming p :: after) (run before st))
    with (run after (onmessage p (run before st))).
  apply run_sameBuffers, dropped_sameBuffers, Hp.
Qed.

End Robustness.

(** ** New-stream notifications *)

Section Notifications.

Variable getTime : string → JS.timeval.
Variable alertsEnabled : bool.

#[local] Abbreviation resumeFrameEvent := (resumeFrameEvent alertsEnabled).
#[local] Abbreviation step := (step getTime alertsEnabled).
#[local] Abbreviation run := (run getTime alertsEnabled).

(** Messages and logging touch neither the slot map, nor the seen streams,
    nor the toasts. *)
Lemma onmessage_notifications (p : Payload) (st : State) :
  detections (onmessage getTime p st) = detections st
  ∧ knownStreamIds (onmessage getTime p st) = knownStreamIds st
  ∧ toasts (onmessage getTime p st) = toasts st.
Proof.
  unfold onmessage. repeat case_match; try (repeat split; reflexivity).
  - destruct (handleDetectionEvent_frame getTime d st) as (-> & _ & _ & -> & ->).
    repeat split.
  - destruct (handleFrameEvent_pendingFrames_only getTime f st)
      as (-> & _ & _ & -> & _ & ->).
    repeat split.
Qed.

#[local] Instance toastOf_inj : Inj (=) (=) toastOf.
Proof. intros a b H. unfold toastOf in H. cbv [String.append] in H. congruence. Qed.

Lemma resumeFrameEvent_notified (k : Suspended) (img : option string)
    (st : State) :
  notified alertsEnabled st → notified alertsEnabled (resumeFrameEvent k img st).
Proof.
  intros (seen & Hnd & Ht & Hk & Hdom). unfold resumeFrameEvent.
  destruct (isStale k (detections st)); [exists seen; repeat split; assumption|].
  set (s := f_stream_id (s_frameData k)).
  destruct alertsEnabled.
  - rewrite andb_true_r.
    destruct (bool_decide (is_Some (detections st !! s))) eqn:Hwas; simpl.
    + exists seen. repeat split; simpl; try assumption.
      rewrite dom_insert_L, <- Hdom.
      apply bool_decide_eq_true in Hwas. apply elem_of_dom in Hwas.
      rewrite <- Hdom in Hwas. symmetry.
      apply subseteq_union_1_L, singleton_subseteq_l, Hwas.
    + assert (Hnew : s ∉ knownStreamIds st).
      { rewrite Hdom, elem_of_dom. apply bool_decide_eq_false in Hwas.
        exact Hwas. }
      rewrite (bool_decide_eq_false_2 _ Hnew). simpl.
      exists (seen ++ [s]). repeat split; simpl.
      * apply NoDup_app. repeat split; [exact Hnd| |apply NoDup_singleton].
        intros x Hx [->|[]%elem_of_nil]%elem_of_cons.
        apply Hnew. rewrite Hk. apply elem_of_list_to_set, Hx.
      * rewrite fmap_app, Ht. reflexivity.
      * rewrite list_to_set_app_L, Hk. simpl.
        rewrite (right_id_L ∅ (∪)). apply (comm_L (∪)).
      * rewrite dom_insert_L, Hdom. reflexivity.
  - rewrite andb_false_r. exists seen. repeat split; simpl; assumption.
Qed.

Lemma step_notified (e : Event) (st : State) :
  notified alertsEnabled st → notified alertsEnabled (step st e).
Proof.
  intros Hst. destruct e as [p|i o].
  - destruct Hst as (seen & Hnd & Ht & Hk & Hdom).
    destruct (onmessage_notifications p st) as (Ed & Ek & Et).
    exists seen. simpl. rewrite Ed, Ek, Et. repeat split; assumption.
  - unfold step. destruct (suspended st !! i) as [k|]; [|exact Hst].
    destruct (fetchImage (f_id (s_frameData k)) o) as [img logged].
    apply resumeFrameEvent_notified.
    assert (H1 : notified alertsEnabled
                   (set_suspended (delete i (suspended st)) st)) by exact Hst.
    revert H1. generalize (set_suspended (delete i (suspended st)) st).
    induction logged as [|e l IH]; intros s0 H0; [exact H0|].
    simpl. apply IH. exact H0.
Qed.

Lemma run_notified (es : list Event) : notified alertsEnabled (run es init).
Proof.
  assert (H0 : notified alertsEnabled init).
  { exists []. repeat split; [constructor|].
    destruct alertsEnabled; [|reflexivity]. simpl. rewrite dom_empty_L.
    reflexivity. }
  revert H0. generalize init.
  induction es as [|e es IH]; intros st Hst; [exact Hst|].
  apply IH, step_notified, Hst.
Qed.

(** X2: for a fixed [alertsEnabled], after any run from the initial state no
    new-stream toast is shown twice.  With alerts enabled there is exactly
    one toast for every stream that has a slot and none for any other, and
    the seen streams are the streams that have a slot; with alerts disabled
    there is no toast and no stream is recorded as seen. *)
Theorem one_toast_per_new_stream (es : list Event) :
  let st := run es init in
  NoDup (toasts st)
  ∧ length (toasts st) = size (knownStreamIds st)
  ∧ (∀ s, toastOf s ∈ toasts st ↔ s ∈ knownStreamIds st)
  ∧ (if alertsEnabled then knownStreamIds st = dom (detections st)
     else toasts st = [] ∧ knownStreamIds st = ∅).
Proof.
  intros st. destruct (run_notified es) as (seen & Hnd & Ht & Hk & Hdom).
  fold st in Ht, Hk, Hdom. rewrite Ht, Hk.
  split; [|split; [|split]].
  - apply (NoDup_fmap_2 _), Hnd.
  - rewrite length_fmap, size_list_to_set by exact Hnd. reflexivity.
  - intros s. rewrite elem_of_list_to_set. apply list_elem_of_fmap_inj, _.
  - destruct alertsEnabled.
    + rewrite <- Hk. exact Hdom.
    + subst seen. split; reflexivity.
Qed.

End Notifications.


(** ** References, parked frames and cards *)

Section Grounding.

Variable getTime : string → JS.timeval.
Variable alertsEnabled : bool.

#[local] Abbreviation handleFrameEvent := (handleFrameEvent getTime).
#[local] Abbreviation handleDetectionEvent := (handleDetectionEvent getTime).
#[local] Abbreviation resumeFrameEvent := (resumeFrameEvent alertsEnabled).
#[local] Abbreviation onmessage := (onmessage getTime).
#[local] Abbreviation step := (step getTime alertsEnabled).
#[local] Abbreviation run := (run getTime alertsEnabled).

Lemma handleDetectionEvent_afterAdd (d : DetectionEventData) (st : State) :
  JS.falsy_str (d_frame_id d) = false →
  handleDetectionEvent d st
  = match pendingFrames (afterAdd d st) !! d_frame_id d with
    | Some pendingFrame =>
        let st3 := handleFrameEvent pendingFrame (afterAdd d st) in
        set_pendingFrames (delete (d_frame_id d) (pendingFrames st3)) st3
    | None => afterAdd d st
    end.
Proof.
  intros Hf. unfold handleDetectionEvent, afterAdd. rewrite Hf.
  destruct (pendingDetections st !! d_frame_id d); reflexivity.
Qed.

Lemma afterAdd_pending (d : DetectionEventData) (st : State) :
  pendingFrames (afterAdd d st) = pendingFrames st
  ∧ is_Some (pendingDetections (afterAdd d st) !! d_frame_id d)
  ∧ ∀ key, key ≠ d_frame_id d →
           pendingDetections (afterAdd d st) !! key
           = pendingDetections st !! key.
Proof.
  unfold afterAdd.
  destruct (pendingDetections st !! d_frame_id d) as [r0|] eqn:Hr0; simpl.
  - split; [reflexivity|]. split; [rewrite Hr0; eauto|reflexivity].
  - split; [reflexivity|]. split; [rewrite lookup_insert_eq; eauto|].
    intros key Hne. apply lookup_insert_ne. congruence.
Qed.

Lemma addDetection_grows (d : DetectionEventData) (o : FrameDetections) :
  frameId (addDetection d o) = frameId o
  ∧ detectionCount (addDetection d o) ≠ 0.
Proof.
  split; [reflexivity|]. simpl. rewrite length_app. simpl. lia.
Qed.

Lemma afterAdd_extends (d : DetectionEventData) (st : State) :
  extends st (afterAdd d st).
Proof.
  intros r o Ho. unfold afterAdd.
  destruct (pendingDetections st !! d_frame_id d) as [r0|]; simpl;
    rewrite list_lookup_alter.
  - case_decide.
    + subst r0. rewrite Ho. simpl. eexists. split; [reflexivity|].
      destruct (addDetection_grows d o) as [E Hn]. split; [exact E|].
      intros _. exact Hn.
    + exists o. auto.
  - rewrite decide_False by (apply lookup_lt_Some in Ho; lia).
    exists o. rewrite lookup_app_l by (eapply lookup_lt_Some, Ho). auto.
Qed.

Lemma aggregateFor_extends (st st' : State) (key : string) (r : nat) :
  extends st st' → aggregateFor st key r → aggregateFor st' key r.
Proof.
  intros He (o & Ho & Hid & Hc). destruct (He _ _ Ho) as (o' & Ho' & Hid' & Hc').
  exists o'. split; [exact Ho'|]. split; [congruence|auto].
Qed.

Lemma afterAdd_grounded (d : DetectionEventData) (st : State) :
  JS.falsy_str (d_frame_id d) = false →
  grounded st → grounded (afterAdd d st).
Proof.
  intros Hf (H1 & H2 & H3).
  pose proof (afterAdd_extends d st) as He.
  assert (E : suspended (afterAdd d st) = suspended st
              ∧ detections (afterAdd d st) = detections st).
  { unfold afterAdd. destruct (pendingDetections st !! d_frame_id d);
      split; reflexivity. }
  destruct E as [Es Ed].
  split; [|split].
  - intros key r Hr. destruct (decide (key = d_frame_id d)) as [->|Hne].
    + split; [|exact Hf]. revert Hr. unfold aggregateFor, afterAdd.
      destruct (pendingDetections st !! d_frame_id d) as [r0|] eqn:Hr0; simpl.
      * intros Hr. assert (r0 = r) as -> by congruence.
        destruct (H1 _ _ Hr0) as [(o & Ho & Hid & Hc) _].
        rewrite list_lookup_alter, decide_True by reflexivity. rewrite Ho.
        simpl. eexists. split; [reflexivity|]. split; [exact Hid|].
        simpl. rewrite length_app. simpl. lia.
      * rewrite lookup_insert_eq. intros [= <-].
        rewrite list_lookup_alter, decide_True by reflexivity.
        rewrite list_lookup_middle by reflexivity. simpl.
        eexists. split; [reflexivity|]. split; [reflexivity|]. simpl. lia.
    + destruct (afterAdd_pending d st) as (_ & _ & Hother).
      rewrite Hother in Hr by exact Hne. destruct (H1 _ _ Hr) as [Ha Hk].
      split; [exact (aggregateFor_extends _ _ _ _ He Ha)|exact Hk].
  - rewrite Es. eapply Forall_impl; [exact H2|]. intros k (Ha & Hk).
    split; [exact (aggregateFor_extends _ _ _ _ He Ha)|exact Hk].
  - rewrite Ed. intros s c Hc. destruct (H3 _ _ Hc) as (Ha & Hrest).
    split; [exact (aggregateFor_extends _ _ _ _ He Ha)|exact Hrest].
Qed.

(** With the references grounded, [handleFrameEvent] returns at once (an id
    is missing), parks the frame (nothing is buffered for it), or suspends. *)
Lemma handleFrameEvent_grounded_cases (f : FrameEventData) (st : State) :
  grounded st →
  (JS.falsy_str (f_stream_id f) || JS.falsy_str (f_id f) = true
   ∧ handleFrameEvent f st = st)
  ∨ (JS.falsy_str (f_stream_id f) = false ∧ JS.falsy_str (f_id f) = false
     ∧ pendingDetections st !! f_id f = None
     ∧ handleFrameEvent f st
       = set_pendingFrames (<[f_id f := f]> (pendingFrames st)) st)
  ∨ (JS.falsy_str (f_stream_id f) = false ∧ JS.falsy_str (f_id f) = false
     ∧ ∃ r, pendingDetections st !! f_id f = Some r
            ∧ handleFrameEvent f st
              = set_suspended
                  (suspended st
                     ++ [mkSuspended f r (getTime (f_timestamp f))]) st).
Proof.
  intros (H1 & _ & _). unfold handleFrameEvent.
  destruct (JS.falsy_str (f_stream_id f)) eqn:Hs; [left; split; reflexivity|].
  destruct (JS.falsy_str (f_id f)) eqn:Hf; [left; split; reflexivity|]. simpl.
  destruct (pendingDetections st !! f_id f) as [r|] eqn:Hr; simpl.
  - destruct (H1 _ _ Hr) as [(o & Ho & _ & Hc) _]. rewrite Ho. simpl.
    destruct (detectionCount o) eqn:Hn; [congruence|]. simpl.
    right; right. repeat split. exists r. split; reflexivity.
  - right; left. repeat split.
Qed.

Lemma handleFrameEvent_grounded (f : FrameEventData) (st : State) :
  grounded st → grounded (handleFrameEvent f st).
Proof.
  intros Hst.
  destruct (handleFrameEvent_grounded_cases f st Hst)
    as [[_ ->]|[(_ & _ & _ & ->)|(Hs & Hf & r & Hr & ->)]];
    [exact Hst|exact Hst|].
  destruct Hst as (H1 & H2 & H3). split; [exact H1|split; [|exact H3]]. simpl.
  apply Forall_app_2; [exact H2|]. constructor; [|constructor]. simpl.
  destruct (H1 _ _ Hr) as [Hagg _]. repeat split; assumption.
Qed.

Lemma handleDetectionEvent_grounded (d : DetectionEventData) (st : State) :
  grounded st → grounded (handleDetectionEvent d st).
Proof.
  intros Hst.
  destruct (JS.falsy_str (d_frame_id d)) eqn:Hf.
  { unfold handleDetectionEvent. rewrite Hf. exact Hst. }
  rewrite (handleDetectionEvent_afterAdd d st Hf).
  pose proof (afterAdd_grounded d st Hf Hst) as H2.
  destruct (pendingFrames (afterAdd d st) !! d_frame_id d) as [pf|];
    [|exact H2].
  exact (handleFrameEvent_grounded pf _ H2).
Qed.

Lemma orUndefined_not_empty (img : option string) : orUndefined img ≠ Some "".
Proof.
  destruct img as [[|a s]|]; simpl; discriminate.
Qed.

Lemma step_grounded (e : Event) (st : State) :
  grounded st → grounded (step st e).
Proof.
  intros Hst. destruct e as [p|i o].
  - simpl. unfold onmessage. repeat case_match; try exact Hst.
    + apply handleDetectionEvent_grounded, Hst.
    + apply handleFrameEvent_grounded, Hst.
  - destruct (suspended st !! i) as [k|] eqn:Hk.
    2: { unfold step. rewrite Hk. exact Hst. }
    rewrite (step_ImageFetched _ _ _ _ k _ Hk).
    set (st1 := foldl _ _ _).
    destruct (logged_frame (fetchImage (f_id (s_frameData k)) o).2
                (set_suspended (delete i (suspended st)) st))
      as (Ed & Es & _ & Epd & Est).
    fold st1 in Ed, Es, Epd, Est. simpl in Ed, Es, Epd, Est.
    destruct (resumeFrameEvent_fields alertsEnabled k
                (fetchImage (f_id (s_frameData k)) o).1 st1)
      as (Fd & Fpd & Fst & _ & Fs & _).
    destruct Hst as (H1 & H2 & H3).
    pose proof (Forall_lookup_1 _ _ _ _ H2 Hk) as (Hka & Hkf & Hks).
    unfold grounded, aggregateFor.
    rewrite Fd, Fpd, Fst, Fs, Ed, Es, Epd, Est.
    split; [|split].
    + intros key r Hr. apply (H1 key r).
      destruct (isStale k (detections st)); [exact Hr|].
      apply lookup_delete_Some in Hr as [_ Hr]. exact Hr.
    + apply Forall_delete, H2.
    + intros s c Hc.
      destruct (isStale k (detections st)); [exact (H3 _ _ Hc)|].
      apply lookup_insert_Some in Hc as [[<- <-]|[_ Hc]]; [|exact (H3 _ _ Hc)].
      simpl. repeat split; try assumption. apply orUndefined_not_empty.
Qed.

Lemma grounded_init : grounded init.
Proof.
  split; [|split].
  - intros key r H. simpl in H. rewrite lookup_empty in H. discriminate.
  - apply Forall_nil_2.
  - intros s c H. simpl in H. rewrite lookup_empty in H. discriminate.
Qed.

Lemma run_grounded (es : list Event) (st : State) :
  grounded st → grounded (run es st).
Proof.
  revert st. induction es as [|e es IH]; intros st Hst; [exact Hst|].
  apply IH, step_grounded, Hst.
Qed.

(** *** Parked frames *)

Lemma handleDetectionEvent_parked (d : DetectionEventData) (st : State) :
  grounded st → parkedAwaiting st → parkedAwaiting (handleDetectionEvent d st).
Proof.
  intros Hg Hp.
  destruct (JS.falsy_str (d_frame_id d)) eqn:Hf.
  { unfold handleDetectionEvent. rewrite Hf. exact Hp. }
  rewrite (handleDetectionEvent_afterAdd d st Hf).
  pose proof (afterAdd_grounded d st Hf Hg) as Hg2.
  destruct (afterAdd_pending d st) as (Epf & [r0 Hr0] & Hother).
  set (st2 := afterAdd d st) in *.
  assert (Hrest : ∀ key f, key ≠ d_frame_id d →
                    pendingFrames st !! key = Some f →
                    f_id f = key ∧ JS.falsy_str (f_id f) = false
                    ∧ JS.falsy_str (f_stream_id f) = false
                    ∧ pendingDetections st2 !! key = None).
  { intros key f Hne Hkey. destruct (Hp _ _ Hkey) as (? & ? & ? & Hn).
    repeat split; try assumption. rewrite Hother by exact Hne. exact Hn. }
  rewrite Epf.
  destruct (pendingFrames st !! d_frame_id d) as [pf|] eqn:Hpf.
  - destruct (Hp _ _ Hpf) as (Hid & Hpff & Hpfs & _).
    destruct (handleFrameEvent_grounded_cases pf st2 Hg2)
      as [[Hfalsy _]|[(_ & _ & Hnone & _)|(_ & _ & r & Hr & ->)]].
    + rewrite Hpff, Hpfs in Hfalsy. discriminate.
    + rewrite Hid in Hnone. congruence.
    + intros key f Hkey. cbv zeta in Hkey. simpl in Hkey.
      rewrite Epf in Hkey. apply lookup_delete_Some in Hkey as [Hne Hkey].
      destruct (Hrest key f) as (? & ? & ? & Hn); [congruence|exact Hkey|].
      repeat split; assumption.
  - intros key f Hkey. rewrite Epf in Hkey.
    apply Hrest; [congruence|exact Hkey].
Qed.

Lemma step_parked (e : Event) (st : State) :
  grounded st → parkedAwaiting st → parkedAwaiting (step st e).
Proof.
  intros Hg Hp. destruct e as [p|i o].
  - simpl. unfold onmessage. repeat case_match; try exact Hp.
    + apply handleDetectionEvent_parked; assumption.
    + destruct (handleFrameEvent_grounded_cases f st Hg)
        as [[_ ->]|[(Hs & Hf & Hnone & ->)|(_ & _ & r & _ & ->)]];
        [exact Hp| |exact Hp].
      intros key f' Hkey. simpl in Hkey.
      apply lookup_insert_Some in Hkey as [[<- <-]|[_ Hkey]].
      * repeat split; assumption.
      * exact (Hp _ _ Hkey).
  - destruct (suspended st !! i) as [k|] eqn:Hk.
    2: { unfold step. rewrite Hk. exact Hp. }
    rewrite (step_ImageFetched _ _ _ _ k _ Hk).
    set (st1 := foldl _ _ _).
    destruct (logged_frame (fetchImage (f_id (s_frameData k)) o).2
                (set_suspended (delete i (suspended st)) st))
      as (Ed & _ & Ep & Epd & _).
    fold st1 in Ed, Ep, Epd. simpl in Ed, Ep, Epd.
    destruct (resumeFrameEvent_fields alertsEnabled k
                (fetchImage (f_id (s_frameData k)) o).1 st1)
      as (_ & Fpd & _ & Fp & _).
    unfold parkedAwaiting. rewrite Fpd, Fp, Ep, Epd.
    intros key f Hkey. destruct (Hp _ _ Hkey) as (? & ? & ? & Hn).
    repeat split; try assumption.
    destruct (isStale k (detections st1)); [exact Hn|].
    rewrite lookup_delete_None. right. exact Hn.
Qed.

Lemma run_grounded_parked (es : list Event) :
  grounded (run es init) ∧ parkedAwaiting (run es init).
Proof.
  assert (H0 : grounded init ∧ parkedAwaiting init).
  { split; [apply grounded_init|]. intros k f' Hk. simpl in Hk.
    rewrite lookup_empty in Hk. discriminate. }
  revert H0. generalize init.
  induction es as [|e es IH]; intros st [Hg Hp]; [split; assumption|].
  apply IH. split; [apply step_grounded, Hg|apply step_parked; assumption].
Qed.

(** X5: after any run from the initial state, a frame parked in the
    pending-frames buffer is filed under its own id, has a non-empty id and
    stream id, and has no detection buffered: the two pending buffers never
    hold the same frame id. *)
Theorem parked_frames_await_detections
    (es : list Event) (key : string) (f : FrameEventData) :
  pendingFrames (run es init) !! key = Some f →
  f_id f = key
  ∧ JS.falsy_str (f_id f) = false
  ∧ JS.falsy_str (f_stream_id f) = false
  ∧ pendingDetections (run es init) !! key = None.
Proof.
  destruct (run_grounded_parked es) as [_ Hp]. apply Hp.
Qed.

(** *** Nothing is evicted *)

Lemma afterAdd_buffered (d : DetectionEventData) (st : State) :
  is_Some (pendingDetections st !! d_frame_id d) →
  pendingDetections (afterAdd d st) = pendingDetections st.
Proof.
  intros [r Hr]. unfold afterAdd. rewrite Hr. reflexivity.
Qed.

Lemma afterAdd_suspended (d : DetectionEventData) (st : State) :
  suspended (afterAdd d st) = suspended st.
Proof.
  unfold afterAdd. destruct (pendingDetections st !! d_frame_id d);
    reflexivity.
Qed.

Lemma step_keeps_parked (key : string) (e : Event) (st : State) :
  ¬ carriesDetectionOf key e →
  is_Some (pendingFrames st !! key) →
  is_Some (pendingFrames (step st e) !! key).
Proof.
  intros He Hst.
  assert (Hfr : ∀ f s, is_Some (pendingFrames s !! key) →
                  is_Some (pendingFrames (handleFrameEvent f s) !! key)).
  { intros f s Hs.
    destruct (handleFrameEvent_cases getTime f s)
      as [->|[->|(r & o & _ & _ & ->)]]; [exact Hs| |exact Hs].
    simpl. destruct (decide (f_id f = key)) as [->|Hne].
    - rewrite lookup_insert_eq. eauto.
    - rewrite lookup_insert_ne by exact Hne. exact Hs. }
  destruct e as [p|i o].
  - simpl. unfold onmessage. repeat case_match; try exact Hst.
    + simpl in He. match goal with H : msg_data _ = _ |- _ =>
                     rewrite H in He end.
      destruct (JS.falsy_str (d_frame_id d)) eqn:Hf.
      { unfold handleDetectionEvent. rewrite Hf. exact Hst. }
      rewrite (handleDetectionEvent_afterAdd d st Hf).
      destruct (afterAdd_pending d st) as (Epf & _).
      destruct (pendingFrames (afterAdd d st) !! d_frame_id d) as [pf|];
        [|rewrite Epf; exact Hst].
      cbv zeta. simpl. rewrite lookup_delete_ne by exact He.
      apply Hfr. rewrite Epf. exact Hst.
    + apply Hfr, Hst.
  - destruct (suspended st !! i) as [k|] eqn:Hk.
    2: { unfold step. rewrite Hk. exact Hst. }
    rewrite (step_ImageFetched _ _ _ _ k _ Hk).
    set (st1 := foldl _ _ _).
    destruct (logged_frame (fetchImage (f_id (s_frameData k)) o).2
                (set_suspended (delete i (suspended st)) st))
      as (_ & _ & Ep & _).
    fold st1 in Ep. simpl in Ep.
    destruct (resumeFrameEvent_fields alertsEnabled k
                (fetchImage (f_id (s_frameData k)) o).1 st1)
      as (_ & _ & _ & Fp & _).
    rewrite Fp, Ep. exact Hst.
Qed.

Lemma step_keeps_buffered (key : string) (r : nat) (e : Event) (st : State) :
  grounded st → parkedAwaiting st →
  ¬ carriesFrameOf key e →
  pendingDetections st !! key = Some r
  ∧ Forall (λ k, f_id (s_frameData k) ≠ key) (suspended st) →
  pendingDetections (step st e) !! key = Some r
  ∧ Forall (λ k, f_id (s_frameData k) ≠ key) (suspended (step st e)).
Proof.
  intros Hg Hp He [Hr Hs].
  assert (Hfr : ∀ f s, grounded s → f_id f ≠ key →
                  pendingDetections s !! key = Some r
                  ∧ Forall (λ k, f_id (s_frameData k) ≠ key) (suspended s) →
                  pendingDetections (handleFrameEvent f s) !! key = Some r
                  ∧ Forall (λ k, f_id (s_frameData k) ≠ key)
                      (suspended (handleFrameEvent f s))).
  { intros f s Hgs Hne [Hrs Hss].
    destruct (handleFrameEvent_grounded_cases f s Hgs)
      as [[_ ->]|[(_ & _ & _ & ->)|(_ & _ & r' & _ & ->)]];
      [split; assumption..|].
    split; [exact Hrs|]. simpl. apply Forall_app_2; [exact Hss|].
    constructor; [exact Hne|constructor]. }
  destruct e as [p|i o].
  - simpl. unfold onmessage. repeat case_match; try (split; assumption).
    + destruct (JS.falsy_str (d_frame_id d)) eqn:Hf.
      { unfold handleDetectionEvent. rewrite Hf. split; assumption. }
      rewrite (handleDetectionEvent_afterAdd d st Hf).
      pose proof (afterAdd_grounded d st Hf Hg) as Hg2.
      destruct (afterAdd_pending d st) as (Epf & _ & Hother).
      assert (Hadd : pendingDetections (afterAdd d st) !! key = Some r
                   ∧ Forall (λ k, f_id (s_frameData k) ≠ key)
                       (suspended (afterAdd d st))).
      { rewrite afterAdd_suspended. split; [|exact Hs].
        destruct (decide (key = d_frame_id d)) as [->|Hne].
        - rewrite afterAdd_buffered by (rewrite Hr; eauto). exact Hr.
        - rewrite Hother by exact Hne. exact Hr. }
      rewrite Epf.
      destruct (pendingFrames st !! d_frame_id d) as [pf|] eqn:Hpf;
        [|exact Hadd].
      destruct (Hp _ _ Hpf) as (Hid & _ & _ & Hnone).
      assert (Hne : f_id pf ≠ key) by congruence.
      exact (Hfr pf _ Hg2 Hne Hadd).
    + simpl in He. match goal with H : msg_data _ = _ |- _ =>
                     rewrite H in He end.
      exact (Hfr f st Hg He (conj Hr Hs)).
  - destruct (suspended st !! i) as [k|] eqn:Hk.
    2: { unfold step. rewrite Hk. split; assumption. }
    rewrite (step_ImageFetched _ _ _ _ k _ Hk).
    set (st1 := foldl _ _ _).
    destruct (logged_frame (fetchImage (f_id (s_frameData k)) o).2
                (set_suspended (delete i (suspended st)) st))
      as (Ed & Es & _ & Epd & _).
    fold st1 in Ed, Es, Epd. simpl in Ed, Es, Epd.
    destruct (resumeFrameEvent_fields alertsEnabled k
                (fetchImage (f_id (s_frameData k)) o).1 st1)
      as (_ & Fpd & _ & _ & Fs & _).
    rewrite Fpd, Fs, Es, Epd.
    pose proof (Forall_lookup_1 _ _ _ _ Hs Hk) as Hkne.
    split; [|apply Forall_delete, Hs].
    destruct (isStale k (detections st1)); [exact Hr|].
    rewrite lookup_delete_ne by exact Hkne. exact Hr.
Qed.

(** X15: nothing is evicted from the pending buffers.  In a state reached
    from the initial one, a frame id under which a frame event is parked
    keeps a parked frame event as long as no message carries a detection of
    that frame; and the aggregate buffered for a frame stays buffered, under
    the same reference, as long as no message carries the frame event, when
    no completion of the frame is suspended. *)
Theorem pending_buffers_wait
    (before es : list Event) (key : string) :
  let st := run before init in
  (Forall (λ e, ¬ carriesDetectionOf key e) es →
   is_Some (pendingFrames st !! key) →
   is_Some (pendingFrames (run es st) !! key))
  ∧ (Forall (λ e, ¬ carriesFrameOf key e) es →
     Forall (λ k, f_id (s_frameData k) ≠ key) (suspended st) →
     ∀ r, pendingDetections st !! key = Some r →
          pendingDetections (run es st) !! key = Some r).
Proof.
  intros st. split.
  - intros Hes. generalize st.
    induction Hes as [|e es He _ IH]; intros s Hs; [exact Hs|].
    apply IH, step_keeps_parked; assumption.
  - intros Hes Hsusp r Hr.
    assert (H : grounded st ∧ parkedAwaiting st)
      by apply run_grounded_parked.
    assert (Q : pendingDetections st !! key = Some r
                ∧ Forall (λ k, f_id (s_frameData k) ≠ key) (suspended st))
      by (split; assumption).
    clear Hsusp Hr. revert H Q. generalize st.
    induction Hes as [|e es He _ IH]; intros s [Hg Hp] Q; [exact (proj1 Q)|].
    apply IH.
    + split; [apply step_grounded, Hg|apply step_parked; assumption].
    + apply step_keeps_buffered; assumption.
Qed.

End Grounding.


(** ** The order of binary64 numbers *)

Lemma SFltb_trans (x y z : SpecFloat.spec_float) :
  SpecFloat.SFltb x y = true → SpecFloat.SFltb y z = true →
  SpecFloat.SFltb x z = true.
Proof.
  unfold SpecFloat.SFltb, SpecFloat.SFcompare.
  destruct x as [sx|sx| |sx mx ex], y as [sy|sy| |sy my ey],
    z as [sz|sz| |sz mz ez];
    try discriminate; try reflexivity;
    repeat match goal with b : bool |- _ => destruct b end;
    try discriminate; try reflexivity; intros H1 H2.
  all: repeat match goal with
       | H : context [Z.compare ?a ?b] |- _ =>
           destruct (Z.compare_spec a b); try discriminate
       | H : context [Pos.compare_cont Eq ?a ?b] |- _ =>
           change (Pos.compare_cont Eq a b) with (Pos.compare a b) in H;
           destruct (Pos.compare_spec a b); try discriminate
       end.
  all: simpl in *; try discriminate.
  all: repeat match goal with
       | |- context [Z.compare ?a ?b] => destruct (Z.compare_spec a b)
       | |- context [Pos.compare_cont Eq ?a ?b] =>
           change (Pos.compare_cont Eq a b) with (Pos.compare a b);
           destruct (Pos.compare_spec a b)
       end; simpl; try reflexivity; try lia.
Qed.

Lemma SFltb_irrefl (x : SpecFloat.spec_float) : SpecFloat.SFltb x x = false.
Proof.
  unfold SpecFloat.SFltb, SpecFloat.SFcompare.
  destruct x as [s|s| |s m e]; try reflexivity; destruct s; try reflexivity;
    rewrite Z.compare_refl;
    change (Pos.compare_cont Eq m m) with (Pos.compare m m);
    rewrite Pos.compare_refl; reflexivity.
Qed.

Lemma gt_trans (x y z : float) :
  JS.gt x y = true → JS.gt y z = true → JS.gt x z = true.
Proof.
  unfold JS.gt. rewrite !FloatAxioms.ltb_spec. intros H1 H2.
  exact (SFltb_trans _ _ _ H2 H1).
Qed.

Lemma gt_irrefl (x : float) : JS.gt x x = false.
Proof.
  unfold JS.gt. rewrite FloatAxioms.ltb_spec. apply SFltb_irrefl.
Qed.

Lemma positive_truthy (x : float) :
  JS.gt x 0%float = true → JS.falsy_num x = false.
Proof.
  unfold JS.gt, JS.falsy_num, JS.is_nan.
  rewrite FloatAxioms.ltb_spec, !FloatAxioms.eqb_spec.
  change (FloatOps.Prim2SF 0) with (SpecFloat.S754_zero false).
  destruct (FloatOps.Prim2SF x) as [s|s| |s m e]; simpl; try discriminate.
  - destruct s; [discriminate|reflexivity].
  - destruct s; [discriminate|]. intros _.
    unfold SpecFloat.SFeqb, SpecFloat.SFcompare. rewrite Z.compare_refl.
    change (Pos.compare_cont Eq m m) with (Pos.compare m m).
    rewrite Pos.compare_refl. reflexivity.
Qed.

(** ** What the aggregates hold *)

Section Aggregates.

Variable getTime : string → JS.timeval.
Variable alertsEnabled : bool.

#[local] Abbreviation handleFrameEvent := (handleFrameEvent getTime).
#[local] Abbreviation handleDetectionEvent := (handleDetectionEvent getTime).
#[local] Abbreviation resumeFrameEvent := (resumeFrameEvent alertsEnabled).
#[local] Abbreviation onmessage := (onmessage getTime).
#[local] Abbreviation step := (step getTime alertsEnabled).
#[local] Abbreviation run := (run getTime alertsEnabled).

(** The store changes only when a detection message is accepted, and then
    by [addDetection] on one aggregate. *)
Lemma step_store (e : Event) (st : State) :
  (accepted e = None ∧ store (step st e) = store st)
  ∨ ∃ d, accepted e = Some (toDetection d)
         ∧ store (step st e)
           = match pendingDetections st !! d_frame_id d with
             | Some r => alter (addDetection d) r (store st)
             | None =>
                 store st
                   ++ [addDetection d (emptyFrameDetections (d_frame_id d))]
             end.
Proof.
  assert (Hfr : ∀ f, store (handleFrameEvent f st) = store st).
  { intros f. unfold handleFrameEvent. repeat case_match; reflexivity. }
  destruct e as [p|i o].
  - destruct p as [| |m]; [left; split; reflexivity..|].
    simpl. unfold onmessage.
    destruct (msg_type m) as [type|]; [|left; split; reflexivity].
    destruct (JS.falsy_str type); [left; destruct (msg_data m) as [[]|]; split; reflexivity|].
    destruct (isTruthy (msg_error m));
      [left; destruct (msg_data m) as [[]|]; split; reflexivity|].
    simpl.
    destruct (String.eqb type "detection").
    + destruct (msg_data m) as [[d|f]|]; [|left; split; reflexivity..].
      simpl. rewrite handleDetectionEvent_store.
      destruct (JS.falsy_str (d_frame_id d)); [left; split; reflexivity|].
      right. exists d. split; [reflexivity|].
      destruct (pendingDetections st !! d_frame_id d); [reflexivity|].
      rewrite alter_app_r_alt by lia. rewrite Nat.sub_diag. reflexivity.
    + left. destruct (String.eqb type "frame");
        destruct (msg_data m) as [[d|f]|]; split; try reflexivity.
      apply Hfr.
  - left. split; [reflexivity|].
    destruct (suspended st !! i) as [k|] eqn:Hk.
    2: { unfold step. rewrite Hk. reflexivity. }
    rewrite (step_ImageFetched _ _ _ _ k _ Hk).
    destruct (resumeFrameEvent_fields alertsEnabled k
                (fetchImage (f_id (s_frameData k)) o).1
                (foldl (λ s e, log e s)
                   (set_suspended (delete i (suspended st)) st)
                   (fetchImage (f_id (s_frameData k)) o).2))
      as (_ & _ & -> & _).
    destruct (logged_frame (fetchImage (f_id (s_frameData k)) o).2
                (set_suspended (delete i (suspended st)) st))
      as (_ & _ & _ & _ & ->).
    reflexivity.
Qed.

(** *** The label map summarizes the detections *)

Lemma updateLabels_lookup (lbl l : string) (s : float) (m : gmap string float) :
  l ≠ lbl → updateLabels lbl s m !! l = m !! l.
Proof.
  intros Hne. unfold updateLabels. repeat case_match; try reflexivity;
    apply lookup_insert_ne; congruence.
Qed.

Lemma updateLabels_same (lbl : string) (s : float) (m : gmap string float) :
  updateLabels lbl s m !! lbl = Some s
  ∨ (updateLabels lbl s m = m ∧ is_Some (m !! lbl)).
Proof.
  unfold updateLabels. destruct (m !! lbl) as [cur|] eqn:Hcur.
  - case_match; [left; apply lookup_insert_eq|right; split; [reflexivity|]].
    eauto.
  - left. apply lookup_insert_eq.
Qed.

Lemma addDetection_summarized (d : DetectionEventData) (o : FrameDetections) :
  summarized o → summarized (addDetection d o).
Proof.
  intros (Hn & Hdom & Hsc). split; [reflexivity|]. simpl. split.
  - intros l. destruct (decide (l = d_label d)) as [->|Hne].
    + split.
      * intros _. exists (toDetection d). split; [|reflexivity].
        apply elem_of_app. right. apply list_elem_of_singleton. reflexivity.
      * intros _.
        destruct (updateLabels_same (d_label d)
                    (normalizeScore (d_confidence d)) (labels o))
          as [->|[-> H]]; eauto.
    + rewrite updateLabels_lookup by exact Hne. rewrite Hdom. split.
      * intros (x & Hx & Hl). exists x. split; [|exact Hl].
        apply elem_of_app. left. exact Hx.
      * intros (x & [Hx|Hx%list_elem_of_singleton]%elem_of_app & Hl).
        -- exists x. split; assumption.
        -- subst x. simpl in Hl. congruence.
  - intros l s Hl. destruct (decide (l = d_label d)) as [->|Hne].
    + destruct (updateLabels_same (d_label d)
                  (normalizeScore (d_confidence d)) (labels o))
        as [E|[E _]].
      * rewrite E in Hl. injection Hl as <-. exists (toDetection d).
        split; [|split; reflexivity].
        apply elem_of_app. right. apply list_elem_of_singleton. reflexivity.
      * rewrite E in Hl. destruct (Hsc _ _ Hl) as (x & Hx & Hxl & Hxs).
        exists x. split; [|split; assumption].
        apply elem_of_app. left. exact Hx.
    + rewrite updateLabels_lookup in Hl by exact Hne.
      destruct (Hsc _ _ Hl) as (x & Hx & Hxl & Hxs).
      exists x. split; [|split; assumption].
      apply elem_of_app. left. exact Hx.
Qed.

Lemma emptyFrameDetections_summarized (frame_id : string) :
  summarized (emptyFrameDetections frame_id).
Proof.
  split; [reflexivity|]. simpl. split.
  - intros l. rewrite lookup_empty. split.
    + intros [? [=]].
    + intros (x & []%elem_of_nil & _).
  - intros l s. rewrite lookup_empty. discriminate.
Qed.

Lemma step_preserves (P : FrameDetections → Prop) (e : Event) (st : State) :
  (∀ d o, accepted e = Some (toDetection d) → P o → P (addDetection d o)) →
  (∀ frame_id, P (emptyFrameDetections frame_id)) →
  Forall P (store st) → Forall P (store (step st e)).
Proof.
  intros Hadd Hempty Hst.
  destruct (step_store e st) as [[_ ->]|(d & Hacc & ->)]; [exact Hst|].
  destruct (pendingDetections st !! d_frame_id d) as [r|].
  - rewrite Forall_lookup. intros i o. rewrite list_lookup_alter.
    case_decide.
    + destruct (store st !! r) as [o0|] eqn:Ho0; [|discriminate].
      intros [= <-]. apply (Hadd d o0 Hacc).
      exact (Forall_lookup_1 _ _ _ _ Hst Ho0).
    + intros Ho. exact (Forall_lookup_1 _ _ _ _ Hst Ho).
  - apply Forall_app_2; [exact Hst|]. constructor; [|constructor].
    apply (Hadd d _ Hacc), Hempty.
Qed.

Lemma run_summarized (es : list Event) :
  Forall summarized (store (run es init)).
Proof.
  assert (H0 : Forall summarized (store init)) by apply Forall_nil_2.
  revert H0. generalize init.
  induction es as [|e es IH]; intros st Hst; [exact Hst|].
  apply IH, step_preserves; [|apply emptyFrameDetections_summarized|exact Hst].
  intros d o' _. apply addDetection_summarized.
Qed.

(** X3: after any run from the initial state, every aggregate of the store
    summarizes its detections.  Its count is the number of detections it
    holds; its label map has exactly the labels of these detections; and the
    score of a label is the normalized confidence of one of the detections
    with that label. *)
Theorem aggregate_summarizes_detections
    (es : list Event) (r : nat) (o : FrameDetections) :
  store (run es init) !! r = Some o →
  detectionCount o = length (detections_of o)
  ∧ (∀ l, is_Some (labels o !! l) ↔ ∃ x, x ∈ detections_of o ∧ label x = l)
  ∧ (∀ l s, labels o !! l = Some s →
            ∃ x, x ∈ detections_of o ∧ label x = l
                 ∧ normalizeScore (confidence x) = s).
Proof.
  intros Ho. exact (Forall_lookup_1 _ _ _ _ (run_summarized es) Ho).
Qed.

(** *** The score of a label is the highest *)

Lemma addDetection_highest (d : DetectionEventData) (o : FrameDetections) :
  JS.gt (normalizeScore (d_confidence d)) 0%float = true →
  summarized o → highest o → highest (addDetection d o).
Proof.
  intros Hpos (_ & Hdom & _) Hhi l s. simpl.
  set (new := normalizeScore (d_confidence d)) in *.
  destruct (decide (l = d_label d)) as [->|Hne].
  2: { rewrite updateLabels_lookup by exact Hne. intros Hl.
       destruct (Hhi _ _ Hl) as [Hs Hmax]. split; [exact Hs|].
       intros x [Hx|Hx%list_elem_of_singleton]%elem_of_app Hxl.
       - exact (Hmax x Hx Hxl).
       - subst x. simpl in Hxl. congruence. }
  unfold updateLabels.
  destruct (labels o !! d_label d) as [cur|] eqn:Hcur.
  - destruct (Hhi _ _ Hcur) as [Hcpos Hmax].
    rewrite (positive_truthy cur Hcpos). simpl.
    destruct (JS.gt new cur) eqn:Hgt.
    + rewrite lookup_insert_eq. intros [= <-]. split; [exact Hpos|].
      intros x [Hx|Hx%list_elem_of_singleton]%elem_of_app Hxl.
      * destruct (JS.gt (normalizeScore (confidence x)) new) eqn:Hx2;
          [|reflexivity].
        rewrite <- (Hmax x Hx Hxl). symmetry.
        exact (gt_trans _ _ _ Hx2 Hgt).
      * subst x. apply gt_irrefl.
    + rewrite Hcur. intros [= <-]. split; [exact Hcpos|].
      intros x [Hx|Hx%list_elem_of_singleton]%elem_of_app Hxl.
      * exact (Hmax x Hx Hxl).
      * subst x. exact Hgt.
  - rewrite lookup_insert_eq. intros [= <-]. split; [exact Hpos|].
    intros x [Hx|Hx%list_elem_of_singleton]%elem_of_app Hxl.
    + assert (Hsome : is_Some (labels o !! d_label d))
        by (apply Hdom; eauto).
      rewrite Hcur in Hsome. destruct Hsome as [? [=]].
    + subst x. apply gt_irrefl.
Qed.

Lemma positive_accepted (e : Event) (d : DetectionEventData) :
  positive e → accepted e = Some (toDetection d) →
  JS.gt (normalizeScore (d_confidence d)) 0%float = true.
Proof.
  destruct e as [[| |m]|]; try discriminate. simpl.
  destruct (msg_type m) as [type|]; [|discriminate].
  destruct (msg_data m) as [[d'|f]|]; try discriminate.
  intros Hpos. case_match; [|discriminate]. intros [= E].
  assert (d_confidence d' = d_confidence d) as <-; [|exact Hpos].
  unfold toDetection in E. congruence.
Qed.

(** X4: when the normalized confidence of every detection received is a
    positive number, then after any run from the initial state the score
    that an aggregate gives a label is positive and no detection of the
    aggregate with that label has a greater normalized confidence. *)
Theorem label_score_is_highest
    (es : list Event) (r : nat) (o : FrameDetections) (l : string) (s : float) :
  Forall positive es →
  store (run es init) !! r = Some o →
  labels o !! l = Some s →
  JS.gt s 0%float = true
  ∧ ∀ x, x ∈ detections_of o → label x = l →
         JS.gt (normalizeScore (confidence x)) s = false.
Proof.
  intros Hes Ho.
  assert (H : Forall (λ o, summarized o ∧ highest o) (store (run es init))).
  { assert (H0 : Forall (λ o, summarized o ∧ highest o) (store init))
      by apply Forall_nil_2.
    revert H0. generalize init. clear Ho.
    induction Hes as [|e es He _ IH]; intros st Hst; [exact Hst|].
    apply IH, step_preserves; [| |exact Hst].
    - intros d o' Hacc [Hs Hh]. split; [apply addDetection_summarized, Hs|].
      apply addDetection_highest; [|exact Hs|exact Hh].
      exact (positive_accepted e d He Hacc).
    - intros frame_id. split; [apply emptyFrameDetections_summarized|].
      intros l' s'. simpl. rewrite lookup_empty. discriminate. }
  destruct (Forall_lookup_1 _ _ _ _ H Ho) as [_ Hh]. apply Hh.
Qed.

(** *** No detection is lost *)

Lemma storedDetections_alter (d : DetectionEventData) (r : nat)
    (l : list FrameDetections) :
  r < length l →
  concat (detections_of <$> alter (addDetection d) r l)
  ≡ₚ concat (detections_of <$> l) ++ [toDetection d].
Proof.
  revert r. induction l as [|o l IH]; intros r Hr; simpl in Hr; [lia|].
  destruct r as [|r].
  - simpl. rewrite <- !(assoc_L (++)). apply Permutation_app_head.
    apply Permutation_app_comm.
  - change (alter (addDetection d) (S r) (o :: l))
      with (o :: alter (addDetection d) r l).
    rewrite !fmap_cons, !concat_cons, IH by lia.
    rewrite (assoc_L (++)). reflexivity.
Qed.

Lemma step_conserves (e : Event) (st : State) :
  wellFormed st →
  storedDetections (step st e)
  ≡ₚ storedDetections st ++ option_list (accepted e).
Proof.
  intros (H1 & _). unfold storedDetections.
  destruct (step_store e st) as [[-> ->]|(d & -> & ->)];
    [simpl; rewrite app_nil_r; reflexivity|].
  destruct (pendingDetections st !! d_frame_id d) as [r|] eqn:Hr.
  - destruct (H1 _ _ Hr) as (o & Ho & _).
    apply storedDetections_alter. eapply lookup_lt_Some, Ho.
  - rewrite fmap_app, concat_app. reflexivity.
Qed.

(** The store of the model keeps every aggregate ever created, also those
    that nothing refers to any more: it holds, up to order, the detections of
    the accepted messages. *)
Lemma store_holds_accepted (es : list Event) :
  storedDetections (run es init) ≡ₚ omap accepted es.
Proof.
  assert (H : ∀ st, wellFormed st →
                storedDetections (run es st)
                ≡ₚ storedDetections st ++ omap accepted es).
  { induction es as [|e es IH]; intros st Hst.
    - simpl. rewrite app_nil_r. reflexivity.
    - change (run (e :: es) st) with (run es (step st e)).
      rewrite (IH _ (step_wellFormed getTime alertsEnabled e st Hst)).
      rewrite step_conserves by exact Hst.
      rewrite <- (assoc_L (++)). apply Permutation_app_head.
      simpl. destruct (accepted e); reflexivity. }
  exact (H init wellFormed_init).
Qed.

Lemma seq_bind_lookup {A B} (g : A → list B) (l : list A) :
  seq 0 (length l) ≫= (λ r, from_option g [] (l !! r)) = l ≫= g.
Proof.
  induction l as [|a l IH]; [reflexivity|].
  simpl. f_equal. rewrite <- fmap_S_seq, list_fmap_bind. exact IH.
Qed.

Lemma concat_fmap_bind {A B} (g : A → list B) (l : list A) :
  concat (g <$> l) = l ≫= g.
Proof. induction l as [|a l IH]; [reflexivity|]. simpl. f_equal. exact IH. Qed.

Lemma liveRefs_bounded (st : State) (r : nat) :
  wellFormed st → r ∈ liveRefs st → r < length (store st).
Proof.
  intros (H1 & H2 & H3). unfold liveRefs. rewrite !elem_of_union.
  intros [[Hr|Hr]|Hr].
  - apply elem_of_map_img in Hr as [key Hkey].
    destruct (H1 _ _ Hkey) as (o & Ho & _). eapply lookup_lt_Some, Ho.
  - apply elem_of_list_to_set, list_elem_of_fmap in Hr as (k & -> & Hk).
    rewrite Forall_forall in H2. destruct (H2 k Hk) as (o & Ho & _).
    eapply lookup_lt_Some, Ho.
  - apply elem_of_map_img in Hr as [s Hs].
    rewrite lookup_fmap in Hs.
    destruct (detections st !! s) as [c|] eqn:Hc; [|discriminate].
    injection Hs as <-. apply (H3 _ _ Hc).
Qed.

Lemma liveDetections_stored (st : State) :
  wellFormed st → liveDetections st ⊆+ storedDetections st.
Proof.
  intros Hwf. unfold liveDetections, storedDetections.
  rewrite concat_fmap_bind, <- (seq_bind_lookup detections_of (store st)).
  apply bind_submseteq, NoDup_submseteq; [apply NoDup_elements|].
  intros r Hr%elem_of_elements. apply elem_of_seq.
  pose proof (liveRefs_bounded st r Hwf Hr). lia.
Qed.

Lemma aggregate_stored (st : State) (r : nat) (o : FrameDetections) :
  store st !! r = Some o → detections_of o ⊆+ storedDetections st.
Proof.
  intros Ho. unfold storedDetections.
  rewrite <- (take_drop_middle _ _ _ Ho), fmap_app, concat_app, fmap_cons.
  simpl. apply submseteq_inserts_l, submseteq_inserts_r. reflexivity.
Qed.

(** X7: no detection is duplicated or invented.  After any run from the
    initial state, the detections of the aggregates that the state refers to
    (from the pending-detections buffer, from a completion suspended at the
    image fetch, from a card; each aggregate once) are, counted as often as
    they occur, among the detections of the accepted messages (those of type
    "detection" without an error and with a frame id).  So are the
    detections of any one card and of any one buffered aggregate. *)
Theorem no_detection_duplicated (es : list Event) :
  let st := run es init in
  liveDetections st ⊆+ omap accepted es
  ∧ (∀ s o, slotAggregate st s = Some o →
            detections_of o ⊆+ omap accepted es)
  ∧ (∀ frame_id o, pendingAggregate st frame_id = Some o →
                   detections_of o ⊆+ omap accepted es).
Proof.
  intros st.
  assert (Hwf : wellFormed st) by apply run_wellFormed, wellFormed_init.
  pose proof (Permutation_submseteq _ _ (store_holds_accepted es)) as Hstore.
  fold st in Hstore.
  split; [|split].
  - etrans; [apply liveDetections_stored, Hwf|exact Hstore].
  - intros s o Ho. unfold slotAggregate in Ho.
    destruct (detections st !! s) as [c|]; [|discriminate]. simpl in Ho.
    etrans; [exact (aggregate_stored st _ o Ho)|exact Hstore].
  - intros frame_id o Ho. unfold pendingAggregate in Ho.
    destruct (pendingDetections st !! frame_id) as [r|]; [|discriminate].
    simpl in Ho.
    etrans; [exact (aggregate_stored st _ o Ho)|exact Hstore].
Qed.

End Aggregates.

(** ** What a card shows *)

Section Cards.

Variable getTime : string → JS.timeval.
Variable alertsEnabled : bool.

#[local] Abbreviation run := (run getTime alertsEnabled).

(** X6: after any run from the initial state, every card of the slot map
    sits under the stream id of its frame, both ids of the frame are
    non-empty, and its image is absent or a non-empty URL.  Its aggregate
    exists and is the aggregate of that frame; the count it shows is the
    number of detections it holds, which is at least one; and it has at
    least one label. *)
Theorem every_card_has_detections
    (es : list Event) (s : string) (c : DetectionCard) :
  detections (run es init) !! s = Some c →
  f_stream_id (frame (frameData c)) = s
  ∧ JS.falsy_str s = false
  ∧ JS.falsy_str (f_id (frame (frameData c))) = false
  ∧ imageUrl (frameData c) ≠ Some ""
  ∧ ∃ o, slotAggregate (run es init) s = Some o
         ∧ frameId o = f_id (frame (frameData c))
         ∧ detectionCount o = length (detections_of o)
         ∧ detectionCount o ≠ 0
         ∧ labels o ≠ ∅.
Proof.
  intros Hc.
  destruct (run_grounded getTime alertsEnabled es init (grounded_init))
    as (_ & _ & H3).
  destruct (H3 _ _ Hc) as ((o & Ho & Hid & Hn) & Hs & Hsf & Hff & Himg).
  destruct (Forall_lookup_1 _ _ _ _ (run_summarized getTime alertsEnabled es) Ho)
    as (Hlen & Hdom & _).
  repeat split; try assumption.
  exists o. unfold slotAggregate. rewrite Hc. simpl.
  repeat split; try assumption.
  intros Hempty.
  destruct (detections_of o) as [|x l] eqn:Hd; [simpl in Hlen; congruence|].
  assert (Hsome : is_Some (labels o !! label x)).
  { apply Hdom. exists x. split; [left|reflexivity]. }
  rewrite Hempty, lookup_empty in Hsome. destruct Hsome as [? [=]].
Qed.

End Cards.


(** * Further properties of the connection manager *)

Section Managed.

Import Connection.

Lemma closeCurrent_managed (st : State) :
  managed st → managed (closeCurrent st) ∧ eventSourceRef (closeCurrent st) = None.
Proof.
  intros Hst. destruct (eventSourceRef st) as [i|] eqn:Hi.
  2: { rewrite closeCurrent_None by exact Hi. split; [exact Hst|exact Hi]. }
  unfold closeCurrent. rewrite Hi. destruct Hst as (Hin & Hcl & Hs & Ht & Hl).
  split; [|reflexivity]. split; [|split; [|split; [|split]]]; simpl.
  - discriminate.
  - intros k es. rewrite list_lookup_alter. case_decide.
    + subst k. destruct (sources st !! i); [|discriminate].
      intros [= <-] _. reflexivity.
    + intros Hes _. apply (Hcl k es Hes). congruence.
  - rewrite Forall_lookup. intros k es. rewrite list_lookup_alter.
    case_decide.
    + subst k. destruct (sources st !! i) as [es0|] eqn:H0; [|discriminate].
      intros [= <-]. simpl. exact (Forall_lookup_1 _ _ _ _ Hs H0).
    + intros Hes. exact (Forall_lookup_1 _ _ _ _ Hs Hes).
  - exact Ht.
  - reflexivity.
Qed.

Lemma set_status_managed (x : string) (st : State) :
  managed st → managed (set_status x st).
Proof. intros H. exact H. Qed.

Lemma connect_managed (st : State) :
  managed st → isLive st = true → managed (connect true st).
Proof.
  intros Hst Hlive. unfold connect. simpl.
  destruct (closeCurrent_managed (set_status "Connecting..." st)
              (set_status_managed _ st Hst))
    as [(Hin & Hcl & Hs & Ht & Hl) Hnone].
  set (st1 := closeCurrent (set_status "Connecting..." st)) in *.
  split; [|split; [|split; [|split]]]; simpl.
  - intros i [= <-]. rewrite length_app. simpl. lia.
  - intros i es Hes Hne.
    destruct (decide (i < length (sources st1))) as [Hlt|Hge].
    + rewrite lookup_app_l in Hes by exact Hlt.
      apply (Hcl i es Hes). rewrite Hnone. discriminate.
    + apply lookup_lt_Some in Hes as Hlt. rewrite length_app in Hlt.
      simpl in Hlt. assert (i = length (sources st1)) by lia. congruence.
  - apply Forall_app_2; [exact Hs|]. constructor; [reflexivity|constructor].
  - exact Ht.
  - intros Hfalse.
    assert (E : isLive st1 = isLive st).
    { unfold st1, closeCurrent. simpl. destruct (eventSourceRef st); reflexivity. }
    congruence.
Qed.

Lemma insert_managed (st : State) (i : nat) (es : EventSource)
    (r : ReadyState) (x : string) (ts : list Timer) :
  managed st →
  sources st !! i = Some es →
  isClosed (readyState es) = false →
  Forall (λ t, t_isLive t = true ∧ delay t = 1000%Z) ts →
  managed (mkState (isLive st) x (eventSourceRef st)
             (<[i := mkEventSource r (es_isLive es)]> (sources st)) ts).
Proof.
  intros (Hin & Hcl & Hs & Ht & Hl) Hes Hopen Hts.
  split; [|split; [|split; [|split]]]; simpl.
  - intros k Hk. rewrite length_insert. exact (Hin k Hk).
  - intros k es' Hk Hne.
    destruct (decide (k = i)) as [->|Hki].
    + pose proof (Hcl i es Hes Hne) as Hc. rewrite Hc in Hopen. discriminate.
    + rewrite list_lookup_insert_ne in Hk by congruence.
      exact (Hcl k es' Hk Hne).
  - rewrite Forall_lookup. intros k es' Hk.
    destruct (decide (k = i)) as [->|Hki].
    + rewrite list_lookup_insert_eq in Hk by (eapply lookup_lt_Some, Hes).
      injection Hk as <-. simpl. exact (Forall_lookup_1 _ _ _ _ Hs Hes).
    + rewrite list_lookup_insert_ne in Hk by congruence.
      exact (Forall_lookup_1 _ _ _ _ Hs Hk).
  - exact Hts.
  - exact Hl.
Qed.

(** A closed current connection is held by a live manager only. *)
Lemma currentClosed_live (st : State) :
  managed st → currentClosed st = true → isLive st = true.
Proof.
  intros (_ & _ & _ & _ & Hl) Hc. destruct (isLive st); [reflexivity|].
  unfold currentClosed in Hc. rewrite Hl in Hc by reflexivity. discriminate.
Qed.

(** The callback of a timer created by a live render. *)
Lemma reconnect_live (t : Timer) (st : State) :
  t_isLive t = true →
  reconnect t st = if currentClosed st then connect true st else st.
Proof.
  intros Ht. unfold reconnect, currentClosed. rewrite Ht.
  destruct (eventSourceRef st ≫= λ i, sources st !! i) as [es|];
    reflexivity.
Qed.

Lemma step_managed (e : Event) (st : State) :
  managed st → managed (step st e).
Proof.
  intros Hst. destruct e as [i|i fatal|j|b|]; simpl.
  - destruct (sources st !! i) as [es|] eqn:Hes; [|exact Hst].
    destruct (isClosed (readyState es)) eqn:Hopen; [exact Hst|].
    apply insert_managed; try assumption. apply Hst.
  - destruct (sources st !! i) as [es|] eqn:Hes; [|exact Hst].
    destruct (isClosed (readyState es)) eqn:Hopen; [exact Hst|].
    apply insert_managed; try assumption.
    destruct Hst as (_ & _ & Hs & Ht & _).
    apply Forall_app_2; [exact Ht|]. constructor; [|constructor].
    split; [|reflexivity]. exact (Forall_lookup_1 _ _ _ _ Hs Hes).
  - destruct (timers st !! j) as [t|] eqn:Hj; [|exact Hst].
    assert (H0 : managed (set_timers (delete j (timers st)) st)).
    { destruct Hst as (Hin & Hcl & Hs & Ht & Hl).
      split; [exact Hin|]. split; [exact Hcl|]. split; [exact Hs|].
      split; [|exact Hl]. apply Forall_delete, Ht. }
    destruct Hst as (_ & _ & _ & Ht & _).
    destruct (Forall_lookup_1 _ _ _ _ Ht Hj) as [Hlive _].
    rewrite (reconnect_live t _ Hlive).
    destruct (currentClosed (set_timers (delete j (timers st)) st)) eqn:Hc;
      [|exact H0].
    apply connect_managed; [exact H0|].
    exact (currentClosed_live _ H0 Hc).
  - destruct (Bool.eqb b (isLive st)); [exact Hst|].
    destruct (closeCurrent_managed st Hst) as [H1 Hnone].
    assert (H2 : managed (set_isLive b (closeCurrent st))).
    { destruct H1 as (Hin & Hcl & Hs & Ht & Hl).
      split; [exact Hin|]. split; [exact Hcl|]. split; [exact Hs|].
      split; [exact Ht|]. intros _. exact Hnone. }
    destruct b.
    + apply connect_managed; [exact H2|reflexivity].
    + apply set_status_managed.
      exact (proj1 (closeCurrent_managed _ H2)).
  - exact (proj1 (closeCurrent_managed st Hst)).
Qed.

Lemma managed_mount : managed mount.
Proof.
  apply connect_managed; [|reflexivity].
  repeat split; simpl; try discriminate; apply Forall_nil_2.
Qed.

Lemma run_managed (es : list Event) (st : State) :
  managed st → managed (run es st).
Proof.
  revert st. induction es as [|e es IH]; intros st Hst; [exact Hst|].
  apply IH, step_managed, Hst.
Qed.

Lemma connect_isLive (live : bool) (st : State) :
  isLive (connect live st) = isLive st.
Proof.
  unfold connect, closeCurrent. simpl.
  destruct (eventSourceRef st), live; reflexivity.
Qed.

Lemma closeCurrent_status (st : State) :
  isLive (closeCurrent st) = isLive st ∧ status (closeCurrent st) = status st.
Proof. unfold closeCurrent. destruct (eventSourceRef st); split; reflexivity. Qed.

(** While the manager is not live, the status stays "Paused". *)
Lemma step_paused_status (e : Event) (st : State) :
  managed st →
  (isLive st = false → status st = "Paused") →
  isLive (step st e) = false → status (step st e) = "Paused".
Proof.
  intros (_ & Hcl & _ & _ & Hl) Hst.
  assert (Hclosed : ∀ i es, isLive st = false → sources st !! i = Some es →
                      isClosed (readyState es) = true).
  { intros i es Hfalse Hes. rewrite (Hcl i es Hes); [reflexivity|].
    rewrite (Hl Hfalse). discriminate. }
  destruct e as [i|i fatal|j|b|]; simpl.
  - destruct (sources st !! i) as [es|] eqn:Hes; [|exact Hst].
    destruct (isClosed (readyState es)) eqn:Hopen; [exact Hst|]. simpl.
    intros Hfalse. rewrite (Hclosed i es Hfalse Hes) in Hopen. discriminate.
  - destruct (sources st !! i) as [es|] eqn:Hes; [|exact Hst].
    destruct (isClosed (readyState es)) eqn:Hopen; [exact Hst|]. simpl.
    intros Hfalse. rewrite (Hclosed i es Hfalse Hes) in Hopen. discriminate.
  - destruct (timers st !! j) as [t|]; [|exact Hst].
    unfold reconnect. simpl.
    destruct (eventSourceRef st ≫= λ i, sources st !! i) as [es|] eqn:Hcur;
      [|exact Hst].
    destruct (isClosed (readyState es)); [|exact Hst].
    destruct (t_isLive t); [|exact Hst].
    rewrite connect_isLive. simpl. intros Hfalse.
    rewrite (Hl Hfalse) in Hcur. discriminate.
  - destruct (Bool.eqb b (isLive st)); [exact Hst|].
    destruct b; [|reflexivity].
    rewrite connect_isLive. discriminate.
  - destruct (closeCurrent_status st) as [-> ->]. exact Hst.
Qed.

Lemma run_paused_status (es : list Event) (st : State) :
  managed st →
  (isLive st = false → status st = "Paused") →
  isLive (run es st) = false → status (run es st) = "Paused".
Proof.
  revert st. induction es as [|e es IH]; intros st Hm Hst; [exact Hst|].
  apply IH; [apply step_managed, Hm|apply step_paused_status; assumption].
Qed.

(** X9: the manager never leaks a connection.  After any sequence of
    connection events, timer callbacks, live toggles and unmounts from the
    first render, the current connection (if any) is one of those created,
    and every connection other than the current one is closed.  While the
    manager is not live there is no current connection, so that every
    connection is closed, and the status that the manager has set is
    "Paused". *)
Theorem no_connection_leaked (es : list Event) :
  let st := run es mount in
  (∀ i, eventSourceRef st = Some i → is_Some (sources st !! i))
  ∧ (∀ i es, sources st !! i = Some es → eventSourceRef st ≠ Some i →
             readyState es = CLOSED)
  ∧ (isLive st = false →
     eventSourceRef st = None
     ∧ Forall (λ es, readyState es = CLOSED) (sources st)
     ∧ status st = "Paused").
Proof.
  intros st.
  destruct (run_managed es mount managed_mount) as (Hin & Hcl & _ & _ & Hl).
  fold st in Hin, Hcl, Hl.
  split; [|split].
  - intros i Hi. apply lookup_lt_is_Some, Hin, Hi.
  - exact Hcl.
  - intros Hfalse. pose proof (Hl Hfalse) as Hnone. split; [exact Hnone|].
    split.
    + rewrite Forall_lookup. intros i es' Hes. apply (Hcl i es' Hes).
      rewrite Hnone. discriminate.
    + apply (run_paused_status es mount managed_mount); [|exact Hfalse].
      discriminate.
Qed.

(** X10: every reconnect timer that is pending after any sequence of events
    from the first render was created by a live render and has a delay of
    1000 ms.  So the [isLive] test of its callback always passes: when the
    timer fires, [connect] is called exactly when the manager holds a
    current connection whose readyState is CLOSED, and then the manager is
    indeed live. *)
Theorem timer_reconnects_iff_current_closed
    (es : list Event) (j : nat) (t : Timer) :
  let st := run es mount in
  timers st !! j = Some t →
  let st0 := set_timers (delete j (timers st)) st in
  t_isLive t = true
  ∧ delay t = 1000%Z
  ∧ step st (TimerFired j) = (if currentClosed st then connect true st0 else st0)
  ∧ (currentClosed st = true → isLive st = true).
Proof.
  intros st Hj st0.
  pose proof (run_managed es mount managed_mount) as Hst. fold st in Hst.
  destruct Hst as (Hin & Hcl & Hs & Ht & Hl).
  destruct (Forall_lookup_1 _ _ _ _ Ht Hj) as [Hlive Hdelay].
  split; [exact Hlive|]. split; [exact Hdelay|]. split.
  - simpl. rewrite Hj. fold st0. rewrite (reconnect_live t st0 Hlive).
    reflexivity.
  - apply currentClosed_live. repeat split; assumption.
Qed.

End Managed.

(** * The overlay palette *)

Section OverlayColours.

Import Overlay.

(** X11: the colour of a bounding box, for an integral class id.  A
    non-negative class id always gets one of the six colours of the palette,
    the same one as the class id six above it, and two non-negative class
    ids get the same colour exactly when they are congruent modulo 6.  A
    negative class id that is not a multiple of 6 gets no colour: the
    remainder is negative and the palette has no such index. *)
Theorem box_colour_by_class (class_id : Z) :
  ((0 ≤ class_id)%Z →
   (∃ c, boxColor class_id = Some c ∧ c ∈ colors)
   ∧ boxColor (class_id + 6) = boxColor class_id
   ∧ ∀ other, (0 ≤ other)%Z →
       boxColor other = boxColor class_id ↔ (other mod 6 = class_id mod 6)%Z)
  ∧ ((class_id < 0)%Z → Z.rem class_id 6 ≠ 0%Z → boxColor class_id = None).
Proof.
  assert (Hnn : ∀ a, (0 ≤ a)%Z →
            boxColor a = colors !! Z.to_nat (a mod 6)).
  { intros a Ha. unfold boxColor.
    change (Z.of_nat (length colors)) with 6%Z. cbv zeta.
    rewrite Z.rem_mod_nonneg by lia.
    destruct (Z.ltb_spec (a mod 6) 0) as [H|H]; [|reflexivity].
    pose proof (Z.mod_pos_bound a 6). lia. }
  split.
  - intros Hc. split; [|split].
    + rewrite Hnn by exact Hc.
      assert (Hlt : Z.to_nat (class_id mod 6) < length colors).
      { change (length colors) with 6. pose proof (Z.mod_pos_bound class_id 6). lia. }
      destruct (lookup_lt_is_Some_2 _ _ Hlt) as [c E]. exists c.
      split; [exact E|]. eapply list_elem_of_lookup_2, E.
    + rewrite !Hnn by lia. f_equal. f_equal.
      replace (class_id + 6)%Z with (class_id + 1 * 6)%Z by lia.
      apply Z.mod_add. lia.
    + intros other Ho. rewrite !Hnn by assumption.
      pose proof (Z.mod_pos_bound class_id 6 ltac:(lia)) as B1.
      pose proof (Z.mod_pos_bound other 6 ltac:(lia)) as B2.
      split; [|intros ->; reflexivity].
      intros E.
      assert (Hnd : NoDup colors) by (apply (bool_decide_unpack (NoDup colors)); vm_compute; exact I).
      apply Z2Nat.inj; try lia.
      destruct (colors !! Z.to_nat (class_id mod 6)) as [c|] eqn:E1.
      * eapply NoDup_lookup; eassumption.
      * apply lookup_ge_None in E1. change (length colors) with 6 in E1. lia.
  - intros Hneg Hrem. unfold boxColor.
    change (Z.of_nat (length colors)) with 6%Z. cbv zeta.
    destruct (Z.ltb_spec (Z.rem class_id 6) 0) as [H|H]; [reflexivity|].
    pose proof (Z.rem_nonpos class_id 6 ltac:(lia) ltac:(lia)). lia.
Qed.
End OverlayColours.

(** * The alert service *)

Section MockAlerts.

Import AlertService.

Variable numberToString : float → string.

#[local] Abbreviation pushAlert := (pushAlert numberToString).
#[local] Abbreviation generateMockAlerts := (generateMockAlerts numberToString).

Lemma pushAlert_app (acc : list Alert) (d : Device) :
  pushAlert acc d = acc ++ pushAlert [] d.
Proof.
  unfold AlertService.pushAlert. repeat case_match; try reflexivity.
  symmetry. apply app_nil_r.
Qed.

Lemma foldl_pushAlert (acc : list Alert) (devices : list Device) :
  foldl pushAlert acc devices = acc ++ foldl pushAlert [] devices.
Proof.
  revert acc. induction devices as [|d ds IH]; intros acc; simpl.
  - symmetry. apply app_nil_r.
  - rewrite IH, (IH (pushAlert [] d)), (pushAlert_app acc d).
    symmetry. apply (assoc_L (++)).
Qed.

Lemma foldl_pushAlert_cons (d : Device) (devices : list Device) :
  foldl pushAlert [] (d :: devices)
  = pushAlert [] d ++ foldl pushAlert [] devices.
Proof. simpl. apply foldl_pushAlert. Qed.

(** What one device contributes. *)
Lemma pushAlert_cases (d : Device) :
  (dev_status d = "critical"
   ∧ ∃ m, pushAlert [] d
          = [mkAlert (dev_id d +:+ "-critical") "critical" (dev_name d)
               (dev_location d) m (dev_lastUpdate d)
               "Check HVAC system immediately"])
  ∨ (dev_status d = "warning"
     ∧ ∃ m, pushAlert [] d
            = [mkAlert (dev_id d +:+ "-warning") "warning" (dev_name d)
                 (dev_location d) m (dev_lastUpdate d)
                 "Monitor temperature trends"])
  ∨ (dev_status d ≠ "critical" ∧ dev_status d ≠ "warning"
     ∧ pushAlert [] d = []).
Proof.
  unfold AlertService.pushAlert.
  destruct (String.eqb_spec (dev_status d) "critical") as [E|N1].
  { left. split; [exact E|]. eexists. reflexivity. }
  destruct (String.eqb_spec (dev_status d) "warning") as [E|N2].
  { right; left. split; [exact E|]. eexists. reflexivity. }
  right; right. repeat split; assumption.
Qed.

Lemma mock_summary (devices : list Device) :
  (λ a, (a_device a, a_type a)) <$> foldl pushAlert [] devices
  = (λ d, (dev_name d, dev_status d)) <$> filter alerting devices.
Proof.
  induction devices as [|d ds IH]; [reflexivity|].
  rewrite foldl_pushAlert_cons, fmap_app, IH, filter_cons.
  destruct (pushAlert_cases d)
    as [(E & m & ->)|[(E & m & ->)|(N1 & N2 & ->)]].
  - rewrite decide_True by (left; exact E). simpl. rewrite E. reflexivity.
  - rewrite decide_True by (right; exact E). simpl. rewrite E. reflexivity.
  - rewrite decide_False by (intros [?|?]; contradiction). reflexivity.
Qed.

Lemma mock_count (type : string) (devices : list Device) :
  type = "critical" ∨ type = "warning" →
  length (filter (λ a, a_type a = type) (foldl pushAlert [] devices))
  = withStatus type devices.
Proof.
  intros Ht. unfold withStatus.
  induction devices as [|d ds IH]; [reflexivity|].
  rewrite foldl_pushAlert_cons, filter_app, length_app, IH, filter_cons.
  destruct (pushAlert_cases d)
    as [(E & m & ->)|[(E & m & ->)|(N1 & N2 & ->)]];
    rewrite ?filter_cons, ?filter_nil; simpl; rewrite ?E;
    repeat case_decide; simpl; try reflexivity;
    destruct Ht; congruence.
Qed.

Lemma mock_no_info (devices : list Device) :
  filter (λ a, a_type a = "info") (foldl pushAlert [] devices) = [].
Proof.
  induction devices as [|d ds IH]; [reflexivity|].
  rewrite foldl_pushAlert_cons, filter_app, IH.
  destruct (pushAlert_cases d)
    as [(E & m & ->)|[(E & m & ->)|(N1 & N2 & ->)]]; reflexivity.
Qed.

(** X12: the mock alerts follow the devices.  [generateMockAlerts] gives one
    alert for every device whose status is critical or warning, in the order
    of the devices, with the device's name and its status as type, followed
    by the one system notice of type info; so the list is never empty.  The
    statistics of these alerts count the critical and the warning devices,
    one info alert, and their sum as total, and the two counters agree with
    them. *)
Theorem mock_alerts_follow_devices (devices : list Device) :
  let alerts := generateMockAlerts devices in
  (λ a, (a_device a, a_type a)) <$> alerts
  = ((λ d, (dev_name d, dev_status d)) <$> filter alerting devices)
      ++ [("System", "info")]
  ∧ getMockAlertStats alerts
    = mkAlertStats (withStatus "critical" devices)
        (withStatus "warning" devices) 1
        (withStatus "critical" devices + withStatus "warning" devices + 1)
  ∧ getCriticalAlertsCount alerts = withStatus "critical" devices
  ∧ getWarningAlertsCount alerts = withStatus "warning" devices.
Proof.
  intros alerts. subst alerts. unfold AlertService.generateMockAlerts.
  pose proof (mock_count "critical" devices (or_introl eq_refl)) as Hc.
  pose proof (mock_count "warning" devices (or_intror eq_refl)) as Hw.
  pose proof (mock_no_info devices) as Hi.
  assert (Hlen : length (foldl pushAlert [] devices)
                 = withStatus "critical" devices
                   + withStatus "warning" devices).
  { rewrite <- (length_fmap (λ a, (a_device a, a_type a))), mock_summary,
      length_fmap.
    unfold withStatus. clear.
    induction devices as [|d ds IH]; [reflexivity|].
    rewrite !filter_cons. unfold alerting at 1.
    repeat case_decide; simpl; try lia; try (destruct_or?; congruence).
    all: exfalso; intuition congruence. }
  split; [|split; [|split]].
  - rewrite fmap_app, mock_summary. reflexivity.
  - unfold getMockAlertStats.
    rewrite !filter_app, !length_app, Hc, Hw, Hi, Hlen. simpl.
    f_equal; lia.
  - unfold getCriticalAlertsCount. rewrite filter_app, length_app, Hc.
    simpl. lia.
  - unfold getWarningAlertsCount. rewrite filter_app, length_app, Hw.
    simpl. lia.
Qed.

(** *** Alert ids *)

Lemma length_append (s t : string) :
  String.length (s +:+ t) = String.length s + String.length t.
Proof. induction s as [|a s IH]; simpl; [reflexivity|]. rewrite IH. reflexivity. Qed.

Lemma append_inj_l (s1 s2 t : string) : s1 +:+ t = s2 +:+ t → s1 = s2.
Proof.
  revert s2. induction s1 as [|a s1 IH]; intros [|b s2] H.
  - reflexivity.
  - apply (f_equal String.length) in H.
    rewrite !length_append in H. simpl in H. lia.
  - apply (f_equal String.length) in H.
    rewrite !length_append in H. simpl in H. lia.
  - simpl in H. injection H as -> H. f_equal. apply IH, H.
Qed.

Lemma lastChar_append (s t : string) :
  t ≠ EmptyString → lastChar (s +:+ t) = lastChar t.
Proof.
  intros Ht. induction s as [|a s IH]; [reflexivity|].
  simpl. rewrite IH. destruct (s +:+ t) eqn:E; [|reflexivity].
  destruct s; simpl in E; [contradiction|discriminate].
Qed.

(** The id of an alert pushed for one of [devices] is the id of the device
    followed by its status. *)
Lemma mock_ids (devices : list Device) (a : Alert) :
  a ∈ foldl pushAlert [] devices →
  ∃ d, d ∈ devices
       ∧ (a_id a = dev_id d +:+ "-critical" ∨ a_id a = dev_id d +:+ "-warning").
Proof.
  induction devices as [|d ds IH]; [intros []%elem_of_nil|].
  rewrite foldl_pushAlert_cons, elem_of_app. intros [Ha|Ha].
  - exists d. split; [left|].
    destruct (pushAlert_cases d)
      as [(E & m & Hp)|[(E & m & Hp)|(N1 & N2 & Hp)]];
      rewrite Hp in Ha.
    + apply list_elem_of_singleton in Ha as ->. left. reflexivity.
    + apply list_elem_of_singleton in Ha as ->. right. reflexivity.
    + apply elem_of_nil in Ha as [].
  - destruct (IH Ha) as (d' & Hd' & Hid). exists d'. split; [right; exact Hd'|exact Hid].
Qed.

Lemma mock_ids_differ (i j : string) :
  i +:+ "-critical" ≠ j +:+ "-warning"
  ∧ i +:+ "-critical" ≠ "sys-1" ∧ i +:+ "-warning" ≠ "sys-1".
Proof.
  repeat split; intros H; apply (f_equal lastChar) in H;
    rewrite !lastChar_append in H by discriminate; discriminate.
Qed.

(** X13: when the devices have distinct ids, the mock alerts have distinct
    ids (the keys under which the panel renders them). *)
Theorem mock_alert_ids_unique (devices : list Device) :
  NoDup (dev_id <$> devices) →
  NoDup (a_id <$> generateMockAlerts devices).
Proof.
  intros Hnd. unfold AlertService.generateMockAlerts.
  rewrite fmap_app. apply NoDup_app. split; [|split].
  - induction devices as [|d ds IH]; [apply NoDup_nil_2|].
    rewrite fmap_cons in Hnd. apply NoDup_cons in Hnd as [Hd Hds].
    rewrite foldl_pushAlert_cons, fmap_app. apply NoDup_app.
    split; [|split; [|exact (IH Hds)]].
    + destruct (pushAlert_cases d)
        as [(E & m & ->)|[(E & m & ->)|(N1 & N2 & ->)]];
        [apply NoDup_singleton..|apply NoDup_nil_2].
    + intros x Hx (a & -> & Ha)%list_elem_of_fmap.
      destruct (mock_ids ds a Ha) as (d' & Hd' & Hid).
      assert (Hne : dev_id d' ≠ dev_id d).
      { intros E. apply Hd. rewrite <- E. apply list_elem_of_fmap_2, Hd'. }
      destruct (mock_ids_differ (dev_id d) (dev_id d')) as (D1 & _).
      destruct (mock_ids_differ (dev_id d') (dev_id d)) as (D2 & _).
      destruct (pushAlert_cases d)
        as [(E & m & Hp)|[(E & m & Hp)|(N1 & N2 & Hp)]];
        rewrite Hp in Hx; simpl in Hx;
        [apply list_elem_of_singleton in Hx..|apply elem_of_nil in Hx as []];
        simpl in Hx; destruct Hid as [Hid|Hid]; rewrite Hid in Hx;
        try (apply append_inj_l in Hx); congruence.
  - intros x (a & -> & Ha)%list_elem_of_fmap Hx.
    apply list_elem_of_singleton in Hx. simpl in Hx.
    destruct (mock_ids devices a Ha) as (d & _ & Hid).
    destruct (mock_ids_differ (dev_id d) "") as (_ & D1 & D2).
    destruct Hid as [Hid|Hid]; congruence.
  - apply NoDup_singleton.
Qed.

End MockAlerts.

Section AlertCounts.

Import AlertService.

(** X14: when every alert has one of the three types, the critical, warning
    and info counts of [getMockAlertStats] add up to the total count; and
    its critical and warning counts are those of [getCriticalAlertsCount]
    and [getWarningAlertsCount]. *)
Theorem alert_counts_add_up (alerts : list Alert) :
  Forall (λ a, a_type a ∈ ["critical"; "warning"; "info"]) alerts →
  let stats := getMockAlertStats alerts in
  criticalCount stats + warningCount stats + infoCount stats = totalCount stats
  ∧ criticalCount stats = getCriticalAlertsCount alerts
  ∧ warningCount stats = getWarningAlertsCount alerts.
Proof.
  intros Hty stats. split; [|split; reflexivity]. subst stats. simpl.
  induction Hty as [|a l Ha _ IH]; [reflexivity|].
  rewrite !filter_cons. simpl.
  repeat (apply elem_of_cons in Ha as [Ha|Ha]);
    [..|apply elem_of_nil in Ha as []];
    rewrite Ha; repeat case_decide; try congruence; simpl; lia.
Qed.

End AlertCounts.


(** * Instances of the further properties *)

Section FurtherInstances.

Import Sample.
#[local] Abbreviation run := (run ISO.isoTime false).
#[local] Abbreviation step := (step ISO.isoTime false).

(** X1, witness: a detection without a frame id, between the truck of frame
    f1 and the frame event. *)
Lemma dropped_message_leaves_no_trace_witness :
  let p := Object (mkMessage (Some "detection") None
                     (Some (DetectionPayload (person "")))) in
  let before := [detectionMessage truck] in
  let after := [frameMessage f1; ImageFetched 0 loaded] in
  dropped p = true
  ∧ sameBuffers (run (before ++ Incoming p :: after) init)
      (run (before ++ after) init).
Proof.
  intros p before after.
  pose proof (dropped_message_leaves_no_trace ISO.isoTime false p before after
                init eq_refl) as H.
  split; [reflexivity|exact H].
Defined.

(** X3, witness: the aggregate of the truck and the car of frame f1. *)
Lemma aggregate_summarizes_detections_witness :
  let es := [detectionMessage truck; detectionMessage car] in
  let o := aggregateOf "f1" [truck; car] in
  store (run es init) !! 0 = Some o
  ∧ detectionCount o = length (detections_of o)
  ∧ (∀ l, is_Some (labels o !! l) ↔ ∃ x, x ∈ detections_of o ∧ label x = l)
  ∧ (∀ l s, labels o !! l = Some s →
            ∃ x, x ∈ detections_of o ∧ label x = l
                 ∧ normalizeScore (confidence x) = s).
Proof.
  intros es o.
  assert (Ho : store (run es init) !! 0 = Some o) by (vm_compute; reflexivity).
  pose proof (aggregate_summarizes_detections ISO.isoTime false es 0 o Ho) as H.
  split; [exact Ho|exact H].
Defined.

(** X4, witness: the car of frame f1, reported with 87, scores 0.87. *)
Lemma label_score_is_highest_witness :
  let es := [detectionMessage truck; detectionMessage car] in
  let o := aggregateOf "f1" [truck; car] in
  Forall positive es
  ∧ store (run es init) !! 0 = Some o
  ∧ labels o !! "car" = Some 0.87%float
  ∧ JS.gt 0.87%float 0%float = true
  ∧ ∀ x, x ∈ detections_of o → label x = "car" →
         JS.gt (normalizeScore (confidence x)) 0.87%float = false.
Proof.
  intros es o.
  assert (Hes : Forall positive es).
  { apply Forall_cons_2; [reflexivity|].
    apply Forall_cons_2; [reflexivity|apply Forall_nil_2]. }
  assert (Ho : store (run es init) !! 0 = Some o) by (vm_compute; reflexivity).
  assert (Hl : labels o !! "car" = Some 0.87%float)
    by (vm_compute; reflexivity).
  pose proof (label_score_is_highest ISO.isoTime false es 0 o "car" _ Hes Ho Hl)
    as [Hpos Hmax].
  split; [exact Hes|]. split; [exact Ho|]. split; [exact Hl|].
  split; [exact Hpos|exact Hmax].
Defined.

(** X5, witness: the frame event of f1 arrives before any detection. *)
Lemma parked_frames_await_detections_witness :
  let es := [frameMessage f1] in
  pendingFrames (run es init) !! "f1" = Some f1
  ∧ f_id f1 = "f1"
  ∧ JS.falsy_str (f_id f1) = false
  ∧ JS.falsy_str (f_stream_id f1) = false
  ∧ pendingDetections (run es init) !! "f1" = None.
Proof.
  intros es.
  assert (Hf : pendingFrames (run es init) !! "f1" = Some f1)
    by (vm_compute; reflexivity).
  pose proof (parked_frames_await_detections ISO.isoTime false es "f1" f1 Hf)
    as H.
  split; [exact Hf|exact H].
Defined.

(** X6, witness: frame f1 completed with the truck. *)
Lemma every_card_has_detections_witness :
  let es := [detectionMessage truck; frameMessage f1; ImageFetched 0 loaded] in
  let c := card "f1" "2025-01-01T00:00:00Z" 0 1735689600000 in
  detections (run es init) !! "cam1" = Some c
  ∧ f_stream_id (frame (frameData c)) = "cam1"
  ∧ JS.falsy_str "cam1" = false
  ∧ JS.falsy_str (f_id (frame (frameData c))) = false
  ∧ imageUrl (frameData c) ≠ Some ""
  ∧ ∃ o, slotAggregate (run es init) "cam1" = Some o
         ∧ frameId o = f_id (frame (frameData c))
         ∧ detectionCount o = length (detections_of o)
         ∧ detectionCount o ≠ 0
         ∧ labels o ≠ ∅.
Proof.
  intros es c.
  assert (Hc : detections (run es init) !! "cam1" = Some c)
    by (vm_compute; reflexivity).
  pose proof (every_card_has_detections ISO.isoTime false es "cam1" c Hc) as H.
  split; [exact Hc|exact H].
Defined.

(** X8, witness: the frame event of f1 is delivered twice; the first
    completion fills the slot, the second is stale. *)
Lemma redelivered_frame_is_stale_witness :
  let es := [detectionMessage truck; frameMessage f1; frameMessage f1;
             ImageFetched 0 loaded] in
  let c := card "f1" "2025-01-01T00:00:00Z" 0 1735689600000 in
  let k := mkSuspended f1 0 (Some 1735689600000%Z) in
  detections (run es init) !! "cam1" = Some c
  ∧ suspended (run es init) !! 0 = Some k
  ∧ s_frameData k = frame (frameData c)
  ∧ is_Some (messageTimestamp c)
  ∧ isStale k (detections (run es init)) = true
  ∧ detections (step (run es init) (ImageFetched 0 loaded)) !! "cam1"
    = Some c.
Proof.
  intros es c k.
  assert (Hc : detections (run es init) !! "cam1" = Some c)
    by (vm_compute; reflexivity).
  assert (Hk : suspended (run es init) !! 0 = Some k)
    by (vm_compute; reflexivity).
  assert (Hts : is_Some (messageTimestamp c)) by (eexists; reflexivity).
  pose proof (redelivered_frame_is_stale ISO.isoTime false es "cam1" c 0 k
                loaded Hc Hk eq_refl Hts) as [Hstale Hsame].
  split; [exact Hc|]. split; [exact Hk|]. split; [reflexivity|].
  split; [exact Hts|]. split; [exact Hstale|exact Hsame].
Defined.

(** X15, witness: the parked frame f1 waits while a detection of another
    frame arrives; the truck buffered for f1 waits while the car and the
    frame event of another frame arrive. *)
Lemma pending_buffers_wait_witness :
  let other := frameAt "f2" second1 in
  is_Some (pendingFrames
             (run [detectionMessage (person "f2")] (run [frameMessage f1] init))
           !! "f1")
  ∧ pendingDetections
      (run [detectionMessage car; frameMessage other]
         (run [detectionMessage truck] init)) !! "f1" = Some 0.
Proof.
  intros other.
  pose proof (pending_buffers_wait ISO.isoTime false [frameMessage f1]
                [detectionMessage (person "f2")] "f1") as [Hparked _].
  pose proof (pending_buffers_wait ISO.isoTime false [detectionMessage truck]
                [detectionMessage car; frameMessage other] "f1")
    as [_ Hbuffered].
  split.
  - apply Hparked.
    + apply Forall_cons_2; [|apply Forall_nil_2]. simpl. discriminate.
    + eexists. vm_compute. reflexivity.
  - apply Hbuffered.
    + apply Forall_cons_2; [simpl; tauto|].
      apply Forall_cons_2; [|apply Forall_nil_2]. simpl. discriminate.
    + apply Forall_nil_2.
    + vm_compute. reflexivity.
Defined.

End FurtherInstances.

Section ManagedInstances.

Import Connection.

(** X10, witness: the first connection fails for good and the timer is
    pending. *)
Lemma timer_reconnects_iff_current_closed_witness :
  let st := run [Failed 0 true] mount in
  let t := mkTimer 1000 true in
  let st0 := set_timers (delete 0 (timers st)) st in
  timers st !! 0 = Some t
  ∧ t_isLive t = true
  ∧ delay t = 1000%Z
  ∧ step st (TimerFired 0) = (if currentClosed st then connect true st0 else st0)
  ∧ (currentClosed st = true → isLive st = true).
Proof.
  intros st t st0.
  pose proof (timer_reconnects_iff_current_closed [Failed 0 true] 0 t eq_refl)
    as H.
  split; [reflexivity|exact H].
Defined.

End ManagedInstances.

Section AlertInstances.

Import AlertService.

(** X13, witness: the alerts of the sample devices, whatever the conversion
    of the temperature to a string. *)
Lemma mock_alert_ids_unique_witness :
  NoDup (dev_id <$> Sample.devices)
  ∧ NoDup (a_id <$> generateMockAlerts (λ _, "78") Sample.devices).
Proof.
  assert (Hnd : NoDup (dev_id <$> Sample.devices))
    by (apply (bool_decide_unpack (NoDup (dev_id <$> Sample.devices)));
        vm_compute; exact I).
  pose proof (mock_alert_ids_unique (λ _, "78") Sample.devices Hnd) as H.
  split; [exact Hnd|exact H].
Defined.

(** X14, witness: the alerts of the sample devices. *)
Lemma alert_counts_add_up_witness :
  let alerts := generateMockAlerts (λ _, "78") Sample.devices in
  let stats := getMockAlertStats alerts in
  Forall (λ a, a_type a ∈ ["critical"; "warning"; "info"]) alerts
  ∧ criticalCount stats + warningCount stats + infoCount stats
    = totalCount stats
  ∧ criticalCount stats = getCriticalAlertsCount alerts
  ∧ warningCount stats = getWarningAlertsCount alerts.
Proof.
  intros alerts stats.
  assert (Hty : Forall (λ a, a_type a ∈ ["critical"; "warning"; "info"]) alerts).
  { apply Forall_cons_2; [apply list_elem_of_here|].
    apply Forall_cons_2; [apply list_elem_of_further, list_elem_of_here|].
    apply Forall_cons_2; [|apply Forall_nil_2].
    apply list_elem_of_further, list_elem_of_further, list_elem_of_here. }
  pose proof (alert_counts_add_up alerts Hty) as H.
  split; [exact Hty|exact H].
Defined.

End AlertInstances.

(** * The alerts panel *)

Section Panel.

Import AlertService AlertsPanel.

Variable numberToString : float → string.

Lemma generateMockAlerts_not_empty (devices : list Device) :
  generateMockAlerts numberToString devices ≠ [].
Proof.
  unfold generateMockAlerts. intros H.
  apply (f_equal length) in H. rewrite length_app in H. simpl in H. lia.
Qed.

Lemma step_settles (e : Event) (st : State) :
  (inFlight st = [] → loading st = false) →
  inFlight (step st e) = [] → loading (step st e) = false.
Proof.
  intros Hst. destruct e as [devices|i o]; simpl.
  - intros H. apply (f_equal length) in H. rewrite length_app in H.
    simpl in H. lia.
  - destruct (inFlight st !! i); [|exact Hst].
    destruct o; reflexivity.
Qed.

Lemma step_mock (e : Event) (st : State) :
  mockMode numberToString e →
  render st ≠ NoActiveAlerts → render (step st e) ≠ NoActiveAlerts.
Proof.
  intros He Hst. destruct e as [devices|i o]; simpl.
  - discriminate.
  - destruct (inFlight st !! i); [|exact Hst].
    destruct o as [alertsData|]; [|contradiction].
    destruct He as [devices ->]. unfold render. simpl.
    pose proof (generateMockAlerts_not_empty devices) as Hne.
    destruct (generateMockAlerts numberToString devices);
      [contradiction|discriminate].
Qed.

(** X16: the panel is never left loading, and in mock mode it never shows
    "No active alerts".  After any sequence of renders and settled calls
    from the first render, [loading] is false when no call of
    [generateAlerts] is in flight; and when every settled call was fulfilled
    with the mock alerts of some devices, the panel shows the loading state
    or a list of alerts, which is not empty. *)
Theorem panel_settles (devices : list Device) (es : list Event) :
  let st := run es (mount devices) in
  (inFlight st = [] → loading st = false)
  ∧ (Forall (mockMode numberToString) es →
     render st = LoadingAlerts
     ∨ (alerts st ≠ [] ∧ render st = AlertList (alerts st))).
Proof.
  intros st. split.
  - subst st.
    assert (H0 : inFlight (mount devices) = [] → loading (mount devices) = false)
      by discriminate.
    revert H0. generalize (mount devices).
    induction es as [|e es IH]; intros s Hs; [exact Hs|].
    apply IH, step_settles, Hs.
  - intros Hes.
    assert (H : render st ≠ NoActiveAlerts).
    { subst st.
      assert (H0 : render (mount devices) ≠ NoActiveAlerts) by discriminate.
      revert H0. generalize (mount devices).
      induction Hes as [|e es He _ IH]; intros s Hs; [exact Hs|].
      apply IH, step_mock; assumption. }
    unfold render in *. destruct (loading st); [left; reflexivity|].
    destruct (alerts st); [contradiction|]. right. split; [discriminate|reflexivity].
Qed.

End Panel.

Section PanelInstances.

Import AlertService AlertsPanel.

(** X16, witness: the panel is mounted with the sample devices, rendered
    again with none, and both calls settle in mock mode. *)
Lemma panel_settles_witness :
  let n := λ _ : float, "78" in
  let es := [Render [];
             Settled 0 (Fulfilled (generateMockAlerts n Sample.devices));
             Settled 0 (Fulfilled (generateMockAlerts n []))] in
  let st := run es (mount Sample.devices) in
  inFlight st = []
  ∧ Forall (mockMode n) es
  ∧ loading st = false
  ∧ alerts st ≠ []
  ∧ render st = AlertList (alerts st).
Proof.
  intros n es st.
  pose proof (panel_settles n Sample.devices es) as [Hload Hmock].
  assert (Hes : Forall (mockMode n) es).
  { apply Forall_cons_2; [exact I|].
    apply Forall_cons_2; [exists Sample.devices; reflexivity|].
    apply Forall_cons_2; [exists []; reflexivity|apply Forall_nil_2]. }
  specialize (Hload eq_refl).
  destruct (Hmock Hes) as [Hl|[Hne Hr]].
  - exfalso. vm_compute in Hl. discriminate.
  - split; [reflexivity|]. split; [exact Hes|]. split; [exact Hload|].
    split; [exact Hne|exact Hr].
Defined.

End PanelInstances.
